(** * books-dashboard: the crawl engine and the cleaning stage

    A shallow embedding of [scrape.py] (fetch with retry, tolerant
    extraction, checkpointed persistence, crawl controller) and of the field
    extraction of [transform_and_load.py], with the properties the
    specification states about them.

    Conventions.
    - A Python call that may raise is a value of [pyres]: [Ret v] or
      [Raise e].
    - Python [str] is [string] (the UTF-8 bytes of the text); [None] is the
      [None] of [option]. The classes of characters (digits, whitespace)
      are read off the bytes, which is Python's reading on the texts that
      [Text.narrow] and [Text.plain] describe; the properties that depend
      on it are stated for such texts.
    - A Python [dict] with string keys is a [gmap string _]: equality of
      gmaps is equality of dicts (insertion order is not part of it).
    - Python [float] values that come from decimal text, and sleeping times,
      are exact rationals: only their order and their decimal value matter
      here, and rounding to a double is monotone. *)

From Stdlib Require Import ZArith QArith Qpower String Ascii List Lia Lqa Bool.
From stdpp Require Import base option list gmap sets strings sorting pretty.

Local Open Scope string_scope.
Local Open Scope Z_scope.

(** ** Python results *)

Inductive exn : Type :=
| AttributeError      (* attribute access on None *)
| ValueError          (* float() of a malformed token, int() of too long a
                         run, urljoin of a malformed reference, sleep of a
                         negative time *)
| KeyError            (* subscript with a key the dict does not have *)
| TypeError
| OverflowError       (* sleep of a time that does not fit the clock *)
| KeyboardInterrupt.  (* the external interrupt; not an [Exception] *)

(** [except Exception] catches every [exn] but [KeyboardInterrupt], which
    derives from [BaseException] only. *)
Definition is_Exception (e : exn) : bool :=
  match e with
  | KeyboardInterrupt => false
  | _ => true
  end.

Inductive pyres (A : Type) : Type :=
| Ret (a : A)
| Raise (e : exn).
Arguments Ret {A} a.
Arguments Raise {A} e.

Definition pyres_bind {A B} (m : pyres A) (f : A -> pyres B) : pyres B :=
  match m with
  | Ret a => f a
  | Raise e => Raise e
  end.

(** A call that raises [e] where it has no result. *)
Definition or_raise {A} (e : exn) (r : option A) : pyres A :=
  match r with
  | Some a => Ret a
  | None => Raise e
  end.

Definition raises {A} (m : pyres A) : bool :=
  match m with
  | Ret _ => false
  | Raise _ => true
  end.

(** ** Text helpers shared by both programs *)

Module Text.

Definition is_digit (c : ascii) : bool :=
  let n := nat_of_ascii c in (48 <=? n)%nat && (n <=? 57)%nat.

(** Python's [str.strip()] removes leading and trailing whitespace; on the
    ASCII range that is space, [\t], [\n], [\v], [\f], [\r] and the four
    separators 28..31. *)
Definition is_space (c : ascii) : bool :=
  let n := nat_of_ascii c in
  (n =? 32)%nat || ((9 <=? n)%nat && (n <=? 13)%nat)
  || ((28 <=? n)%nat && (n <=? 31)%nat).

Fixpoint drop_while (p : ascii -> bool) (s : string) : string :=
  match s with
  | EmptyString => EmptyString
  | String c s' => if p c then drop_while p s' else s
  end.

Fixpoint take_while (p : ascii -> bool) (s : string) : string :=
  match s with
  | EmptyString => EmptyString
  | String c s' => if p c then String c (take_while p s') else EmptyString
  end.

Fixpoint filter_chars (p : ascii -> bool) (s : string) : string :=
  match s with
  | EmptyString => EmptyString
  | String c s' =>
      if p c then String c (filter_chars p s') else filter_chars p s'
  end.

Fixpoint forall_chars (p : ascii -> bool) (s : string) : bool :=
  match s with
  | EmptyString => true
  | String c s' => p c && forall_chars p s'
  end.

Definition exists_char (p : ascii -> bool) (s : string) : bool :=
  negb (forall_chars (fun c => negb (p c)) s).

Definition lstrip (s : string) : string := drop_while is_space s.
Definition rstrip (s : string) : string :=
  String.rev (drop_while is_space (String.rev s)).
Definition strip (s : string) : string := rstrip (lstrip s).

(** [re.search] of a pattern of the form [[class]+]: the leftmost maximal
    run of characters of the class, [None] when no character is in it. *)
Definition search_run (p : ascii -> bool) (s : string) : option string :=
  match drop_while (fun c => negb (p c)) s with
  | EmptyString => None
  | rest => Some (take_while p rest)
  end.

(** The value of a string of decimal digits, most significant first. *)
Fixpoint digits_value_from (acc : N) (s : string) : N :=
  match s with
  | EmptyString => acc
  | String c s' =>
      digits_value_from (10 * acc + N.of_nat (nat_of_ascii c - 48))%N s'
  end.
Definition digits_value (s : string) : N := digits_value_from 0%N s.

(** Python truthiness of a [str]. *)
Definition truthy (s : string) : bool :=
  match s with
  | EmptyString => false
  | _ => true
  end.

(** *** The texts on which the classes above are Python's

    [\d] of [re], [int()] and [float()] accept every Unicode decimal digit,
    and [str.strip()] removes every Unicode space. Below U+0640 the only
    decimal digits are [0] to [9] (the next ones are U+0660 to U+0669), and
    the only spaces outside ASCII are U+0085 and U+00A0. A text all of
    whose characters are below U+0640 is one whose UTF-8 bytes are all
    below [0xD9]. *)
Definition low_byte (c : ascii) : bool := (nat_of_ascii c <? 217)%nat.

(** Every character is below U+0640: [is_digit] is [\d] on the text. *)
Definition narrow (s : string) : bool := forall_chars low_byte s.

(** Neither U+0085 (bytes [C2 85]) nor U+00A0 (bytes [C2 A0]) occurs. *)
Fixpoint no_wide_space (s : string) : bool :=
  match s with
  | String c1 ((String c2 _) as rest) =>
      negb ((nat_of_ascii c1 =? 194)%nat
            && ((nat_of_ascii c2 =? 133)%nat || (nat_of_ascii c2 =? 160)%nat))
      && no_wide_space rest
  | _ => true
  end.

(** A narrow text without those two spaces: [is_space] is Python's
    whitespace on the text too, and [strip] is [str.strip()]. *)
Definition plain (s : string) : bool := narrow s && no_wide_space s.

End Text.

(** ** The cleaning stage: [transform_and_load.py] *)

Module Clean.
Import Text.

(** A [float] read from a decimal token: [mant / 10 ^ scale]. *)
Record pyfloat : Type := Float { mant : N; scale : nat }.

Definition float_value (f : pyfloat) : Q :=
  Z.of_N (mant f) # Pos.of_nat (10 ^ scale f).

(** [float(tok)] for a token over digits and dots, which is all that
    [[\d\.,]+] with the commas removed can be: accepted are [d+], [d+.],
    [d+.d+] and [.d+]; anything else (no digit at all, or a second dot)
    is a [ValueError]. *)
Definition float_of_token (tok : string) : pyres pyfloat :=
  let is_dot := Ascii.eqb "."%char in
  let int_part := take_while is_digit tok in
  match drop_while is_digit tok with
  | EmptyString =>
      if truthy int_part then Ret (Float (digits_value int_part) 0)
      else Raise ValueError
  | String c frac =>
      if is_dot c && forall_chars is_digit frac
         && (truthy int_part || truthy frac)
      then Ret (Float (digits_value (int_part ++ frac)) (String.length frac))
      else Raise ValueError
  end.

Definition price_char (c : ascii) : bool :=
  is_digit c || Ascii.eqb c "."%char || Ascii.eqb c ","%char.

Definition remove_commas (s : string) : string :=
  filter_chars (fun c => negb (Ascii.eqb c ","%char)) s.

(** [parse_price], lines 30-38. *)
Definition parse_price (price_text : string) : pyres (option pyfloat) :=
  if negb (truthy price_text) then Ret None
  else
    match search_run price_char price_text with
    | None => Ret None
    | Some m => pyres_bind (float_of_token (remove_commas m))
                  (fun f => Ret (Some f))
    end.

(** [int(digits)] for a non-empty run of decimal digits: since Python 3.11
    (and the security releases of the older lines) a run of more than
    [sys.int_info.default_max_str_digits] digits is a [ValueError]. *)
Definition max_str_digits : nat := 4300.

Definition int_of_digits (digits : string) : pyres Z :=
  if (max_str_digits <? String.length digits)%nat then Raise ValueError
  else Ret (Z.of_N (digits_value digits)).

(** [parse_availability], lines 40-47. *)
Definition parse_availability (avail_text : string) : pyres (option Z) :=
  if negb (truthy avail_text) then Ret None
  else
    match search_run is_digit avail_text with
    | Some m => pyres_bind (int_of_digits m) (fun n => Ret (Some n))
    | None => Ret (Some 0)
    end.

(** [RATING_MAP], lines 20-28: the empty word is a key, bound to [None]. *)
Definition RATING_MAP : gmap string (option Z) :=
  <["One" := Some 1]> (<["Two" := Some 2]> (<["Three" := Some 3]>
  (<["Four" := Some 4]> (<["Five" := Some 5]> (<["Zero" := Some 0]>
  (<["" := None]> ∅)))))).

(** [rating_word_to_int]: [RATING_MAP.get(rating_word, None)]. *)
Definition rating_word_to_int (rating_word : string) : option Z :=
  default None (RATING_MAP !! rating_word).

(** *** Vocabulary of the properties *)

(** The decimal point, and how many of them a text holds. *)
Definition is_dot (c : ascii) : bool := Ascii.eqb c "."%char.
Definition dot_count (s : string) : nat :=
  String.length (filter_chars is_dot s).

(** What is left of a price character once the commas are removed. *)
Definition number_char (c : ascii) : bool := is_digit c || is_dot c.

(** [s] is empty or starts with a character outside the class [p]: a run of
    [p] cannot go on into [s]. *)
Definition stops (p : ascii -> bool) (s : string) : bool :=
  match s with
  | EmptyString => true
  | String c _ => negb (p c)
  end.

End Clean.


(** ** Parsed pages: the part of BeautifulSoup that [scrape.py] uses *)

Module Dom.
Import Text.

(** A parsed page is a tree of tags and text. The [class] attribute is
    multi-valued in BeautifulSoup (a list of tokens); every other attribute
    the scraper reads ([title], [href], [src], [id]) is a single string. *)
#[warnings="-register-all"]
Inductive node : Type :=
| TextNode (s : string)
| Elem (name : string) (classes : list string) (attrs : gmap string string)
       (kids : list node).

Definition tag_name (n : node) : option string :=
  match n with
  | TextNode _ => None
  | Elem nm _ _ _ => Some nm
  end.

Definition tag_classes (n : node) : list string :=
  match n with
  | TextNode _ => []
  | Elem _ cs _ _ => cs
  end.

(** [tag.get(key, default)] for a single-valued attribute. *)
Definition get_attr (n : node) (key default_value : string) : string :=
  match n with
  | TextNode _ => default_value
  | Elem _ _ attrs _ => default default_value (attrs !! key)
  end.

(** [tag.text]: every string below the tag, in document order. *)
Fixpoint text (n : node) : string :=
  match n with
  | TextNode s => s
  | Elem _ _ _ kids =>
      (fix texts (ks : list node) : string :=
         match ks with
         | [] => EmptyString
         | k :: rest => text k ++ texts rest
         end) kids
  end.

(** A node together with where it stands: its ancestors (nearest first)
    and the siblings that follow it. *)
Record place : Type := Place {
  here : node;
  above : list node;
  after : list node
}.

(** Every node strictly below [n], in document order. *)
Fixpoint walk (anc : list node) (n : node) : list place :=
  match n with
  | TextNode _ => []
  | Elem _ _ _ kids =>
      (fix each (ks : list node) : list place :=
         match ks with
         | [] => []
         | k :: rest =>
             Place k (n :: anc) rest :: walk (n :: anc) k ++ each rest
         end) kids
  end.

Definition places (root : node) : list place := walk [] root.

Definition has_name (nm : string) (n : node) : bool :=
  match tag_name n with
  | Some nm' => String.eqb nm nm'
  | None => false
  end.

Definition mem_string (x : string) (l : list string) : bool :=
  existsb (String.eqb x) l.

(** A CSS class selector [.c]: the token [c] is one of the classes. *)
Definition has_css_class (c : string) (n : node) : bool :=
  mem_string c (tag_classes n).

(** [find(..., class_=c)]: BeautifulSoup accepts the tag when [c] is one of
    its class tokens or equals the tokens joined by single spaces. *)
Definition matches_class_ (c : string) (n : node) : bool :=
  match n with
  | TextNode _ => false
  | Elem _ cs _ _ => mem_string c cs || String.eqb c (String.concat " " cs)
  end.

(** [tag.find_all(...)] and [tag.find(...)] with a predicate on tags. *)
Definition find_all (p : node -> bool) (root : node) : list node :=
  filter (fun n => p n = true) (here <$> places root).

Definition find (p : node -> bool) (root : node) : option node :=
  head (find_all p root).

(** [soup.select("article.product_pod")]. *)
Definition select_product_pods (soup : node) : list node :=
  find_all (fun n => has_name "article" n && has_css_class "product_pod" n)
           soup.

(** The descendant selector [ul.breadcrumb li a]: an [a] below an [li] that
    is below a [ul] of class [breadcrumb]. The nearest [li] ancestor decides:
    whatever stands above a farther one stands above the nearest too. *)
Fixpoint from_first (p : node -> bool) (l : list node) : list node :=
  match l with
  | [] => []
  | n :: rest => if p n then l else from_first p rest
  end.

Definition under_breadcrumb_item (anc : list node) : bool :=
  match from_first (has_name "li") anc with
  | [] => false
  | _ :: higher =>
      existsb (fun n => has_name "ul" n && has_css_class "breadcrumb" n)
              higher
  end.

Definition select_breadcrumb_links (soup : node) : list node :=
  here <$> filter (fun p => has_name "a" (here p)
                            && under_breadcrumb_item (above p) = true)
                  (places soup).

(** The CSS selector [#i]: the tag's [id] attribute is [i]. *)
Definition has_id (i : string) (n : node) : bool :=
  match n with
  | Elem _ _ attrs _ => bool_decide (attrs !! "id" = Some i)
  | TextNode _ => false
  end.

(** [soup.select_one("#product_description")]: the first such tag, kept
    with its place so that [find_next_sibling] can be asked of it. *)
Definition select_one_product_description (soup : node) : option place :=
  head (filter (fun p => has_id "product_description" (here p) = true)
               (places soup)).

(** [tag.find_next_sibling("p")]. *)
Definition find_next_sibling_p (p : place) : option node :=
  head (filter (fun n => has_name "p" n = true) (after p)).

(** Every string and every attribute value of the page is [plain]: what
    the parsers strip of them is what [str.strip()] strips. *)
Fixpoint plain_node (n : node) : bool :=
  match n with
  | TextNode s => plain s
  | Elem _ _ attrs kids =>
      bool_decide (map_Forall (fun _ v => plain v = true) attrs)
      && (fix all (ks : list node) : bool :=
            match ks with
            | [] => true
            | k :: rest => plain_node k && all rest
            end) kids
  end.

End Dom.


(** ** The crawl engine: [scrape.py] *)

Module Scrape.
Import Text Dom.

(** A scraped record: a [dict] from field names to [str] or [None]. *)
Abbreviation record := (gmap string (option string)).

(** Library functions whose code is not part of the repository. The scraper
    only composes them, so they are parameters of the model:
    [urllib.parse.urljoin], with [None] where it raises its [ValueError]
    (on a reference it cannot split, one that opens a bracket after two
    slashes and never closes it); [json.dump] and [json.load], as the text
    written and what is read back from a text ([None] stands for any
    exception [json.load] raises, and for a document that is not a list of
    records: the model follows runs on checkpoints the scraper wrote
    itself); and the text [csv.writer] produces for a header and its
    rows. *)
Class Libraries : Type := {
  urljoin : string -> string -> option string;
  json_dump : list record -> string;
  json_load : string -> option (list record);
  csv_text : list string -> list (list string) -> string
}.

(** *** Configuration, lines 25-34 *)

Definition BASE : string := "http://books.toscrape.com/".

(** [Path.with_suffix]: the last [.ext] of the final path component is
    replaced (appended when the component has none). *)
Definition with_suffix (path suffix : string) : string :=
  let sep c := Ascii.eqb c "."%char || Ascii.eqb c "/"%char in
  match drop_while (fun c => negb (sep c)) (String.rev path) with
  | String c stem =>
      if Ascii.eqb c "."%char then String.rev stem ++ suffix
      else path ++ suffix
  | EmptyString => path ++ suffix
  end.

Definition RAW_JSON : string := "data/raw_books.json".
Definition RAW_CSV : string := "data/raw_books.csv".
Definition RAW_TMP : string := with_suffix RAW_JSON ".tmp".

(** *** Listing extraction, lines 66-91 *)

Section Extraction.
Context `{!Libraries}.

(** [rating_p.get("class", [])] without the generic [star-rating] token;
    the first remaining token, or the empty string. *)
Definition rating_word (rating_class : list string) : string :=
  match filter (fun c => c ≠ "star-rating") rating_class with
  | c :: _ => c
  | [] => EmptyString
  end.

Definition parse_list_item (article : node) (page_base_url : string)
  : pyres record :=
  match find (has_name "h3") article with
  | None => Raise AttributeError           (* [h3.find] on [None] *)
  | Some h3 =>
      match find (has_name "a") h3 with
      | None => Raise AttributeError       (* [a.get] on [None] *)
      | Some a =>
          let title := strip (get_attr a "title" EmptyString) in
          let relative_link := get_attr a "href" EmptyString in
          pyres_bind (or_raise ValueError
                        (urljoin page_base_url relative_link))
            (fun product_link =>
          let price_tag :=
            find (fun n => has_name "p" n && matches_class_ "price_color" n)
                 article in
          let price :=
            match price_tag with
            | Some t => strip (text t)
            | None => EmptyString
            end in
          let availability_tag :=
            find (fun n => has_name "p" n
                           && matches_class_ "instock availability" n)
                 article in
          let availability :=
            match availability_tag with
            | Some t => strip (text t)
            | None => EmptyString
            end in
          let rating_p :=
            find (fun n => has_name "p" n && matches_class_ "star-rating" n)
                 article in
          let rating_class :=
            match rating_p with
            | Some t => tag_classes t
            | None => []
            end in
          let rating := rating_word rating_class in
          let img_tag := find (has_name "img") article in
          let img_src :=
            match img_tag with
            | Some t => get_attr t "src" EmptyString
            | None => EmptyString
            end in
          pyres_bind (or_raise ValueError (urljoin page_base_url img_src))
            (fun img_url =>
          Ret (<["title" := Some title]>
              (<["product_page_url" := Some product_link]>
              (<["price_text" := Some price]>
              (<["availability_text" := Some availability]>
              (<["rating_text" := Some rating]>
              (<["image_url" := Some img_url]> ∅))))))))
      end
  end.

(** *** Detail extraction: the body of the [try] of [parse_product_page],
    lines 101-123 *)

Definition detail_category (soup : node) : option string :=
  match select_breadcrumb_links soup !! 2%nat with
  | Some crumb => Some (strip (text crumb))
  | None => None
  end.

Definition detail_description (soup : node) : string :=
  match select_one_product_description soup with
  | Some desc_tag =>
      match find_next_sibling_p desc_tag with
      | Some p => strip (text p)
      | None => EmptyString
      end
  | None => EmptyString
  end.

(** The loop over the rows of the attribute table: [row.find("th").text]
    raises when the row has no header cell, likewise for the data cell. *)
Fixpoint table_rows_info (rows : list node) (info : record) : pyres record :=
  match rows with
  | [] => Ret info
  | row :: rest =>
      match find (has_name "th") row with
      | None => Raise AttributeError
      | Some th =>
          match find (has_name "td") row with
          | None => Raise AttributeError
          | Some td =>
              table_rows_info rest
                (<[strip (text th) := Some (strip (text td))]> info)
          end
      end
  end.

Definition find_info_table (soup : node) : option node :=
  find (fun n => has_name "table" n
                 && matches_class_ "table table-striped" n) soup.

Definition detail_info (soup : node) : pyres record :=
  match find_info_table soup with
  | Some table => table_rows_info (find_all (has_name "tr") table) ∅
  | None => Ret ∅
  end.

(** The dict display of line 123: later entries win, so the table's keys
    override [category] and [description], and [fetched_url] overrides
    all. *)
Definition detail_record (category : option string) (desc : string)
    (info : record) (final_url : string) : record :=
  <["fetched_url" := Some final_url]>
    (info ∪ <["description" := Some desc]> (<["category" := category]> ∅)).

Definition parse_product_body (soup : node) (final_url : string)
  : pyres record :=
  let category := detail_category soup in
  let desc := detail_description soup in
  pyres_bind (detail_info soup)
    (fun info => Ret (detail_record category desc info final_url)).

End Extraction.

(** *** The world the scraper runs in *)

(** What the [try] block of the fetcher comes back with: [NetError] stands
    for any [Exception] raised in it (by [requests.get], or by the parser on
    the body); a response has its status, its body as BeautifulSoup parses
    it, and [resp.url], the URL after redirects. *)
Inductive response : Type :=
| NetError
| Response (status_code : Z) (body : node) (url : string).

(** The environment, indexed by how often it has been asked: [net k u] is
    what the [k]-th request of the run returns when it asks for [u];
    [random_bits k] are the 53 bits of the [k]-th [random.random()];
    [sigint k] says whether the external interrupt arrives while the run is
    blocked in its [k]-th blocking call (a request or a sleep). *)
Record oracle : Type := Oracle {
  net : nat -> string -> response;
  random_bits : nat -> N;
  sigint : nat -> bool
}.

(** The state of a run: the files, the log of what was asked of the
    environment, and [all_books], the local accumulator of [scrape_all]. *)
Record state : Type := State {
  all_books : list record;
  fs : gmap string string;
  requests : list string;
  draws : nat;
  sleeps : list Q;
  ticks : nat
}.

Definition set_all_books (b : list record) (s : state) : state :=
  State b (fs s) (requests s) (draws s) (sleeps s) (ticks s).
Definition set_fs (f : gmap string string) (s : state) : state :=
  State (all_books s) f (requests s) (draws s) (sleeps s) (ticks s).
Definition tick (s : state) : state :=
  State (all_books s) (fs s) (requests s) (draws s) (sleeps s) (S (ticks s)).

(** Stateful code that may raise: the state survives the exception. *)
Definition M (A : Type) : Type := state -> pyres A * state.

Definition ret {A} (a : A) : M A := fun s => (Ret a, s).
Definition raise {A} (e : exn) : M A := fun s => (Raise e, s).
Definition bind {A B} (m : M A) (f : A -> M B) : M B :=
  fun s =>
    match m s with
    | (Ret a, s') => f a s'
    | (Raise e, s') => (Raise e, s')
    end.
Definition lift {A} (r : pyres A) : M A := fun s => (r, s).

Notation "'let!' x ':=' m 'in' k" := (bind m (fun x => k))
  (at level 10, x name, m at level 100, k at level 200).
Notation "m '>>' k" := (bind m (fun _ => k))
  (at level 90, right associativity).

(** [try: m except Exception: handler]. *)
Definition try_except {A} (m : M A) (handler : exn -> M A) : M A :=
  fun s =>
    match m s with
    | (Raise e, s') => if is_Exception e then handler e s' else (Raise e, s')
    | r => r
    end.

(** The longest time the clock of [time.sleep] can hold, in seconds:
    [2^63] nanoseconds. *)
Definition sleep_limit : Q := 9223372036854775808 # 1000000000.

(** A time safely below it, whatever the rounding of the product that is
    slept. *)
Definition sleepable : Q := 9000000000.

Section Effects.
Context `{!Libraries}.
Variable o : oracle.

(** [requests.get(url, ...)]: blocking, so the interrupt may arrive in it. *)
Definition requests_get (url : string) : M response :=
  fun s =>
    if sigint o (ticks s) then (Raise KeyboardInterrupt, tick s)
    else (Ret (net o (length (requests s)) url),
          State (all_books s) (fs s) (requests s ++ [url]) (draws s)
                (sleeps s) (S (ticks s))).

(** [random.random()]: a multiple of [2^-53] in [[0, 1)]. *)
Definition unit_interval (bits : N) : Q :=
  Z.of_N (bits mod 2 ^ 53) # (2 ^ 53).

Definition random_random : M Q :=
  fun s =>
    (Ret (unit_interval (random_bits o (draws s))),
     State (all_books s) (fs s) (requests s) (S (draws s)) (sleeps s)
           (ticks s)).

(** [random.uniform(a, b)] is [a + (b - a) * random.random()]. *)
Definition random_uniform (a b : Q) : M Q :=
  let! u := random_random in ret (a + (b - a) * u)%Q.

(** [time.sleep(t)] first converts [t] to a whole number of nanoseconds
    that must fit in 64 bits, an [OverflowError] otherwise; then a negative
    [t] is a [ValueError]; otherwise it blocks, so the interrupt may arrive
    in it. *)
Definition time_sleep (t : Q) : M unit :=
  fun s =>
    if Qle_bool sleep_limit t || Qle_bool t (- sleep_limit)
    then (Raise OverflowError, s)
    else if negb (Qle_bool 0 t) then (Raise ValueError, s)
    else if sigint o (ticks s) then (Raise KeyboardInterrupt, tick s)
    else (Ret tt,
          State (all_books s) (fs s) (requests s) (draws s)
                (sleeps s ++ [t]) (S (ticks s))).

(** *** The fetcher, lines 42-63 *)

(** The [for attempt in range(1, max_retries + 1)] loop with [n] attempts
    left. An exception of the requests library and a status other than 200
    both fall through to the sleep; [KeyboardInterrupt] is no [Exception]
    and leaves the function. The sleep stands outside the [try]. *)
Fixpoint retry_loop (url : string) (n : nat) (delay : Q)
  : M (option (node * string)) :=
  match n with
  | O => ret None
  | S n' =>
      let! resp := requests_get url in
      let backoff :=
        let! j := random_random in
        time_sleep (delay * (1 + j))%Q >>
        retry_loop url n' (delay * 2)%Q in
      match resp with
      | Response status_code body final_url =>
          if status_code =? 200 then ret (Some (body, final_url))
          else backoff
      | NetError => backoff
      end
  end.

Definition get_soup_and_url (url : string) (max_retries : Z)
    (backoff_factor : Q) : M (option (node * string)) :=
  retry_loop url (Z.to_nat max_retries) backoff_factor.

Definition default_max_retries : Z := 4.
Definition default_backoff_factor : Q := 1.

(** *** [parse_product_page], lines 94-127 *)

Definition parse_product_page (product_url : string) : M record :=
  let! r := get_soup_and_url product_url default_max_retries
              default_backoff_factor in
  match r with
  | None => ret ∅
  | Some (soup, final_url) =>
      try_except (lift (parse_product_body soup final_url))
                 (fun _ => ret ∅)
  end.

(** *** The checkpoint store, lines 130-146 *)

(** The points of [safe_write_json_partial] at which it can be cut short:
    before anything is done; while [json.dump] is writing to the temporary
    file opened by [open(tmp, "w")], [n] characters in; when the [with]
    block has closed the temporary file; after [tmp.replace(RAW_JSON)]. *)
Inductive save_point : Type :=
| BeforeOpen
| TmpWriting (n : nat)
| TmpWritten
| Replaced.

Definition fs_at (p : save_point) (books : list record)
    (f : gmap string string) : gmap string string :=
  match p with
  | BeforeOpen => f
  | TmpWriting n => <[RAW_TMP := String.substring 0 n (json_dump books)]> f
  | TmpWritten => <[RAW_TMP := json_dump books]> f
  | Replaced => <[RAW_JSON := json_dump books]> (delete RAW_TMP f)
  end.

(** Lines 130-135, run to the end. *)
Definition safe_write_json_partial (books : list record) : M unit :=
  fun s => (Ret tt, set_fs (fs_at Replaced books (fs s)) s).

Definition str_le (a b : string) : Prop := String.leb a b = true.
#[export] Instance str_le_dec : RelDecision str_le :=
  fun a b => decide (String.leb a b = true).

(** [sorted({k for d in all_books for k in d.keys()})]. *)
Definition all_keys (books : list record) : gset string :=
  ⋃ (dom <$> books).
Definition csv_fieldnames (books : list record) : list string :=
  merge_sort str_le (elements (all_keys books)).

(** One cell of [DictWriter.writerow]: [rowdict.get(key, restval)] with the
    default [restval] of the empty string; the writer prints [None] as the
    empty string too. *)
Definition csv_cell (row : record) (key : string) : string :=
  match row !! key with
  | Some (Some v) => v
  | Some None => EmptyString
  | None => EmptyString
  end.

(** [DictWriter.writerow] with the default [extrasaction="raise"]: a key of
    the row that is no field name is a [ValueError]. *)
Definition csv_row (fieldnames : list string) (row : record)
  : pyres (list string) :=
  if bool_decide (dom row ⊆ list_to_set fieldnames)
  then Ret (csv_cell row <$> fieldnames)
  else Raise ValueError.

(** The rows written before the first one that raises, and that exception. *)
Fixpoint csv_rows (fieldnames : list string) (books : list record)
  : list (list string) * option exn :=
  match books with
  | [] => ([], None)
  | row :: rest =>
      match csv_row fieldnames row with
      | Ret cells =>
          let (rows, e) := csv_rows fieldnames rest in (cells :: rows, e)
      | Raise e => ([], Some e)
      end
  end.

Definition safe_write_csv (books : list record) : M unit :=
  fun s =>
    match books with
    | [] => (Ret tt, s)                           (* [if not all_books: return] *)
    | _ =>
        let keys := csv_fieldnames books in
        let (rows, e) := csv_rows keys books in
        let s' := set_fs (<[RAW_CSV := csv_text keys rows]> (fs s)) s in
        match e with
        | None => (Ret tt, s')
        | Some e => (Raise e, s')
        end
    end.

End Effects.

(** *** The crawl controller, lines 149-199 *)

Section Controller.
Context `{!Libraries}.
Variable o : oracle.

(** Lines 154-160: resume from the checkpoint when there is one and it can
    be read, start from the empty list otherwise. *)
Definition load_checkpoint : M unit :=
  fun s =>
    let books :=
      match fs s !! RAW_JSON with
      | Some txt =>
          match json_load txt with
          | Some loaded => loaded
          | None => []          (* [except Exception]: starting fresh *)
          end
      | None => []
      end in
    (Ret tt, set_all_books books s).

(** [item["product_page_url"]]. *)
Definition item_url (item : record) : pyres string :=
  match item !! "product_page_url" with
  | Some (Some u) => Ret u
  | _ => Raise KeyError
  end.

Definition append_book (item : record) : M unit :=
  fun s => (Ret tt, set_all_books (all_books s ++ [item]) s).

(** [a or b] on strings. *)
Definition or_default (a b : string) : string :=
  if truthy a then a else b.

(** Lines 188-189, after the [try] of every article. *)
Definition periodic_checkpoint : M unit :=
  fun s =>
    if Z.of_nat (length (all_books s)) mod 20 =? 0
    then safe_write_json_partial (all_books s) s
    else (Ret tt, s).

(** The body of [for art in articles], lines 176-189. *)
Definition process_article (page_base : string) (art : node) : M unit :=
  try_except
    (let! item := lift (parse_list_item art page_base) in
     let! url := lift (item_url item) in
     let! detail := parse_product_page o url in
     append_book (detail ∪ item) >>              (* [item.update(detail)] *)
     let! pause := random_uniform o 0.4 1.2 in
     time_sleep o pause)
    (fun _ => ret tt) >>
  periodic_checkpoint.

Fixpoint for_articles (page_base : string) (articles : list node) : M unit :=
  match articles with
  | [] => ret tt
  | art :: rest =>
      process_article page_base art >> for_articles page_base rest
  end.

Definition page_url (page : Z) : pyres string :=
  or_raise ValueError
    (urljoin BASE ("catalogue/page-" ++ pretty page ++ ".html")).

(** The [while page <= max_pages] loop, lines 162-193; [fuel] bounds the
    number of iterations, and [Z.to_nat max_pages] is as many as the loop
    can make from page 1. *)
Fixpoint crawl_loop (fuel : nat) (page max_pages : Z) : M unit :=
  match fuel with
  | O => ret tt
  | S fuel' =>
      if page <=? max_pages then
        let! url := lift (page_url page) in
        let! r := get_soup_and_url o url default_max_retries
                    default_backoff_factor in
        match r with
        | None => ret tt                           (* [break] *)
        | Some (soup, page_final_url) =>
            match select_product_pods soup with
            | [] => ret tt                         (* [break] *)
            | articles =>
                for_articles (or_default page_final_url BASE) articles >>
                (let! pause := random_uniform o 0.8 2.5 in
                 time_sleep o pause) >>
                crawl_loop fuel' (page + 1) max_pages
            end
        end
      else ret tt
  end.

(** Lines 195-197. *)
Definition finalize : M unit :=
  (fun s => safe_write_json_partial (all_books s) s) >>
  (fun s => safe_write_csv (all_books s) s).

Definition scrape_all (max_pages : Z) : M unit :=
  load_checkpoint >>
  crawl_loop (Z.to_nat max_pages) 1 max_pages >>
  finalize.

(** *** The script, lines 202-211 *)

(** What a name of the module namespace is bound to. *)
Inductive pyobj : Type :=
| Books (b : list record)
| Other.

(** The module namespace when the handler runs: the imports, the
    configuration and the functions. At module level [locals()] is this
    namespace; the [all_books] of [scrape_all] is a local of that function
    and is not in it. *)
Definition module_namespace : gmap string pyobj :=
  list_to_map ((fun nm => (nm, Other)) <$>
    [ "requests"; "BeautifulSoup"; "time"; "random"; "json"; "csv";
      "logging"; "traceback"; "urljoin"; "Path"; "tqdm";
      "BASE"; "DATA_DIR"; "RAW_JSON"; "RAW_CSV"; "HEADERS";
      "get_soup_and_url"; "parse_list_item"; "parse_product_page";
      "safe_write_json_partial"; "safe_write_csv"; "scrape_all" ]).

(** The [except KeyboardInterrupt] block. *)
Definition on_keyboard_interrupt : M unit :=
  match module_namespace !! "all_books" with
  | Some (Books b) => safe_write_json_partial b >> safe_write_csv b
  | Some Other => raise TypeError    (* [json.dump] of something else *)
  | None => ret tt                   (* ['all_books' in locals()] is false *)
  end >>
  raise KeyboardInterrupt.

Definition default_max_pages : Z := 1000.

Definition main : M unit :=
  fun s =>
    match scrape_all default_max_pages s with
    | (Raise KeyboardInterrupt, s') => on_keyboard_interrupt s'
    | r => r
    end.

End Controller.

(** *** Vocabulary of the properties *)

(** The six fields of a listing record. *)
Definition listing_fields : gset string :=
  {[ "title"; "product_page_url"; "price_text"; "availability_text";
     "rating_text"; "image_url" ]}.

(** The optional elements of a listing entry, as [parse_list_item] looks
    them up. *)
Definition price_tag_of (article : node) : option node :=
  find (fun n => has_name "p" n && matches_class_ "price_color" n) article.
Definition availability_tag_of (article : node) : option node :=
  find (fun n => has_name "p" n && matches_class_ "instock availability" n)
       article.
Definition rating_tag_of (article : node) : option node :=
  find (fun n => has_name "p" n && matches_class_ "star-rating" n) article.
Definition anchor_of (article : node) : option node :=
  find (has_name "h3") article ≫= find (has_name "a").
Definition img_src_of (article : node) : string :=
  match find (has_name "img") article with
  | Some t => get_attr t "src" EmptyString
  | None => EmptyString
  end.

(** A computation that touches neither the accumulator nor the files,
    however it ends. *)
Definition frame {A} (m : M A) : Prop :=
  forall s r s', m s = (r, s') ->
    all_books s' = all_books s /\ fs s' = fs s.

(** Every row of the attribute table, when there is a table, has a header
    cell and a data cell. *)
Definition rows_complete (soup : node) : Prop :=
  forall table, find_info_table soup = Some table ->
    Forall (fun row => is_Some (find (has_name "th") row)
                       /\ is_Some (find (has_name "td") row))
           (find_all (has_name "tr") table).

Section Vocabulary.
Context `{!Libraries}.
Variable o : oracle.

(** A response the fetcher accepts: status 200. *)
Definition is_ok (r : response) : bool :=
  match r with
  | Response status_code _ _ => status_code =? 200
  | NetError => false
  end.

(** The times slept by [n] failed attempts in a row, when the first of them
    starts from [delay] and draws the [k]-th random number of the run. *)
Fixpoint backoff_delays (k : nat) (delay : Q) (n : nat) : list Q :=
  match n with
  | O => []
  | S n' =>
      (delay * (1 + unit_interval (random_bits o k)))%Q
      :: backoff_delays (S k) (delay * 2)%Q n'
  end.

(** No interrupt arrives during the run. *)
Definition uninterrupted : Prop := forall k, sigint o k = false.

(** The detail stage has failed: the page could not be fetched within its
    retry budget, or it was fetched and reading it raised. *)
Definition detail_failed (url : string) (s : state) : Prop :=
  match get_soup_and_url o url default_max_retries default_backoff_factor s
  with
  | (Ret None, _) => True
  | (Ret (Some (soup, final_url)), _) =>
      raises (parse_product_body soup final_url) = true
  | (Raise _, _) => False
  end.

End Vocabulary.

(** The exception is the interrupt, and the environment did send one. *)
Definition interrupted_by (o : oracle) (e : exn) : Prop :=
  e = KeyboardInterrupt /\ exists k, sigint o k = true.

(** An exception the article loop catches, or the interrupt. *)
Definition caught_or_interrupted_by (o : oracle) (e : exn) : Prop :=
  is_Exception e = true \/ interrupted_by o e.

(** A record that binds every listing field to a string. *)
Definition well_listed (r : record) : Prop :=
  forall k, k ∈ listing_fields -> exists v, r !! k = Some (Some v).

(** What a crawl may do to the accumulator and the files: append records
    that carry the listing fields; leave the checkpoint as it is or replace
    it by the serialization of a list between the old accumulator and the
    new; touch no file but the checkpoint, its temporary sibling and the
    export. *)
Definition extends `{!Libraries} (s s' : state) : Prop :=
  (exists new, all_books s' = (all_books s ++ new)%list
               /\ Forall well_listed new)
  /\ (fs s' !! RAW_JSON = fs s !! RAW_JSON
      \/ exists b, all_books s `prefix_of` b /\ b `prefix_of` all_books s'
                   /\ fs s' !! RAW_JSON = Some (json_dump b))
  /\ (forall p, p <> RAW_JSON -> p <> RAW_TMP -> p <> RAW_CSV ->
                fs s' !! p = fs s !! p).

(** Every run of [m] relates the state it ends in to the one it started
    from by [R], raises only what [E] allows and returns only what [Q]
    allows. *)
Definition sat {A} (R : relation state) (E : exn -> Prop) (Q : A -> Prop)
    (m : M A) : Prop :=
  forall s r s', m s = (r, s') ->
    R s s'
    /\ (forall e, r = Raise e -> E e)
    /\ (forall a, r = Ret a -> Q a).

Definition any {A} (a : A) : Prop := True.

(** Every value of a detail record but the category is a string. *)
Definition detail_values (d : record) : Prop :=
  forall k v, d !! k = Some v -> k <> "category" -> is_Some v.

(** The entry has a heading with an anchor in it, which is what
    [parse_list_item] cannot do without. *)
Definition has_anchor (article : node) : bool :=
  match find (has_name "h3") article with
  | Some h3 => bool_decide (is_Some (find (has_name "a") h3))
  | None => false
  end.

(** The run left every file as it was. *)
Definition same_files (s s' : state) : Prop := fs s' = fs s.

(** The accumulator a run starts from: what the checkpoint on disk holds. *)
Definition loaded `{!Libraries} (s : state) : list record :=
  all_books (load_checkpoint s).2.

(** An entry [parse_list_item] returns a record for. *)
Definition readable `{!Libraries} (base : string) (art : node) : bool :=
  negb (raises (parse_list_item art base)).



(** What can end a crawl: the interrupt, or [urljoin] refusing the name of
    a listing page. *)
Definition interrupted_or_unjoined `{!Libraries} (o : oracle) (e : exn)
  : Prop :=
  interrupted_by o e \/ exists page, page_url page = Raise e.

(** The checkpoint the run starts from is absent, or it is one that a save
    wrote and [json.load] reads back: on any other file the accumulator of
    the code is whatever [json.load] returned, which [load_checkpoint] does
    not follow. *)
Definition own_checkpoint `{!Libraries} (s : state) : Prop :=
  fs s !! RAW_JSON = None
  \/ exists b, fs s !! RAW_JSON = Some (json_dump b)
               /\ json_load (json_dump b) = Some b.

(** The header text of a row, when the row has a header cell. *)
Definition row_header (row : node) : option string :=
  (fun th => strip (text th)) <$> find (has_name "th") row.

End Scrape.


(** ** The cleaning stage as a whole: [clean_data]

    The part of pandas that [clean_data] uses, on the data [main] gives it:
    the list of dicts read from the raw JSON file, each a dict from field
    names to [str] or [None]. The columns of raw text are object columns,
    in which pandas keeps a [None] of the data as [None] and puts [NaN]
    where a dict lacks the key. *)

Module CleanData.
Import Text Clean.

(** A cell of the frame as it is read from the raw data: a string, [None],
    or [NaN], which is what [pd.DataFrame] puts where a dict lacks the
    key. *)
Inductive cell : Type :=
| Str (s : string)
| PyNone
| NaN.

#[export] Instance cell_eq_dec : EqDecision cell.
Proof. solve_decision. Defined.

(** What the applied functions return: a float, an int, or [None] (stored
    by pandas as a missing value of the column). *)
Inductive num : Type :=
| NumFloat (f : pyfloat)
| NumInt (z : Z)
| NumNone.

(** A row: the cells that hold raw text, and the columns computed by
    [apply]. No step of [clean_data] reads a computed column, and an
    assignment to a column replaces whatever column had that name. *)
Record row : Type := Row {
  cells : gmap string cell;
  computed : gmap string num
}.

Record dataframe : Type := Frame {
  columns : gset string;
  rows : list row
}.

Definition cell_of_json (v : option string) : cell :=
  match v with
  | Some s => Str s
  | None => PyNone
  end.

(** [pd.DataFrame(data)]: the columns are the keys of all dicts. *)
Definition DataFrame (data : list (gmap string (option string))) : dataframe :=
  Frame (⋃ (dom <$> data)) ((fun r => Row (cell_of_json <$> r) ∅) <$> data).

Definition has_column (df : dataframe) (col : string) : bool :=
  bool_decide (col ∈ columns df).

(** The cell of a row in a column of raw text. *)
Definition cell_at (r : row) (col : string) : cell :=
  default NaN (cells r !! col).

(** [pd.isna]. *)
Definition isna (c : cell) : bool :=
  match c with
  | Str _ => false
  | PyNone | NaN => true
  end.

(** [series.apply(f)]: [f] on every cell in turn; the first exception ends
    it. *)
Fixpoint series_apply (f : cell -> pyres num) (col : string) (rs : list row)
  : pyres (list num) :=
  match rs with
  | [] => Ret []
  | r :: rest =>
      pyres_bind (f (cell_at r col))
        (fun v => pyres_bind (series_apply f col rest)
                    (fun vs => Ret (v :: vs)))
  end.

Definition set_computed (dst : string) (r : row) (v : num) : row :=
  Row (delete dst (cells r)) (<[dst := v]> (computed r)).

(** [df[dst] = df[src].apply(f)]: a [KeyError] when there is no column
    [src]. *)
Definition assign_apply (src dst : string) (f : cell -> pyres num)
    (df : dataframe) : pyres dataframe :=
  if has_column df src then
    pyres_bind (series_apply f src (rows df))
      (fun vs => Ret (Frame ({[ dst ]} ∪ columns df)
                            (zip_with (set_computed dst) (rows df) vs)))
  else Raise KeyError.

Definition num_of_float (r : option pyfloat) : num :=
  match r with
  | Some f => NumFloat f
  | None => NumNone
  end.

Definition num_of_int (r : option Z) : num :=
  match r with
  | Some z => NumInt z
  | None => NumNone
  end.

(** [parse_price] on a cell: [not None] holds, so [None] gives [None];
    [not nan] does not, and [re.search] on a float is a [TypeError]. *)
Definition price_of_cell (c : cell) : pyres num :=
  match c with
  | Str s => pyres_bind (parse_price s) (fun r => Ret (num_of_float r))
  | PyNone => Ret NumNone
  | NaN => Raise TypeError
  end.

(** [parse_availability] on a cell, likewise. *)
Definition availability_of_cell (c : cell) : pyres num :=
  match c with
  | Str s => pyres_bind (parse_availability s) (fun r => Ret (num_of_int r))
  | PyNone => Ret NumNone
  | NaN => Raise TypeError
  end.

(** [rating_word_to_int] on a cell: [None] and [nan] are no keys of
    [RATING_MAP]. *)
Definition rating_of_cell (c : cell) : pyres num :=
  match c with
  | Str s => Ret (num_of_int (rating_word_to_int s))
  | PyNone | NaN => Ret NumNone
  end.

(** [astype(str)]. *)
Definition astype_str (c : cell) : string :=
  match c with
  | Str s => s
  | PyNone => "None"
  | NaN => "nan"
  end.

Section WithStringMethods.
(** [str.strip] and [str.lower] as pandas applies them to every title. *)
Variable str_strip str_lower : string -> string.

(** [df['title'] = df['title'].astype(str).str.strip().str.lower()]. *)
Definition normalize_title (df : dataframe) : pyres dataframe :=
  if has_column df "title" then
    Ret (Frame (columns df)
           ((fun r =>
               Row (<["title" :=
                       Str (str_lower (str_strip
                              (astype_str (cell_at r "title"))))]> (cells r))
                   (computed r)) <$> rows df))
  else Raise KeyError.

(** [df.dropna(subset=[col])]. *)
Definition dropna (col : string) (df : dataframe) : pyres dataframe :=
  if has_column df col then
    Ret (Frame (columns df)
           (filter (fun r => isna (cell_at r col) = false) (rows df)))
  else Raise KeyError.

(** The rows whose cell in [col] was not seen before, in order. *)
Fixpoint keep_first (col : string) (seen : list cell) (rs : list row)
  : list row :=
  match rs with
  | [] => []
  | r :: rest =>
      if bool_decide (cell_at r col ∈ seen) then keep_first col seen rest
      else r :: keep_first col (cell_at r col :: seen) rest
  end.

(** [df.drop_duplicates(subset=[col])], which keeps the first of the rows
    that agree on [col]. *)
Definition drop_duplicates (col : string) (df : dataframe) : pyres dataframe :=
  if has_column df col then
    Ret (Frame (columns df) (keep_first col [] (rows df)))
  else Raise KeyError.

(** Line 76. *)
Definition cols : list string :=
  [ "title"; "product_page_url"; "category"; "price"; "availability";
    "rating"; "description"; "image_url" ].

(** A row restricted to the columns [existing]. *)
Definition select_row (existing : list string) (r : row) : row :=
  Row (filter (fun kv => kv.1 ∈ existing) (cells r))
      (filter (fun kv => kv.1 ∈ existing) (computed r)).

(** [df[existing_cols].reset_index(drop=True)]. *)
Definition select_existing (df : dataframe) : dataframe :=
  let existing_cols :=
    filter (fun col => col ∈ columns df) cols in
  Frame (list_to_set existing_cols)
        (select_row existing_cols <$> rows df).

(** [clean_data], lines 53-79. *)
Definition clean_data (df : dataframe) : pyres dataframe :=
  pyres_bind (assign_apply "price_text" "price" price_of_cell df)
    (fun df =>
  pyres_bind (assign_apply "availability_text" "availability"
                availability_of_cell df)
    (fun df =>
  pyres_bind (assign_apply "rating_text" "rating" rating_of_cell df)
    (fun df =>
  pyres_bind (normalize_title df)
    (fun df =>
  pyres_bind (dropna "product_page_url" df)
    (fun df =>
  pyres_bind (drop_duplicates "product_page_url" df)
    (fun df => Ret (select_existing df))))))).

(** Lines 84-89 of [main]: the frame of the raw data, cleaned. *)
Definition clean_raw (data : list (gmap string (option string)))
  : pyres dataframe :=
  clean_data (DataFrame data).

End WithStringMethods.

(** *** Vocabulary of the properties *)

(** The product page URL of a row and of a raw record, as cells. *)
Definition url_of (r : row) : cell := cell_at r "product_page_url".
Definition raw_cell (r : gmap string (option string)) (col : string) : cell :=
  match r !! col with
  | Some v => cell_of_json v
  | None => NaN
  end.

(** The columns [clean_data] reads. *)
Definition required_columns : list string :=
  [ "price_text"; "availability_text"; "rating_text"; "title";
    "product_page_url" ].

(** The row [clean_data] makes of a raw record: the URL cell is the
    record's, the three computed columns hold what the applied functions
    return on the record's texts, and the title is the normalized one. *)
Definition built_from (str_strip str_lower : string -> string)
    (r : gmap string (option string)) (out : row) : Prop :=
  url_of out = raw_cell r "product_page_url"
  /\ (exists v, price_of_cell (raw_cell r "price_text") = Ret v
                /\ computed out !! "price" = Some v)
  /\ (exists v, availability_of_cell (raw_cell r "availability_text") = Ret v
                /\ computed out !! "availability" = Some v)
  /\ (exists v, rating_of_cell (raw_cell r "rating_text") = Ret v
                /\ computed out !! "rating" = Some v)
  /\ cells out !! "title"
     = Some (Str (str_lower (str_strip (astype_str (raw_cell r "title"))))).

(** The raw cells a row still carries: all but the three computed
    columns. *)
Definition tracks (d : gmap string (option string)) (r : row) : Prop :=
  forall col, col ∉ [ "price"; "availability"; "rating" ] ->
              cell_at r col = raw_cell d col.

(** A raw record the applied functions do not fail on: its availability
    text and its price text are [None] or strings that
    [parse_availability] and [parse_price] can read. *)
Definition cleanable (d : gmap string (option string)) : Prop :=
  match d !! "availability_text" with
  | Some (Some s) => raises (parse_availability s) = false
  | Some None => True
  | None => False
  end
  /\ match d !! "price_text" with
     | Some (Some s) => raises (parse_price s) = false
     | Some None => True
     | None => False
     end.

(** A raw record whose price text, availability text and title are
    strings. What pandas makes of a [None] or of a missing key in these
    columns depends on its version (an object column keeps the [None], a
    string column of pandas 3 turns it into a missing value); of a string
    it makes the same in all of them. *)
Definition texts_given (d : gmap string (option string)) : Prop :=
  exists p a t,
    d !! "price_text" = Some (Some p)
    /\ d !! "availability_text" = Some (Some a)
    /\ d !! "title" = Some (Some t).

(** A raw record whose price and availability texts have all their
    characters below U+0640, and whose availability text is no longer than
    the runs of digits that [int()] accepts in every version of Python. *)
Definition modest (d : gmap string (option string)) : Prop :=
  (forall p, d !! "price_text" = Some (Some p) -> narrow p = true)
  /\ (forall a, d !! "availability_text" = Some (Some a) ->
        narrow a = true /\ (String.length a <= max_str_digits)%nat).

End CleanData.


(** ** Concrete pages, libraries and environments

    Small inputs on which the model can be run: a listing page and a detail
    page shaped like the ones of the site, simple stand-ins for the library
    functions, and environments that answer the requests of a run. *)

Module Samples.
Import Text Dom Scrape.

(** A stand-in for [urljoin]: a reference that opens an address in
    brackets it never closes is refused; the empty reference stands for
    the base; one that carries a scheme stands for itself; any other is put
    after the last [/] of the base. *)
Definition join_rev_dir (base : string) : string :=
  String.rev (drop_while (fun c => negb (Ascii.eqb c "/"%char))
                         (String.rev base)).
Definition sample_urljoin (base rel : string) : option string :=
  if String.prefix "//[" rel then None
  else if negb (truthy rel) then Some base
  else if String.prefix "http://" rel then Some rel
  else Some (join_rev_dir base ++ rel).

(** A stand-in for [json.dump] and [json.load]: the records are numbered by
    their [Countable] code, written in binary, least significant bit first. *)
Fixpoint bits_of_pos (p : positive) : string :=
  match p with
  | xH => EmptyString
  | xO p' => String "0"%char (bits_of_pos p')
  | xI p' => String "1"%char (bits_of_pos p')
  end.
Fixpoint pos_of_bits (s : string) : option positive :=
  match s with
  | EmptyString => Some xH
  | String c s' =>
      if Ascii.eqb c "0"%char then xO <$> pos_of_bits s'
      else if Ascii.eqb c "1"%char then xI <$> pos_of_bits s'
      else None
  end.
Definition sample_dump (books : list record) : string :=
  bits_of_pos (encode books).
Definition sample_load (txt : string) : option (list record) :=
  pos_of_bits txt ≫= decode.

(** A stand-in for the text of [csv.writer], without quoting. *)
Definition sample_csv_text (header : list string) (rows : list (list string))
  : string :=
  String.concat (String "010"%char EmptyString)
                (String.concat "," <$> (header :: rows)).

Definition sample_libraries : Libraries :=
  {| urljoin := sample_urljoin;
     json_dump := sample_dump;
     json_load := sample_load;
     csv_text := sample_csv_text |}.

Definition requested_url : string :=
  "http://books.toscrape.com/catalogue/page-1.html".
Definition redirected_url : string :=
  "http://books.toscrape.com/shop/page-1.html".

Definition attrs_of (l : list (string * string)) : gmap string string :=
  list_to_map l.

(** One entry of a listing page. *)
Definition sample_article : node :=
  Elem "article" ["product_pod"] ∅
    [ Elem "div" ["image_container"] ∅
        [ Elem "a" [] (attrs_of [("href", "a-light_1000/index.html")])
            [ Elem "img" ["thumbnail"]
                (attrs_of [("src", "../media/cache/2c/da/light.jpg")]) [] ] ];
      Elem "p" ["star-rating"; "Three"] ∅ [];
      Elem "h3" [] ∅
        [ Elem "a" [] (attrs_of [("href", "a-light_1000/index.html");
                                 ("title", " A Light in the Attic ")])
            [ TextNode "A Light in the ..." ] ];
      Elem "div" ["product_price"] ∅
        [ Elem "p" ["price_color"] ∅ [ TextNode "£51.77" ];
          Elem "p" ["instock"; "availability"] ∅
            [ TextNode "  In stock  " ] ] ].

(** The same entry without its heading. *)
Definition headless_article : node :=
  Elem "article" ["product_pod"] ∅
    [ Elem "p" ["star-rating"; "Three"] ∅ [];
      Elem "div" ["product_price"] ∅
        [ Elem "p" ["price_color"] ∅ [ TextNode "£51.77" ] ] ].

(** An entry with nothing but its heading and anchor. *)
Definition bare_article : node :=
  Elem "article" ["product_pod"] ∅
    [ Elem "h3" [] ∅
        [ Elem "a" [] (attrs_of [("href", "a-light_1000/index.html")]) [] ] ].

Definition sample_listing : node :=
  Elem "[document]" [] ∅
    [ Elem "html" [] ∅ [ Elem "body" [] ∅ [ sample_article ] ] ].

Definition empty_listing : node :=
  Elem "[document]" [] ∅ [ Elem "html" [] ∅ [ Elem "body" [] ∅ [] ] ].

Definition crumb (label : string) : node :=
  Elem "li" [] ∅ [ Elem "a" [] (attrs_of [("href", "../index.html")])
                     [ TextNode label ] ].

Definition table_row (th td : string) : node :=
  Elem "tr" [] ∅ [ Elem "th" [] ∅ [ TextNode th ];
                   Elem "td" [] ∅ [ TextNode td ] ].

Definition sample_detail : node :=
  Elem "[document]" [] ∅
    [ Elem "ul" ["breadcrumb"] ∅
        [ crumb "Home"; crumb "Books"; crumb " Poetry ";
          Elem "li" ["active"] ∅ [ TextNode "A Light in the Attic" ] ];
      Elem "div" ["sub-header"] (attrs_of [("id", "product_description")])
        [ Elem "h2" [] ∅ [ TextNode "Product Description" ] ];
      Elem "p" [] ∅ [ TextNode " Poems and drawings. " ];
      Elem "table" ["table"; "table-striped"] ∅
        [ table_row "UPC" "a897fe39b1053632";
          table_row "Product Type" "Books" ] ].

(** A detail page with nothing the parser looks for. *)
Definition blank_detail : node :=
  Elem "[document]" [] ∅ [ Elem "h1" [] ∅ [ TextNode "A Light" ] ].

(** A detail page whose attribute table has a row without a data cell. *)
Definition broken_detail : node :=
  Elem "[document]" [] ∅
    [ Elem "ul" ["breadcrumb"] ∅
        [ crumb "Home"; crumb "Books"; crumb "Poetry" ];
      Elem "table" ["table"; "table-striped"] ∅
        [ table_row "UPC" "a897fe39b1053632";
          Elem "tr" [] ∅ [ Elem "th" [] ∅ [ TextNode "Price" ] ] ] ].

(** The listing record of [sample_article], given its two joined URLs. *)
Definition listed_item (product_link img_url : string) : record :=
  <["title" := Some "A Light in the Attic"]>
  (<["product_page_url" := Some product_link]>
  (<["price_text" := Some "£51.77"]>
  (<["availability_text" := Some "In stock"]>
  (<["rating_text" := Some "Three"]>
  (<["image_url" := Some img_url]> ∅))))).

Definition detail_url : string :=
  "http://books.toscrape.com/catalogue/a-light_1000/index.html".

Definition initial_state : state := State [] ∅ [] 0 [] 0.

(** Every request fails; no interrupt. *)
Definition dead_net : oracle :=
  Oracle (fun _ _ => NetError) (fun k => N.of_nat k) (fun _ => false).

(** Every request is answered 503; no interrupt. *)
Definition unavailable_net : oracle :=
  Oracle (fun _ _ => Response 503 blank_detail "http://books.toscrape.com/")
         (fun k => N.of_nat k) (fun _ => false).

(** The first request (the listing page) is redirected and answered; every
    later one fails. *)
Definition listing_only_net : oracle :=
  Oracle (fun k _ =>
            match k with
            | O => Response 200 sample_listing
                     "http://books.toscrape.com/catalogue/page-1.html"
            | _ => NetError
            end)
         (fun k => N.of_nat k) (fun _ => false).

(** The listing page and the detail page are answered, the detail page with
    a table that cannot be read. *)
Definition broken_detail_net : oracle :=
  Oracle (fun k _ =>
            match k with
            | O => Response 200 sample_listing
                     "http://books.toscrape.com/catalogue/page-1.html"
            | 1%nat => Response 200 broken_detail
                     "http://books.toscrape.com/catalogue/a-light_1000/index.html"
            | _ => NetError
            end)
         (fun k => N.of_nat k) (fun _ => false).

(** Every request is answered with the detail page whose table cannot be
    read. *)
Definition broken_only_net : oracle :=
  Oracle (fun _ _ => Response 200 broken_detail
                       "http://books.toscrape.com/catalogue/a-light_1000/index.html")
         (fun k => N.of_nat k) (fun _ => false).

(** The listing page and the detail page are answered; the interrupt arrives
    in the third blocking call, the pause after the first item. *)
Definition interrupted_net : oracle :=
  Oracle (fun k _ =>
            match k with
            | O => Response 200 sample_listing
                     "http://books.toscrape.com/catalogue/page-1.html"
            | _ => Response 200 sample_detail
                     "http://books.toscrape.com/catalogue/a-light_1000/index.html"
            end)
         (fun k => N.of_nat k)
         (fun k => (2 <=? k)%nat).

(** Two requests fail; the third is redirected to another directory and
    answered from there. *)
Definition flaky_net : oracle :=
  Oracle (fun k _ =>
            match k with
            | 2%nat => Response 200 sample_listing redirected_url
            | _ => NetError
            end)
         (fun k => N.of_nat (k * 1000)) (fun _ => false).

(** An empty accumulator beside an export left by an earlier run. *)
Definition stale_state : state :=
  State [] {[ RAW_CSV := "title,UPC" ]} [] 0 [] 0.

(** Two records with different keys, one of them bound to [None]. *)
Definition two_books : list record :=
  [ <["title" := Some "A Light in the Attic"]>
      (<["category" := None]> ∅);
    <["title" := Some "Soumission"]> (<["UPC" := Some "6957f44c3847a760"]> ∅) ].
Definition two_books_state : state := State two_books ∅ [] 0 [] 0.

(** A fresh process started on the files a save of [two_books] left. *)
Definition restarted_state : state :=
  State [] (@fs_at sample_libraries Replaced two_books ∅) [] 0 [] 0.

(** Every request is answered with a listing page that has no entry. *)
Definition empty_page_net : oracle :=
  Oracle (fun _ _ => Response 200 empty_listing
                       "http://books.toscrape.com/catalogue/page-1.html")
         (fun k => N.of_nat k) (fun _ => false).

(** The detail record read from [sample_detail]. *)
Definition detailed_item : record :=
  match parse_product_body sample_detail detail_url with
  | Ret d => d
  | Raise _ => ∅
  end.

(** The rows of an attribute table that gives the UPC twice. *)
Definition upc_again : node := table_row " UPC " "second".
Definition repeated_rows : list node :=
  [ table_row "UPC" "first"; upc_again; table_row "Tax" "0.00" ].
Definition repeated_info : record :=
  match table_rows_info repeated_rows ∅ with
  | Ret info => info
  | Raise _ => ∅
  end.

(** Raw records as the cleaning stage may find them: a record, a later one
    with the same URL, one whose URL is [None], and one without a price. *)
Definition second_url : string :=
  "http://books.toscrape.com/catalogue/soumission_998/index.html".
Definition raw_sample : list record :=
  [ listed_item detail_url "light.jpg";
    <["title" := Some " Second Copy "]>
      (<["price_text" := Some "£9.99"]> (listed_item detail_url "copy.jpg"));
    <["product_page_url" := None]> (listed_item detail_url "none.jpg");
    <["price_text" := None]> (listed_item second_url "soumission.jpg") ].

(** [raw_sample], cleaned; the titles are stripped and left in their
    case. *)
Definition cleaned_sample : CleanData.dataframe :=
  match CleanData.clean_raw strip (fun s => s) raw_sample with
  | Ret df => df
  | Raise _ => CleanData.Frame ∅ []
  end.
Definition first_cleaned_row : CleanData.row :=
  default (CleanData.Row ∅ ∅) (head (CleanData.rows cleaned_sample)).

(** Records that all have their texts: a record, a later one with the same
    URL, and one of another page. *)
Definition second_copy : record :=
  <["title" := Some " Second Copy "]>
    (<["price_text" := Some "£9.99"]> (listed_item detail_url "copy.jpg")).
Definition copies_sample : list record :=
  [ listed_item detail_url "light.jpg";
    second_copy;
    listed_item second_url "soumission.jpg" ].
Definition cleaned_copies : CleanData.dataframe :=
  match CleanData.clean_raw strip (fun s => s) copies_sample with
  | Ret df => df
  | Raise _ => CleanData.Frame ∅ []
  end.
Definition first_copy_row : CleanData.row :=
  default (CleanData.Row ∅ ∅) (head (CleanData.rows cleaned_copies)).

(** What the scraper collects from two entries. *)
Definition listed_sample : list record :=
  [ listed_item detail_url "light.jpg";
    listed_item second_url "soumission.jpg" ].

End Samples.


(** * Properties *)

(** ** The cleaning stage *)

#[local] Arguments Ascii.eqb : simpl never.
#[local] Arguments String.eqb : simpl never.

Section CleanProperties.
Import Text Clean.

Lemma drop_while_none (p : ascii -> bool) (s : string) :
  forall_chars p s = true -> drop_while p s = EmptyString.
Proof.
  induction s as [|c s IH]; simpl; [done|].
  intros [Hc Hs]%andb_prop. rewrite Hc. auto.
Qed.

Lemma search_run_none (p : ascii -> bool) (s : string) :
  exists_char p s = false -> search_run p s = None.
Proof.
  unfold exists_char, search_run. intros Hs%negb_false_iff.
  by rewrite drop_while_none.
Qed.

(** Text that is not empty and holds no digit is read as availability 0. *)
Lemma parse_availability_no_digit (s : string) :
  truthy s = true -> exists_char is_digit s = false ->
  parse_availability s = Ret (Some 0).
Proof.
  intros Ht Hd. unfold parse_availability.
  rewrite Ht. simpl. by rewrite search_run_none.
Qed.

(** The only exception [parse_availability] lets out is the [ValueError]
    of [int], and with text that is not empty the result is never absent. *)
Lemma parse_availability_raises_only_ValueError (s : string) (e : exn) :
  parse_availability s = Raise e -> e = ValueError.
Proof.
  unfold parse_availability. destruct (negb (truthy s)); [done|].
  destruct (search_run is_digit s) as [m|]; [|done].
  unfold int_of_digits. destruct (_ <? _)%nat; simpl; congruence.
Qed.

Lemma parse_availability_some (s : string) (r : option Z) :
  truthy s = true -> parse_availability s = Ret r -> is_Some r.
Proof.
  intros Ht. unfold parse_availability. rewrite Ht. simpl.
  destruct (search_run is_digit s) as [m|]; [|intros [= <-]; eauto].
  destruct (int_of_digits m); simpl; [intros [= <-]; eauto|done].
Qed.

(** The only exception [parse_price] lets out is the [ValueError] of
    [float]. *)
Lemma parse_price_raises_only_ValueError (s : string) (e : exn) :
  parse_price s = Raise e -> e = ValueError.
Proof.
  unfold parse_price. destruct (negb (truthy s)); [done|].
  destruct (search_run price_char s) as [m|]; [|done].
  unfold float_of_token.
  destruct (drop_while is_digit (remove_commas m)) as [|c frac]; simpl.
  - destruct (truthy _); simpl; congruence.
  - destruct (_ && _); simpl; congruence.
Qed.

(** A token without a digit is refused by [float]. *)
Lemma float_of_token_no_digit (tok : string) :
  exists_char is_digit tok = false -> float_of_token tok = Raise ValueError.
Proof.
  unfold float_of_token. destruct tok as [|c tok]; [done|].
  unfold exists_char. simpl. intros Hd%negb_false_iff.
  apply andb_prop in Hd as [Hc Hs]. apply negb_true_iff in Hc.
  rewrite Hc. simpl.
  destruct (Ascii.eqb "." c); simpl; [|done].
  destruct tok as [|c' tok]; simpl; [done|].
  simpl in Hs. apply andb_prop in Hs as [Hc' _].
  apply negb_true_iff in Hc'. by rewrite Hc'.
Qed.

(** Whenever the first run of price characters holds no digit,
    [parse_price] raises. *)
Lemma parse_price_raises_without_digit (s m : string) :
  truthy s = true ->
  search_run price_char s = Some m ->
  exists_char is_digit (remove_commas m) = false ->
  parse_price s = Raise ValueError.
Proof.
  intros Ht Hm Hd. unfold parse_price. rewrite Ht, Hm. simpl.
  by rewrite float_of_token_no_digit.
Qed.

(** C5, amended. The field extraction of the cleaning stage: the price
    text "£51.77" is read as 51.77 and the empty price text as absent; the
    availability text "In stock (22 available)" is read as 22, the EMPTY
    availability text as absent (not as 0), and 0 is what every non-empty
    text without a decimal digit is read as; the rating words "Three",
    "Zero" and the empty word are read as 3, 0 and absent.

    The general part is about texts all of whose characters are below
    U+0640 ([narrow]), where the decimal digits are [0] to [9] and no
    other: the proof does not use that hypothesis, it confines the
    statement to the texts on which [is_digit] is the [\d] of [re]. *)
Theorem field_extraction :
  parse_price "£51.77" = Ret (Some (Float 5177 2))
  /\ float_value (Float 5177 2) == 51.77
  /\ parse_price EmptyString = Ret None
  /\ parse_availability "In stock (22 available)" = Ret (Some 22)
  /\ parse_availability EmptyString = Ret None
  /\ (forall s, narrow s = true -> truthy s = true ->
                exists_char is_digit s = false ->
                parse_availability s = Ret (Some 0))
  /\ rating_word_to_int "Three" = Some 3
  /\ rating_word_to_int "Zero" = Some 0
  /\ rating_word_to_int EmptyString = None.
Proof.
  split; [reflexivity|]. split; [reflexivity|].
  split; [reflexivity|]. split; [reflexivity|].
  split; [reflexivity|].
  split; [intros s _; exact (parse_availability_no_digit s)|].
  repeat split; vm_compute; reflexivity.
Qed.

(** C5, as stated, fails on the empty availability text: the guard of
    [parse_availability] answers [None] before any digit is looked for. *)
Lemma parse_availability_empty_is_absent :
  parse_availability EmptyString = Ret None
  /\ parse_availability EmptyString <> Ret (Some 0).
Proof. split; [reflexivity | discriminate]. Qed.

(** C10. [parse_price] is not total: on "abc." the first run of price
    characters is the lone dot, and [float(".")] raises. *)
Theorem parse_price_raises_on_lone_dot :
  parse_price "abc." = Raise ValueError
  /\ parse_price "," = Raise ValueError
  /\ parse_price "1.2.3" = Raise ValueError.
Proof. repeat split; reflexivity. Qed.

End CleanProperties.

(** An instance of the general part of [field_extraction]. *)
Lemma field_extraction_witness :
  Clean.parse_availability "Out of stock" = Ret (Some 0).
Proof.
  apply (proj1 (proj2 (proj2 (proj2 (proj2 (proj2 field_extraction)))))).
  - reflexivity.
  - reflexivity.
  - reflexivity.
Defined.


(** ** Extraction *)

#[local] Open Scope list_scope.

Import Text Dom Scrape.

Section ExtractionProperties.
Context `{!Libraries}.

Ltac listing_lookup :=
  repeat (rewrite lookup_insert_ne by discriminate);
  rewrite lookup_insert_eq; reflexivity.

(** What [parse_list_item] returns when it returns. *)
Lemma parse_list_item_inv (article : node) (base : string) (item : record) :
  parse_list_item article base = Ret item ->
  exists h3 a,
    find (has_name "h3") article = Some h3
    /\ find (has_name "a") h3 = Some a
    /\ dom item = listing_fields
    /\ item !! "title" = Some (Some (strip (get_attr a "title" EmptyString)))
    /\ (exists link,
          urljoin base (get_attr a "href" EmptyString) = Some link
          /\ item !! "product_page_url" = Some (Some link))
    /\ item !! "price_text"
       = Some (Some (from_option (fun t => strip (text t)) EmptyString
                                 (price_tag_of article)))
    /\ item !! "availability_text"
       = Some (Some (from_option (fun t => strip (text t)) EmptyString
                                 (availability_tag_of article)))
    /\ item !! "rating_text"
       = Some (Some (rating_word (from_option tag_classes []
                                              (rating_tag_of article))))
    /\ (exists img,
          urljoin base (img_src_of article) = Some img
          /\ item !! "image_url" = Some (Some img)).
Proof.
  unfold parse_list_item.
  destruct (find (has_name "h3") article) as [h3|] eqn:Hh; [|done].
  destruct (find (has_name "a") h3) as [a|] eqn:Ha; [|done].
  destruct (urljoin base (get_attr a "href" EmptyString)) as [link|] eqn:Hl;
    [|done].
  simpl.
  assert (match find (has_name "img") article with
          | Some t => get_attr t "src" EmptyString
          | None => EmptyString
          end = img_src_of article) as -> by done.
  destruct (urljoin base (img_src_of article)) as [img|] eqn:Hi; [|done].
  simpl. intros [= <-]. exists h3, a.
  split; [done|]. split; [done|].
  split.
  { rewrite !dom_insert_L, dom_empty_L. unfold listing_fields. set_solver. }
  unfold price_tag_of, availability_tag_of, rating_tag_of.
  split; [listing_lookup|].
  split; [exists link; split; [done|listing_lookup]|].
  split; [listing_lookup|]. split; [listing_lookup|].
  split; [listing_lookup|].
  exists img. split; [done|listing_lookup].
Qed.

(** It returns when the entry has its heading and anchor and [urljoin]
    accepts the two references. *)
Lemma parse_list_item_returns (article : node) (base : string) (h3 a : node) :
  find (has_name "h3") article = Some h3 ->
  find (has_name "a") h3 = Some a ->
  is_Some (urljoin base (get_attr a "href" EmptyString)) ->
  is_Some (urljoin base (img_src_of article)) ->
  exists item, parse_list_item article base = Ret item.
Proof.
  intros Hh Ha [link Hl] [img Hi]. unfold parse_list_item.
  rewrite Hh, Ha, Hl. simpl.
  assert (match find (has_name "img") article with
          | Some t => get_attr t "src" EmptyString
          | None => EmptyString
          end = img_src_of article) as -> by done.
  rewrite Hi. simpl. eauto.
Qed.

(** It raises the [AttributeError] of a missing heading or anchor, or the
    [ValueError] of [urljoin], and nothing else. *)
Lemma parse_list_item_raises_only (article : node) (base : string)
    (e : exn) :
  parse_list_item article base = Raise e ->
  e = AttributeError \/ e = ValueError.
Proof.
  unfold parse_list_item.
  destruct (find (has_name "h3") article) as [h3|]; [|left; congruence].
  destruct (find (has_name "a") h3) as [a|]; [|left; congruence].
  destruct (urljoin base _); simpl; [|right; congruence].
  destruct (urljoin base _); simpl; [done|right; congruence].
Qed.


(** The rows of the attribute table raise nothing but [AttributeError]. *)
Lemma table_rows_info_raises (rows : list node) (info : record) (e : exn) :
  table_rows_info rows info = Raise e -> e = AttributeError.
Proof.
  revert info. induction rows as [|row rows IH]; intros info; simpl; [done|].
  destruct (find (has_name "th") row); [|congruence].
  destruct (find (has_name "td") row); [apply IH|congruence].
Qed.

Lemma parse_product_body_raises (soup : node) (final_url : string) (e : exn) :
  parse_product_body soup final_url = Raise e -> e = AttributeError.
Proof.
  unfold parse_product_body, detail_info.
  destruct (find_info_table soup) as [table|]; simpl; [|done].
  destruct (table_rows_info _ _) eqn:Hrows; simpl; [done|].
  intros [= <-]. by eapply table_rows_info_raises.
Qed.

(** Rows that all have a header cell and a data cell are read without an
    exception. *)
Lemma table_rows_info_returns (rows : list node) (info : record) :
  Forall (fun row => is_Some (find (has_name "th") row)
                     /\ is_Some (find (has_name "td") row)) rows ->
  exists info', table_rows_info rows info = Ret info'.
Proof.
  intros Hrows. revert info.
  induction Hrows as [|row rows [[th Hth] [td Htd]] _ IH]; intros info; simpl.
  - eauto.
  - rewrite Hth, Htd. apply IH.
Qed.

(** The fields of a detail record are read one by one: each comes from its
    own element of the page and from nothing else. *)
Lemma detail_record_lookup (category : option string) (desc : string)
    (info : record) (final_url : string) :
  let d := detail_record category desc info final_url in
  d !! "fetched_url" = Some (Some final_url)
  /\ (info !! "category" = None -> d !! "category" = Some category)
  /\ (info !! "description" = None -> d !! "description" = Some (Some desc))
  /\ (forall k v, k <> "fetched_url" -> info !! k = Some v -> d !! k = Some v)
  /\ dom d = {[ "fetched_url"; "category"; "description" ]} ∪ dom info.
Proof.
  unfold detail_record. cbn zeta. split; [apply lookup_insert_eq|].
  split.
  { intros Hi. rewrite lookup_insert_ne by discriminate.
    rewrite lookup_union_r by done.
    rewrite lookup_insert_ne by discriminate. apply lookup_insert_eq. }
  split.
  { intros Hi. rewrite lookup_insert_ne by discriminate.
    rewrite lookup_union_r by done. apply lookup_insert_eq. }
  split.
  { intros k v Hk Hi. rewrite lookup_insert_ne by done.
    by apply lookup_union_Some_l. }
  rewrite dom_insert_L, dom_union_L, !dom_insert_L, dom_empty_L.
  apply set_eq. intros k. set_unfold. tauto.
Qed.

End ExtractionProperties.

(** ** The fetcher *)

Section FetcherProperties.
Context `{!Libraries}.
Variable o : oracle.

Lemma unit_interval_bounds (bits : N) :
  (0 <= unit_interval bits)%Q /\ (unit_interval bits < 1)%Q.
Proof.
  unfold unit_interval, Qle, Qlt. simpl.
  pose proof (N.mod_upper_bound bits (2 ^ 53)%N ltac:(discriminate)) as Hlt.
  change (Z.pos (2 ^ 53)) with (Z.of_N (2 ^ 53)%N).
  generalize dependent (bits mod 2 ^ 53)%N. generalize (2 ^ 53)%N. lia.
Qed.

Lemma sleep_time_nonneg (delay : Q) (bits : N) :
  (0 <= delay)%Q -> Qle_bool 0 (delay * (1 + unit_interval bits)) = true.
Proof.
  intros Hd. apply Qle_bool_iff.
  destruct (unit_interval_bounds bits) as [Hj _].
  apply Qmult_le_0_compat; [done|]. lra.
Qed.

(** A time strictly between the two limits passes the conversion. *)
Lemma sleep_time_fits (t : Q) :
  (- sleepable <= t)%Q -> (t <= sleepable)%Q ->
  Qle_bool sleep_limit t || Qle_bool t (- sleep_limit) = false.
Proof.
  intros Hlo Hhi. apply orb_false_intro; apply not_true_is_false;
    rewrite Qle_bool_iff; unfold sleep_limit, sleepable in *; lra.
Qed.

Lemma backoff_time_fits (delay : Q) (bits : N) :
  (0 <= delay)%Q -> (delay * 2 <= sleepable)%Q ->
  Qle_bool sleep_limit (delay * (1 + unit_interval bits))
  || Qle_bool (delay * (1 + unit_interval bits)) (- sleep_limit) = false.
Proof.
  intros Hd Hb. destruct (unit_interval_bounds bits) as [Hj Hj'].
  apply sleep_time_fits; unfold sleepable in *; nra.
Qed.

Lemma double_power (delay : Q) (n : nat) :
  delay * 2 * 2 ^ Z.of_nat n == delay * 2 ^ Z.of_nat (S n).
Proof.
  rewrite Nat2Z.inj_succ, <- Z.add_1_r.
  rewrite Qpower_plus by discriminate. change (2 ^ 1) with 2. ring.
Qed.

Lemma power_ge_1 (n : nat) : (1 <= 2 ^ Z.of_nat n)%Q.
Proof.
  induction n as [|n IH]; [discriminate|].
  rewrite Nat2Z.inj_succ, <- Z.add_1_r.
  rewrite Qpower_plus by discriminate. change (2 ^ 1) with 2. lra.
Qed.

Lemma retry_loop_never_ok (url : string) (n : nat) :
  (forall k, is_ok (net o k url) = false) ->
  uninterrupted o ->
  forall (delay : Q) (s : state),
  (0 <= delay)%Q ->
  (delay * 2 ^ Z.of_nat n <= sleepable)%Q ->
  retry_loop o url n delay s =
    (Ret None,
     State (all_books s) (fs s) (requests s ++ replicate n url)
           (draws s + n) (sleeps s ++ backoff_delays o (draws s) delay n)
           (ticks s + 2 * n)).
Proof.
  intros Hnet Hint. induction n as [|n IH]; intros delay s Hd Hfit.
  - simpl. unfold ret. destruct s; simpl.
    by rewrite !app_nil_r, !Nat.add_0_r.
  - cbn [retry_loop]. unfold bind at 1. unfold requests_get at 1.
    rewrite Hint. rewrite <- double_power in Hfit.
    pose proof (power_ge_1 n) as Hpow.
    assert (delay * 2 <= sleepable)%Q as Hfit1 by (unfold sleepable in *; nra).
    assert (Hstep : forall s1,
      (let! j := random_random o in
       time_sleep o (delay * (1 + j))%Q >> retry_loop o url n (delay * 2)%Q) s1
      = retry_loop o url n (delay * 2)%Q
          (State (all_books s1) (fs s1) (requests s1) (S (draws s1))
             (sleeps s1 ++ [(delay * (1 + unit_interval (random_bits o (draws s1))))%Q])
             (S (ticks s1)))).
    { intros s1. unfold bind, random_random, time_sleep. simpl.
      rewrite backoff_time_fits, sleep_time_nonneg by done. simpl.
      by rewrite Hint. }
    specialize (Hnet (length (requests s))).
    destruct (net o (length (requests s)) url) as [|st body u]; simpl in Hnet.
    + rewrite Hstep, IH by (done || lra). simpl. f_equal. f_equal.
      * by rewrite <- app_assoc.
      * lia.
      * by rewrite <- app_assoc.
      * lia.
    + rewrite Hnet. rewrite Hstep, IH by (done || lra). simpl. f_equal. f_equal.
      * by rewrite <- app_assoc.
      * lia.
      * by rewrite <- app_assoc.
      * lia.
Qed.

Lemma backoff_delays_length (k : nat) (delay : Q) (n : nat) :
  length (backoff_delays o k delay n) = n.
Proof. revert k delay. induction n; intros; simpl; auto. Qed.

(** The [i]-th sleep: the factor doubled [i] times, stretched by the
    jitter of that attempt. *)
Lemma backoff_delays_lookup (n k : nat) (delay : Q) (i : nat) (d : Q) :
  backoff_delays o k delay n !! i = Some d ->
  d == delay * 2 ^ Z.of_nat i * (1 + unit_interval (random_bits o (k + i))).
Proof.
  revert k delay i. induction n as [|n IH]; intros k delay i; [done|].
  destruct i as [|i].
  - simpl. intros [= <-]. rewrite Nat.add_0_r. ring.
  - change (backoff_delays o k delay (S n) !! S i)
      with (backoff_delays o (S k) (delay * 2) n !! i).
    intros Hi. rewrite (IH _ _ _ Hi).
    replace (k + S i)%nat with (S k + i)%nat by lia.
    rewrite Nat2Z.inj_succ, <- Z.add_1_r.
    rewrite Qpower_plus by discriminate. change (2 ^ 1) with 2. ring.
Qed.

Lemma backoff_delays_nondecreasing (n k : nat) (delay : Q) (i : nat)
    (d d' : Q) :
  (0 <= delay)%Q ->
  backoff_delays o k delay n !! i = Some d ->
  backoff_delays o k delay n !! S i = Some d' ->
  (d <= d')%Q.
Proof.
  revert k delay i. induction n as [|n IH]; intros k delay i Hd; [done|].
  destruct i as [|i].
  - destruct n as [|n]; [done|]. simpl. intros [= <-] [= <-].
    destruct (unit_interval_bounds (random_bits o k)) as [? ?].
    destruct (unit_interval_bounds (random_bits o (S k))) as [? ?].
    nra.
  - simpl. apply IH. lra.
Qed.

(** C4. When no attempt for a URL is answered with status 200 (and no
    interrupt arrives), the fetcher called with a retry count and a backoff
    factor that are not negative, and such that the longest delay they can
    give, [backoff_factor * 2^max_retries], is a time [time.sleep] accepts,
    makes exactly [max_retries] requests for that URL, returns [None]
    without raising, and sleeps after its [i]-th attempt
    [backoff_factor * 2^(i-1) * (1 + jitter)] with a jitter in [[0, 1)]; the
    times slept never decrease. *)
Theorem fetch_failure_after_max_retries (url : string) (max_retries : Z)
    (backoff_factor : Q) (s : state) :
  (0 <= max_retries)%Z ->
  (0 <= backoff_factor)%Q ->
  (backoff_factor * 2 ^ max_retries <= sleepable)%Q ->
  (forall k, is_ok (net o k url) = false) ->
  uninterrupted o ->
  exists (s' : state) (delays : list Q),
    get_soup_and_url o url max_retries backoff_factor s = (Ret None, s')
    /\ requests s' = requests s ++ replicate (Z.to_nat max_retries) url
    /\ sleeps s' = sleeps s ++ delays
    /\ Z.of_nat (length delays) = max_retries
    /\ (forall i d, delays !! i = Some d ->
          exists jitter : Q,
            (0 <= jitter)%Q /\ (jitter < 1)%Q
            /\ d == backoff_factor * 2 ^ Z.of_nat i * (1 + jitter))
    /\ (forall i d d', delays !! i = Some d -> delays !! S i = Some d' ->
          (d <= d')%Q).
Proof.
  intros Hmax Hb Hfit Hnet Hint. unfold get_soup_and_url.
  rewrite retry_loop_never_ok; [|done|done|done|by rewrite Z2Nat.id].
  eexists _, (backoff_delays o (draws s) backoff_factor (Z.to_nat max_retries)).
  split; [reflexivity|]. simpl.
  split; [reflexivity|]. split; [reflexivity|].
  split; [rewrite backoff_delays_length; lia|].
  split.
  - intros i d Hi. eexists. 
    destruct (unit_interval_bounds (random_bits o (draws s + i))) as [? ?].
    split; [eassumption|]. split; [eassumption|].
    by eapply backoff_delays_lookup.
  - intros i d d'. by apply backoff_delays_nondecreasing.
Qed.

End FetcherProperties.

(** ** The checkpoint store *)

Section StoreProperties.
Context `{!Libraries}.

Lemma string_leb_trans (a b c : string) :
  String.leb a b = true -> String.leb b c = true -> String.leb a c = true.
Proof.
  unfold String.leb. revert b c.
  induction a as [|x a IH]; intros [|y b] [|z c]; simpl; try done.
  unfold Ascii.compare.
  destruct (N.compare_spec (N_of_ascii x) (N_of_ascii y)) as [Hxy|Hxy|Hxy];
    destruct (N.compare_spec (N_of_ascii y) (N_of_ascii z)) as [Hyz|Hyz|Hyz];
    destruct (N.compare_spec (N_of_ascii x) (N_of_ascii z)) as [Hxz|Hxz|Hxz];
    try done; try lia.
  apply IH.
Qed.

#[local] Instance str_le_total : Total str_le.
Proof. intros a b. apply String.leb_total. Qed.

#[local] Instance str_le_trans : Transitive str_le.
Proof. intros a b c. apply string_leb_trans. Qed.

#[local] Instance str_le_antisymm : AntiSymm (=) str_le.
Proof. intros a b. apply String.leb_antisym. Qed.

(** The field names: without repetition, in increasing order, and exactly
    the keys some record has. *)
Lemma csv_fieldnames_spec (books : list record) :
  StronglySorted str_le (csv_fieldnames books)
  /\ NoDup (csv_fieldnames books)
  /\ forall k, k ∈ csv_fieldnames books <->
               exists r, r ∈ books /\ is_Some (r !! k).
Proof.
  unfold csv_fieldnames. split; [apply StronglySorted_merge_sort; apply _|].
  split.
  { rewrite merge_sort_Permutation. apply NoDup_elements. }
  intros k. rewrite merge_sort_Permutation, elem_of_elements.
  unfold all_keys. rewrite elem_of_union_list. split.
  - intros (X & HX & Hk). apply list_elem_of_fmap in HX as (r & -> & Hr).
    exists r. split; [done|]. by apply elem_of_dom.
  - intros (r & Hr & Hk). exists (dom r). split.
    + apply list_elem_of_fmap. eauto.
    + by apply elem_of_dom.
Qed.

Lemma csv_row_returns (books : list record) (row : record) :
  row ∈ books ->
  csv_row (csv_fieldnames books) row
  = Ret (csv_cell row <$> csv_fieldnames books).
Proof.
  intros Hrow. unfold csv_row. rewrite bool_decide_eq_true_2; [done|].
  intros k Hk. apply elem_of_list_to_set.
  apply csv_fieldnames_spec. exists row. split; [done|]. by apply elem_of_dom.
Qed.

Lemma csv_rows_return (keys : list string) (books : list record) :
  (forall row, row ∈ books -> csv_row keys row = Ret (csv_cell row <$> keys)) ->
  csv_rows keys books = ((fun row => csv_cell row <$> keys) <$> books, None).
Proof.
  induction books as [|row books IH]; intros Hrows; [done|].
  simpl. rewrite Hrows by left. rewrite IH; [done|].
  intros r Hr. apply Hrows. by right.
Qed.

Lemma RAW_TMP_neq_RAW_JSON : RAW_TMP <> RAW_JSON.
Proof. discriminate. Qed.

(** C2. The checkpoint save writes the serialized accumulator to the
    temporary sibling file and then replaces the destination by one rename:
    when the temporary file is written it holds the full serialization; at
    every point before the rename (nothing done, any number of characters
    written, the temporary file complete) the destination is what it was;
    after the rename it holds the new serialization. *)
Theorem checkpoint_save_is_atomic (books : list record)
    (f : gmap string string) :
  fs_at TmpWritten books f !! RAW_TMP = Some (json_dump books)
  /\ fs_at BeforeOpen books f !! RAW_JSON = f !! RAW_JSON
  /\ (forall n, fs_at (TmpWriting n) books f !! RAW_JSON = f !! RAW_JSON)
  /\ fs_at TmpWritten books f !! RAW_JSON = f !! RAW_JSON
  /\ fs_at Replaced books f !! RAW_JSON = Some (json_dump books)
  /\ forall s, safe_write_json_partial books s
               = (Ret tt, set_fs (fs_at Replaced books (fs s)) s).
Proof.
  split; [apply lookup_insert_eq|].
  split; [reflexivity|].
  split; [intros n; apply lookup_insert_ne, RAW_TMP_neq_RAW_JSON|].
  split; [apply lookup_insert_ne, RAW_TMP_neq_RAW_JSON|].
  split; [apply lookup_insert_eq|].
  reflexivity.
Qed.

(** [scrape_all] begins with the load: everything after it starts from the
    state the load leaves. *)
Lemma scrape_all_starts_with_load (o : oracle) (max_pages : Z) (s0 : state) :
  scrape_all o max_pages s0
  = (crawl_loop o (Z.to_nat max_pages) 1 max_pages >> finalize)
      (load_checkpoint s0).2.
Proof. reflexivity. Qed.

(** C9. With a [json] library that reads back what it wrote, the
    accumulator that [load_checkpoint] sets up at startup from the files a
    save left is the saved list itself, in the same order; loading issues no
    request, and the crawl of [scrape_all] starts from that state. *)
Theorem load_after_save_is_identity (books : list record) (s s0 : state) :
  (forall b, json_load (json_dump b) = Some b) ->
  fs s0 = fs (safe_write_json_partial books s).2 ->
  (load_checkpoint s0).1 = Ret tt
  /\ all_books (load_checkpoint s0).2 = books
  /\ requests (load_checkpoint s0).2 = requests s0
  /\ forall o max_pages,
       scrape_all o max_pages s0
       = (crawl_loop o (Z.to_nat max_pages) 1 max_pages >> finalize)
           (load_checkpoint s0).2.
Proof.
  intros Hcodec Hfs. split; [done|]. split.
  - unfold load_checkpoint. simpl.
    rewrite Hfs. simpl. rewrite lookup_insert_eq. by rewrite Hcodec.
  - split; [done|]. intros o max_pages. apply scrape_all_starts_with_load.
Qed.

Lemma safe_write_csv_nonempty (books : list record) (s : state) :
  books <> [] ->
  safe_write_csv books s
  = (Ret tt,
     set_fs (<[RAW_CSV :=
                 csv_text (csv_fieldnames books)
                   ((fun row => csv_cell row <$> csv_fieldnames books)
                      <$> books)]> (fs s)) s).
Proof.
  intros Hne. unfold safe_write_csv.
  rewrite (csv_rows_return (csv_fieldnames books) books)
    by (intros; by apply csv_row_returns).
  by destruct books.
Qed.

(** C6, amended. At Finalize the export is regenerated from the full
    accumulator whenever the accumulator is NOT empty: the call raises
    nothing, the columns are the keys of all records in increasing order
    without repetition, every row has one cell per column in that order, and
    a key the record lacks gives the empty cell. With the empty accumulator
    no export is written: whatever export file there is stays as it is. *)
Theorem finalize_export (s : state) :
  (all_books s <> [] ->
   exists s' keys rows,
     finalize s = (Ret tt, s')
     /\ all_books s' = all_books s
     /\ fs s' !! RAW_CSV = Some (csv_text keys rows)
     /\ keys = csv_fieldnames (all_books s)
     /\ rows = (fun row => csv_cell row <$> keys) <$> all_books s
     /\ StronglySorted str_le keys
     /\ NoDup keys
     /\ (forall k, k ∈ keys <->
                   exists r, r ∈ all_books s /\ is_Some (r !! k))
     /\ (forall r k, r !! k = None -> csv_cell r k = EmptyString))
  /\ (all_books s = [] ->
      exists s',
        finalize s = (Ret tt, s')
        /\ fs s' !! RAW_CSV = fs s !! RAW_CSV).
Proof.
  split.
  - intros Hne. unfold finalize, bind, safe_write_json_partial.
    cbn [all_books set_fs fs]. rewrite safe_write_csv_nonempty by done.
    eexists _, _, _. split; [reflexivity|]. cbn [all_books set_fs fs].
    split; [done|]. split; [apply lookup_insert_eq|].
    split; [reflexivity|]. split; [reflexivity|].
    destruct (csv_fieldnames_spec (all_books s)) as (Hs & Hn & Hk).
    split; [done|]. split; [done|]. split; [done|].
    intros r k Hr. unfold csv_cell. by rewrite Hr.
  - intros Hempty. unfold finalize, bind, safe_write_json_partial.
    cbn [all_books set_fs fs]. rewrite Hempty. unfold safe_write_csv.
    eexists. split; [reflexivity|]. cbn [fs set_fs fs_at].
    rewrite lookup_insert_ne by discriminate.
    by rewrite lookup_delete_ne by discriminate.
Qed.

End StoreProperties.

(** ** The controller *)

Section ControllerProperties.
Context `{!Libraries}.
Variable o : oracle.
Hypothesis quiet : uninterrupted o.

(** Without an interrupt the fetcher returns: it raises nothing when the
    delay it starts from is not negative and its last delay is a time that
    can be slept. *)
Lemma retry_loop_returns (url : string) (n : nat) (delay : Q) (s : state) :
  (0 <= delay)%Q ->
  (delay * 2 ^ Z.of_nat n <= sleepable)%Q ->
  exists r s', retry_loop o url n delay s = (Ret r, s').
Proof.
  revert delay s. induction n as [|n IH]; intros delay s Hd Hfit.
  - simpl. unfold ret. eauto.
  - cbn [retry_loop]. unfold bind at 1. unfold requests_get at 1.
    rewrite quiet. rewrite <- double_power in Hfit.
    pose proof (power_ge_1 n) as Hpow.
    assert (delay * 2 <= sleepable)%Q as Hfit1 by (unfold sleepable in *; nra).
    assert (Hstep : forall s1, exists r s',
      (let! j := random_random o in
       time_sleep o (delay * (1 + j))%Q >> retry_loop o url n (delay * 2)%Q) s1
      = (Ret r, s')).
    { intros s1. unfold bind at 1. unfold random_random at 1.
      unfold bind at 1. unfold time_sleep at 1. cbn [draws ticks].
      rewrite backoff_time_fits, sleep_time_nonneg by done.
      cbn [negb]. rewrite quiet.
      apply IH; [lra|done]. }
    destruct (net o (length (requests s)) url) as [|st body u].
    + apply Hstep.
    + destruct (st =? 200)%Z; [|apply Hstep]. unfold ret. eauto.
Qed.

Lemma get_soup_and_url_default_returns (url : string) (s : state) :
  exists r s',
    get_soup_and_url o url default_max_retries default_backoff_factor s
    = (Ret r, s').
Proof.
  apply retry_loop_returns; unfold default_backoff_factor; [lra|].
  vm_compute. discriminate.
Qed.

(** [parse_product_page] returns a dict whatever the page holds. *)
Lemma parse_product_page_returns (url : string) (s : state) :
  exists d s', parse_product_page o url s = (Ret d, s').
Proof.
  unfold parse_product_page, bind.
  destruct (get_soup_and_url_default_returns url s) as (r & s1 & ->).
  destruct r as [[soup final_url]|]; [|unfold ret; eauto].
  unfold try_except, lift.
  destruct (parse_product_body soup final_url) as [d|e] eqn:Hbody; [eauto|].
  apply parse_product_body_raises in Hbody as ->. simpl. unfold ret. eauto.
Qed.

Lemma frame_ret {A} (a : A) : frame (ret a).
Proof. by intros s r s' [= _ <-]. Qed.

Lemma frame_lift {A} (r : pyres A) : frame (lift r).
Proof. by intros s r' s' [= _ <-]. Qed.

Lemma frame_bind {A B} (m : M A) (f : A -> M B) :
  frame m -> (forall a, frame (f a)) -> frame (bind m f).
Proof.
  intros Hm Hf s r s'. unfold bind.
  destruct (m s) as [[a|e] s1] eqn:Hms.
  - intros Hfs. destruct (Hm _ _ _ Hms) as [<- <-]. by eapply Hf.
  - intros [= _ <-]. by eapply Hm.
Qed.

Lemma frame_try_except {A} (m : M A) (handler : exn -> M A) :
  frame m -> (forall e, frame (handler e)) -> frame (try_except m handler).
Proof.
  intros Hm Hh s r s'. unfold try_except.
  destruct (m s) as [[a|e] s1] eqn:Hms.
  - intros [= _ <-]. by eapply Hm.
  - destruct (is_Exception e).
    + intros Hhs. destruct (Hm _ _ _ Hms) as [<- <-]. by eapply Hh.
    + intros [= _ <-]. by eapply Hm.
Qed.

Lemma frame_requests_get (url : string) : frame (requests_get o url).
Proof.
  intros s r s'. unfold requests_get.
  destruct (sigint o (ticks s)); by intros [= _ <-].
Qed.

Lemma frame_random_random : frame (random_random o).
Proof. by intros s r s' [= _ <-]. Qed.

Lemma frame_time_sleep (t : Q) : frame (time_sleep o t).
Proof.
  intros s r s'. unfold time_sleep.
  destruct (_ || _); [by intros [= _ <-]|].
  destruct (negb _); [by intros [= _ <-]|].
  destruct (sigint o (ticks s)); by intros [= _ <-].
Qed.

Lemma frame_retry_loop (url : string) (n : nat) (delay : Q) :
  frame (retry_loop o url n delay).
Proof.
  revert delay. induction n as [|n IH]; intros delay; [apply frame_ret|].
  cbn [retry_loop]. apply frame_bind; [apply frame_requests_get|].
  assert (Hbackoff : frame
    (let! j := random_random o in
     time_sleep o (delay * (1 + j))%Q >> retry_loop o url n (delay * 2)%Q)).
  { apply frame_bind; [apply frame_random_random|]. intros j.
    apply frame_bind; [apply frame_time_sleep|]. intros _. apply IH. }
  intros [|st body u]; [done|].
  destruct (st =? 200)%Z; [apply frame_ret|done].
Qed.

Lemma frame_parse_product_page (url : string) :
  frame (parse_product_page o url).
Proof.
  unfold parse_product_page. apply frame_bind; [apply frame_retry_loop|].
  intros [[soup final_url]|]; [|apply frame_ret].
  apply frame_try_except; [apply frame_lift|]. intros _. apply frame_ret.
Qed.

Lemma parse_product_page_failed (url : string) (s : state) :
  detail_failed o url s ->
  exists s', parse_product_page o url s = (Ret ∅, s').
Proof.
  unfold detail_failed, parse_product_page, bind.
  destruct (get_soup_and_url o url _ _ s) as [[r|e] s1]; [|done].
  destruct r as [[soup final_url]|]; [|unfold ret; eauto].
  unfold try_except, lift.
  destruct (parse_product_body soup final_url) as [d|e] eqn:Hbody; [done|].
  apply parse_product_body_raises in Hbody as ->. unfold ret. eauto.
Qed.

Lemma politeness_pause_nonneg (bits : N) :
  Qle_bool 0 (0.4 + (1.2 - 0.4) * unit_interval bits) = true.
Proof.
  apply Qle_bool_iff. destruct (unit_interval_bounds bits) as [? _]. lra.
Qed.

Lemma politeness_pause_fits (bits : N) :
  Qle_bool sleep_limit (0.4 + (1.2 - 0.4) * unit_interval bits)
  || Qle_bool (0.4 + (1.2 - 0.4) * unit_interval bits) (- sleep_limit)
  = false.
Proof.
  destruct (unit_interval_bounds bits) as [? ?].
  apply sleep_time_fits; unfold sleepable; lra.
Qed.

(** One pass through the body of the article loop: the listing record,
    updated with whatever the detail stage returned, is appended. *)
Lemma process_article_appends (base : string) (art : node) (item : record)
    (s : state) :
  parse_list_item art base = Ret item ->
  exists d s1 s',
    (exists url, item_url item = Ret url
                 /\ parse_product_page o url s = (Ret d, s1))
    /\ process_article o base art s = (Ret tt, s')
    /\ all_books s' = all_books s ++ [d ∪ item].
Proof.
  intros Hitem.
  destruct (parse_list_item_inv _ _ _ Hitem)
    as (h3 & a & _ & _ & _ & _ & (link & _ & Hurl) & _).
  destruct (parse_product_page_returns link s) as (d & s1 & Hpage).
  destruct (frame_parse_product_page _ _ _ _ Hpage) as [Hb _].
  exists d, s1.
  unfold process_article, periodic_checkpoint, safe_write_json_partial.
  unfold bind at 1. unfold try_except. unfold bind at 1. unfold lift at 1.
  rewrite Hitem. unfold bind at 1. unfold lift, item_url. rewrite Hurl.
  unfold bind at 1. rewrite Hpage.
  unfold bind at 1. unfold append_book at 1.
  unfold bind at 1. unfold random_uniform. unfold bind at 1.
  unfold random_random at 1. unfold ret at 1.
  unfold time_sleep. cbn [draws ticks set_all_books all_books fs requests sleeps].
  rewrite politeness_pause_fits, politeness_pause_nonneg.
  cbn [negb]. rewrite quiet.
  cbn [all_books].
  destruct (_ =? 0)%Z; eexists; (split; [eauto|]); split; try reflexivity.
  - simpl. by rewrite Hb.
  - simpl. by rewrite Hb.
Qed.

(** C8. When the listing entry was read and its detail stage fails (the
    page cannot be fetched within its own retry budget, or reading the
    fetched page raises), the body of the article loop still ends normally
    and has appended the listing record, all six listing fields in it, to
    the accumulator. *)
Theorem detail_failure_keeps_item (base : string) (art : node)
    (item : record) (url : string) (s : state) :
  parse_list_item art base = Ret item ->
  item_url item = Ret url ->
  detail_failed o url s ->
  exists s',
    process_article o base art s = (Ret tt, s')
    /\ all_books s' = all_books s ++ [item]
    /\ dom item = listing_fields.
Proof.
  intros Hitem Hurl Hfail.
  destruct (parse_list_item_inv _ _ _ Hitem) as (_ & _ & _ & _ & Hdom & _).
  destruct (process_article_appends base art item s Hitem)
    as (d & s1 & s' & (url' & Hurl' & Hpage) & Hrun & Hbooks).
  rewrite Hurl in Hurl'. injection Hurl' as <-.
  destruct (parse_product_page_failed url s Hfail) as (s1' & Hpage').
  rewrite Hpage in Hpage'. injection Hpage' as -> _.
  exists s'. split; [done|]. split; [|done].
  by rewrite Hbooks, (left_id_L ∅ (∪)).
Qed.
End ControllerProperties.

(** ** The script *)

Section InterruptProperties.
Context `{!Libraries}.
Variable o : oracle.

(** The module namespace binds no [all_books]. *)
Lemma module_namespace_all_books : module_namespace !! "all_books" = None.
Proof. vm_compute. reflexivity. Qed.

(** The handler of the script writes nothing: whatever state the interrupt
    left, that is the state the process ends in. *)
Lemma interrupt_handler_flushes_nothing (s s' : state) :
  scrape_all o default_max_pages s = (Raise KeyboardInterrupt, s') ->
  main o s = (Raise KeyboardInterrupt, s').
Proof.
  intros Hrun. unfold main. rewrite Hrun.
  unfold on_keyboard_interrupt. by rewrite module_namespace_all_books.
Qed.

End InterruptProperties.

(** ** Tolerance of the extraction *)

Section ToleranceProperties.
Context `{!Libraries}.

Lemma detail_category_short (soup : node) :
  (length (select_breadcrumb_links soup) < 3)%nat ->
  detail_category soup = None.
Proof.
  intros Hlen. unfold detail_category.
  rewrite (lookup_ge_None_2 _ 2%nat) by lia. done.
Qed.

Lemma detail_description_absent (soup : node) :
  select_one_product_description soup = None
  \/ (exists desc_tag, select_one_product_description soup = Some desc_tag
                       /\ find_next_sibling_p desc_tag = None) ->
  detail_description soup = EmptyString.
Proof.
  unfold detail_description. intros [->|(desc_tag & -> & ->)]; done.
Qed.

Lemma detail_info_no_table (soup : node) :
  find_info_table soup = None -> detail_info soup = Ret ∅.
Proof. unfold detail_info. by intros ->. Qed.

Lemma parse_product_body_returns (soup : node) (final_url : string) :
  rows_complete soup ->
  exists info,
    detail_info soup = Ret info
    /\ parse_product_body soup final_url
       = Ret (detail_record (detail_category soup) (detail_description soup)
                            info final_url).
Proof.
  intros Hrows. unfold parse_product_body, detail_info.
  destruct (find_info_table soup) as [table|] eqn:Htable.
  - destruct (table_rows_info_returns _ ∅ (Hrows table Htable))
      as (info & Hinfo).
    rewrite Hinfo. eauto.
  - eauto.
Qed.

(** C3, amended. [parse_list_item] returns a record with all six fields
    whenever the entry has its heading, the heading its anchor, and
    [urljoin] accepts the anchor's [href] and the thumbnail's [src]: the two
    links are the joined references, and an absent price tag, availability
    tag or rating marker leaves the empty string in its field, an absent
    thumbnail the join of the base with the empty reference. Every field is
    read from its own element only: two entries that agree on an element
    agree on the fields read from it, whatever else differs.
    [parse_product_page] raises no exception for any page, and for a
    [plain] page whose table rows are complete the record is made of the
    three parts read separately: a short
    breadcrumb leaves the category absent, a missing description anchor or
    paragraph leaves the description empty, a missing table leaves no
    attributes, each without effect on the other fields; a row of the table
    without header or data cell makes it return the empty dict. *)
Theorem extraction_tolerance :
  (forall art base h3 a link img,
     find (has_name "h3") art = Some h3 ->
     find (has_name "a") h3 = Some a ->
     urljoin base (get_attr a "href" EmptyString) = Some link ->
     urljoin base (img_src_of art) = Some img ->
     exists item,
       parse_list_item art base = Ret item
       /\ dom item = listing_fields
       /\ item !! "product_page_url" = Some (Some link)
       /\ item !! "image_url" = Some (Some img)
       /\ (price_tag_of art = None ->
           item !! "price_text" = Some (Some EmptyString))
       /\ (availability_tag_of art = None ->
           item !! "availability_text" = Some (Some EmptyString))
       /\ (rating_tag_of art = None ->
           item !! "rating_text" = Some (Some EmptyString))
       /\ (find (has_name "img") art = None ->
           urljoin base EmptyString = Some img))
  /\ (forall art art' base item item',
        parse_list_item art base = Ret item ->
        parse_list_item art' base = Ret item' ->
        (anchor_of art = anchor_of art' ->
         item !! "title" = item' !! "title"
         /\ item !! "product_page_url" = item' !! "product_page_url")
        /\ (price_tag_of art = price_tag_of art' ->
            item !! "price_text" = item' !! "price_text")
        /\ (availability_tag_of art = availability_tag_of art' ->
            item !! "availability_text" = item' !! "availability_text")
        /\ (rating_tag_of art = rating_tag_of art' ->
            item !! "rating_text" = item' !! "rating_text")
        /\ (find (has_name "img") art = find (has_name "img") art' ->
            item !! "image_url" = item' !! "image_url"))
  /\ (forall soup final_url,
        plain_node soup = true ->
        rows_complete soup ->
        exists info,
          detail_info soup = Ret info
          /\ parse_product_body soup final_url
             = Ret (detail_record (detail_category soup)
                      (detail_description soup) info final_url))
  /\ (forall soup,
        (length (select_breadcrumb_links soup) < 3)%nat ->
        detail_category soup = None)
  /\ (forall soup,
        select_one_product_description soup = None
        \/ (exists desc_tag,
              select_one_product_description soup = Some desc_tag
              /\ find_next_sibling_p desc_tag = None) ->
        detail_description soup = EmptyString)
  /\ (forall soup, find_info_table soup = None -> detail_info soup = Ret ∅)
  /\ (forall o url s,
        uninterrupted o ->
        exists d s', parse_product_page o url s = (Ret d, s'))
  /\ (forall o url s soup final_url s1,
        get_soup_and_url o url default_max_retries default_backoff_factor s
          = (Ret (Some (soup, final_url)), s1) ->
        raises (parse_product_body soup final_url) = true ->
        parse_product_page o url s = (Ret ∅, s1)).
Proof.
  split.
  { intros art base h3 a link img Hh3 Ha Hlink Himg.
    destruct (parse_list_item_returns art base h3 a Hh3 Ha) as (item & Hitem);
      [by rewrite Hlink|by rewrite Himg|].
    exists item. split; [done|].
    destruct (parse_list_item_inv _ _ _ Hitem)
      as (h3' & a' & Hh3' & Ha' & Hdom & _ & (link' & Hl & Hl')
          & Hprice & Havail & Hrating & (img' & Hi & Hi')).
    rewrite Hh3 in Hh3'. injection Hh3' as <-.
    rewrite Ha in Ha'. injection Ha' as <-.
    rewrite Hlink in Hl. injection Hl as <-.
    rewrite Himg in Hi. injection Hi as <-.
    split; [done|]. split; [done|]. split; [done|].
    split; [by intros Hnone; rewrite Hprice, Hnone|].
    split; [by intros Hnone; rewrite Havail, Hnone|].
    split; [by intros Hnone; rewrite Hrating, Hnone|].
    intros Hnone. rewrite <- Himg. unfold img_src_of. by rewrite Hnone. }
  split.
  { intros art art' base item item' Hitem Hitem'.
    destruct (parse_list_item_inv _ _ _ Hitem)
      as (h3 & a & Hh3 & Ha & _ & Ht & (link & Hl & Hl')
          & Hprice & Havail & Hrating & (img & Hi & Hi')).
    destruct (parse_list_item_inv _ _ _ Hitem')
      as (h3' & a' & Hh3' & Ha' & _ & Ht' & (link' & Hm & Hm')
          & Hprice' & Havail' & Hrating' & (img' & Hj & Hj')).
    split.
    { unfold anchor_of. rewrite Hh3, Hh3'. simpl. rewrite Ha, Ha'.
      intros [= <-]. rewrite Ht, Ht', Hl', Hm'.
      rewrite Hl in Hm. by injection Hm as <-. }
    split; [intros Heq; by rewrite Hprice, Hprice', Heq|].
    split; [intros Heq; by rewrite Havail, Havail', Heq|].
    split; [intros Heq; by rewrite Hrating, Hrating', Heq|].
    intros Heq. rewrite Hi', Hj'. unfold img_src_of in Hi, Hj.
    rewrite Heq in Hi. rewrite Hi in Hj. by injection Hj as <-. }
  split; [intros soup final_url _; apply parse_product_body_returns|].
  split; [exact detail_category_short|].
  split; [exact detail_description_absent|].
  split; [exact detail_info_no_table|].
  split; [intros o url s Hq; by apply parse_product_page_returns|].
  intros o url s soup final_url s1 Hfetch Hraises.
  unfold parse_product_page, bind. rewrite Hfetch.
  unfold try_except, lift.
  destruct (parse_product_body soup final_url) as [d|e] eqn:Hbody; [done|].
  by apply parse_product_body_raises in Hbody as ->.
Qed.

End ToleranceProperties.

(** * Further properties *)

(** ** The fetcher, when it succeeds and when it is misused *)

Section FetcherMore.
Variable o : oracle.

Lemma retry_loop_step_fail (url : string) (n : nat) (delay : Q) (s : state) :
  sigint o (ticks s) = false ->
  sigint o (S (ticks s)) = false ->
  (0 <= delay)%Q ->
  (delay * 2 <= sleepable)%Q ->
  is_ok (net o (length (requests s)) url) = false ->
  retry_loop o url (S n) delay s
  = retry_loop o url n (delay * 2)%Q
      (State (all_books s) (fs s) (requests s ++ [url]) (S (draws s))
         (sleeps s
          ++ [(delay * (1 + unit_interval (random_bits o (draws s))))%Q])
         (S (S (ticks s)))).
Proof.
  intros Hi1 Hi2 Hd Hfit Hnet. cbn [retry_loop]. unfold bind at 1.
  unfold requests_get at 1. rewrite Hi1.
  assert (Hgo :
    (let! j := random_random o in
     time_sleep o (delay * (1 + j))%Q >> retry_loop o url n (delay * 2)%Q)
      (State (all_books s) (fs s) (requests s ++ [url]) (draws s) (sleeps s)
         (S (ticks s)))
    = retry_loop o url n (delay * 2)%Q
        (State (all_books s) (fs s) (requests s ++ [url]) (S (draws s))
           (sleeps s
            ++ [(delay * (1 + unit_interval (random_bits o (draws s))))%Q])
           (S (S (ticks s))))).
  { unfold bind, random_random, time_sleep. simpl.
    rewrite backoff_time_fits, sleep_time_nonneg by done. simpl.
    by rewrite Hi2. }
  destruct (net o (length (requests s)) url) as [|st body u];
    simpl in Hnet; [done|]. by rewrite Hnet.
Qed.

Lemma retry_loop_step_ok (url : string) (n : nat) (delay : Q) (s : state)
    (body : node) (final_url : string) :
  sigint o (ticks s) = false ->
  net o (length (requests s)) url = Response 200 body final_url ->
  retry_loop o url (S n) delay s
  = (Ret (Some (body, final_url)),
     State (all_books s) (fs s) (requests s ++ [url]) (draws s) (sleeps s)
       (S (ticks s))).
Proof.
  intros Hi Hnet. cbn [retry_loop]. unfold bind at 1.
  unfold requests_get at 1. by rewrite Hi, Hnet.
Qed.

Lemma retry_loop_succeeds_after (url : string) (R : nat) :
  uninterrupted o ->
  forall (n : nat) (delay : Q) (s : state) (body : node) (final_url : string),
  (R < n)%nat ->
  (0 <= delay)%Q ->
  (delay * 2 ^ Z.of_nat R <= sleepable)%Q ->
  (forall i, (i < R)%nat ->
     is_ok (net o (length (requests s) + i) url) = false) ->
  net o (length (requests s) + R) url = Response 200 body final_url ->
  retry_loop o url n delay s
  = (Ret (Some (body, final_url)),
     State (all_books s) (fs s) (requests s ++ replicate (S R) url)
       (draws s + R) (sleeps s ++ backoff_delays o (draws s) delay R)
       (ticks s + 2 * R + 1)).
Proof.
  intros Hq. induction R as [|R IH];
    intros n delay s body final_url Hn Hd Hfit Hfail Hok.
  - destruct n as [|n]; [lia|]. rewrite Nat.add_0_r in Hok.
    rewrite (retry_loop_step_ok _ _ _ _ _ _ (Hq _) Hok). simpl.
    by rewrite !Nat.add_0_r, app_nil_r, Nat.add_1_r.
  - destruct n as [|n]; [lia|].
    rewrite <- double_power in Hfit. pose proof (power_ge_1 R) as Hpow.
    rewrite retry_loop_step_fail; [|apply Hq|apply Hq|done| |].
    2:{ unfold sleepable in *. nra. }
    2:{ specialize (Hfail 0%nat ltac:(lia)). by rewrite Nat.add_0_r in Hfail. }
    rewrite (IH n _ _ body final_url); [|lia|lra|done| |].
    + simpl. f_equal. f_equal.
      * by rewrite <- app_assoc.
      * lia.
      * by rewrite <- app_assoc.
      * lia.
    + intros i Hi. simpl. rewrite length_app. simpl.
      replace (length (requests s) + 1 + i)%nat
        with (length (requests s) + S i)%nat by lia.
      apply Hfail. lia.
    + simpl. rewrite length_app. simpl.
      by replace (length (requests s) + 1 + R)%nat
        with (length (requests s) + S R)%nat by lia.
Qed.

(** X1. When the first [R] attempts for a URL are not answered with status
    200 and the next one is, with [R] below the retry count, a backoff
    factor that is not negative, delays that [time.sleep] accepts (the
    longest is below [backoff_factor * 2^R]) and no interrupt, the fetcher
    returns the body and the final URL of that answer after exactly [R + 1]
    requests and [R] sleeps, the backoff delays of the failed attempts, and
    leaves the accumulator and the files as they were. *)
Theorem fetch_succeeds_after_failures (url : string) (max_retries : Z)
    (backoff_factor : Q) (s : state) (R : nat) (body : node)
    (final_url : string) :
  uninterrupted o ->
  (0 <= backoff_factor)%Q ->
  (backoff_factor * 2 ^ Z.of_nat R <= sleepable)%Q ->
  Z.of_nat R < max_retries ->
  (forall i, (i < R)%nat ->
     is_ok (net o (length (requests s) + i) url) = false) ->
  net o (length (requests s) + R) url = Response 200 body final_url ->
  exists s',
    get_soup_and_url o url max_retries backoff_factor s
      = (Ret (Some (body, final_url)), s')
    /\ requests s' = requests s ++ replicate (S R) url
    /\ sleeps s' = sleeps s ++ backoff_delays o (draws s) backoff_factor R
    /\ length (backoff_delays o (draws s) backoff_factor R) = R
    /\ all_books s' = all_books s
    /\ fs s' = fs s.
Proof.
  intros Hq Hb Hfit HR Hfail Hok. unfold get_soup_and_url.
  rewrite (retry_loop_succeeds_after url R Hq _ _ _ body final_url);
    [|lia|done|done|done|done].
  eexists. split; [reflexivity|]. simpl.
  by rewrite backoff_delays_length.
Qed.

(** X2. However a call of the fetcher ends, it has made at most
    [max_retries] requests, all of them for the URL it was given, has slept
    at most once per request, and has left the accumulator and the files as
    they were. *)
Theorem fetch_stays_in_budget (url : string) (max_retries : Z)
    (backoff_factor : Q) (s s' : state) (r : pyres (option (node * string))) :
  get_soup_and_url o url max_retries backoff_factor s = (r, s') ->
  exists k : nat,
    (k <= Z.to_nat max_retries)%nat
    /\ requests s' = requests s ++ replicate k url
    /\ (length (sleeps s') <= length (sleeps s) + k)%nat
    /\ all_books s' = all_books s
    /\ fs s' = fs s.
Proof.
  unfold get_soup_and_url. generalize (Z.to_nat max_retries) as n.
  intros n. revert backoff_factor s.
  induction n as [|n IH]; intros delay s.
  - intros [= _ <-]. exists 0%nat. simpl. rewrite app_nil_r.
    repeat split; lia.
  - cbn [retry_loop]. unfold bind at 1. unfold requests_get at 1.
    destruct (sigint o (ticks s)).
    { intros [= _ <-]. exists 0%nat. simpl. rewrite app_nil_r.
      repeat split; lia. }
    assert (Hgo : forall s1,
      requests s1 = requests s ++ [url] ->
      sleeps s1 = sleeps s -> all_books s1 = all_books s -> fs s1 = fs s ->
      (let! j := random_random o in
       time_sleep o (delay * (1 + j))%Q >> retry_loop o url n (delay * 2)%Q) s1
      = (r, s') ->
      exists k : nat,
        (k <= S n)%nat
        /\ requests s' = requests s ++ replicate k url
        /\ (length (sleeps s') <= length (sleeps s) + k)%nat
        /\ all_books s' = all_books s
        /\ fs s' = fs s).
    { intros s1 Hr Hs Hb Hf. unfold bind at 1. unfold random_random at 1.
      unfold bind at 1. unfold time_sleep at 1. cbn [draws ticks].
      destruct (_ || _).
      { intros [= _ <-]. exists 1%nat. simpl. rewrite Hr, Hs, Hb, Hf.
        repeat split; lia. }
      destruct (negb _).
      { intros [= _ <-]. exists 1%nat. simpl. rewrite Hr, Hs, Hb, Hf.
        repeat split; lia. }
      destruct (sigint o (ticks s1)).
      { intros [= _ <-]. exists 1%nat. simpl. rewrite Hr, Hs, Hb, Hf.
        repeat split; lia. }
      intros Hrun. apply IH in Hrun as (k & Hk & Hreq & Hsl & Hbk & Hfs).
      simpl in *. exists (S k). rewrite Hreq, Hr, <- app_assoc.
      split; [lia|]. split; [done|].
      rewrite length_app in Hsl. simpl in Hsl. rewrite Hs in Hsl.
      split; [lia|]. by rewrite Hbk, Hfs. }
    destruct (net o (length (requests s)) url) as [|st body u].
    + by apply Hgo.
    + destruct (st =? 200)%Z; [|by apply Hgo].
      intros [= _ <-]. exists 1%nat. simpl. repeat split; lia.
Qed.

(** X3. With a negative backoff factor (not so large that the conversion
    of [time.sleep] overflows) the first attempt that is not answered with
    status 200 ends the call with the [ValueError] of [time.sleep]: one
    request was made and nothing was slept. *)
Theorem fetch_negative_backoff_raises (url : string) (max_retries : Z)
    (backoff_factor : Q) (s : state) :
  (backoff_factor < 0)%Q ->
  (- sleepable <= backoff_factor * 2)%Q ->
  0 < max_retries ->
  sigint o (ticks s) = false ->
  is_ok (net o (length (requests s)) url) = false ->
  exists s',
    get_soup_and_url o url max_retries backoff_factor s
      = (Raise ValueError, s')
    /\ requests s' = requests s ++ [url]
    /\ sleeps s' = sleeps s.
Proof.
  intros Hb Hfit Hmax Hi Hnet. unfold get_soup_and_url.
  destruct (Z.to_nat max_retries) as [|n] eqn:Hn; [lia|].
  cbn [retry_loop]. unfold bind at 1. unfold requests_get at 1. rewrite Hi.
  destruct (unit_interval_bounds (random_bits o (draws s))) as [Hj Hj'].
  assert (Hneg : Qle_bool 0
            (backoff_factor * (1 + unit_interval (random_bits o (draws s))))
          = false).
  { apply not_true_is_false. rewrite Qle_bool_iff. nra. }
  assert (Hin :
    Qle_bool sleep_limit
      (backoff_factor * (1 + unit_interval (random_bits o (draws s))))
    || Qle_bool
         (backoff_factor * (1 + unit_interval (random_bits o (draws s))))
         (- sleep_limit) = false).
  { apply sleep_time_fits; unfold sleepable in *; nra. }
  assert (Hgo :
    (let! j := random_random o in
     time_sleep o (backoff_factor * (1 + j))%Q
     >> retry_loop o url n (backoff_factor * 2)%Q)
      (State (all_books s) (fs s) (requests s ++ [url]) (draws s) (sleeps s)
         (S (ticks s)))
    = (Raise ValueError,
       State (all_books s) (fs s) (requests s ++ [url]) (S (draws s))
         (sleeps s) (S (ticks s)))).
  { unfold bind, random_random, time_sleep. simpl. by rewrite Hin, Hneg. }
  destruct (net o (length (requests s)) url) as [|st body u];
    simpl in Hnet.
  - rewrite Hgo. eauto.
  - rewrite Hnet, Hgo. eauto.
Qed.

End FetcherMore.

(** ** What every run preserves

    Rules for [sat], by the structure of the monad. *)

Section Rules.
Context {R : relation state} `{!PreOrder R}.

Lemma sat_ret {A} (E : exn -> Prop) (Q : A -> Prop) (a : A) :
  Q a -> sat R E Q (ret a).
Proof.
  intros Ha s r s' [= <- <-]. split; [reflexivity|].
  split; [done|]. by intros a' [= <-].
Qed.

Lemma sat_lift {A} (E : exn -> Prop) (Q : A -> Prop) (r : pyres A) :
  (forall e, r = Raise e -> E e) -> (forall a, r = Ret a -> Q a) ->
  sat R E Q (lift r).
Proof. intros He Ha s r' s' [= <- <-]. split; [reflexivity|]. done. Qed.

Lemma sat_bind {A B} (E : exn -> Prop) (Q : A -> Prop) (Q' : B -> Prop)
    (m : M A) (f : A -> M B) :
  sat R E Q m -> (forall a, Q a -> sat R E Q' (f a)) ->
  sat R E Q' (bind m f).
Proof.
  intros Hm Hf s r s'. unfold bind.
  destruct (m s) as [[a|e] s1] eqn:Hms.
  - intros Hfs. destruct (Hm _ _ _ Hms) as (HR & _ & HQ).
    destruct (Hf a (HQ a eq_refl) _ _ _ Hfs) as (HR' & HE & HQ').
    split; [by etrans|]. done.
  - intros [= <- <-]. destruct (Hm _ _ _ Hms) as (HR & HE & _).
    split; [done|]. split; [|done]. intros e' [= <-]. by apply HE.
Qed.

Lemma sat_try_except {A} (E' E : exn -> Prop) (Q : A -> Prop)
    (m : M A) (handler : exn -> M A) :
  sat R E' Q m ->
  (forall e, E' e -> is_Exception e = true -> sat R E Q (handler e)) ->
  (forall e, E' e -> is_Exception e = false -> E e) ->
  sat R E Q (try_except m handler).
Proof.
  intros Hm Hh Hpass s r s'. unfold try_except.
  destruct (m s) as [[a|e] s1] eqn:Hms.
  - intros [= <- <-]. destruct (Hm _ _ _ Hms) as (HR & _ & HQ).
    split; [done|]. split; done.
  - destruct (Hm _ _ _ Hms) as (HR & HE & _).
    destruct (is_Exception e) eqn:Hexc.
    + intros Hhs.
      destruct (Hh e (HE e eq_refl) Hexc _ _ _ Hhs) as (HR' & HE' & HQ').
      split; [by etrans|]. done.
    + intros [= <- <-]. split; [done|]. split; [|done].
      intros e' [= <-]. by apply Hpass; [apply HE|].
Qed.

Lemma sat_weaken {A} (E E' : exn -> Prop) (Q Q' : A -> Prop) (m : M A) :
  sat R E Q m -> (forall e, E e -> E' e) -> (forall a, Q a -> Q' a) ->
  sat R E' Q' m.
Proof.
  intros Hm HE HQ s r s' Hms. destruct (Hm _ _ _ Hms) as (HR & He & Ha).
  split; [done|]. split; eauto.
Qed.

End Rules.

Section ExtendsRules.
Context `{!Libraries}.

#[global] Instance extends_preorder : PreOrder extends.
Proof.
  split.
  - intros s. split; [|split].
    + exists []. by rewrite app_nil_r.
    + by left.
    + done.
  - intros s1 s2 s3 ((n1 & Hn1 & Hw1) & Hj1 & Hf1) ((n2 & Hn2 & Hw2) & Hj2 & Hf2).
    split; [|split].
    + exists (n1 ++ n2). rewrite Hn2, Hn1, <- app_assoc. split; [done|].
      by apply Forall_app.
    + destruct Hj2 as [Heq|(b & Hb1 & Hb2 & Hb)].
      * rewrite Heq. destruct Hj1 as [?|(b & Hb1 & Hb2 & Hb)]; [by left|].
        right. exists b. split; [done|]. split; [|done].
        etrans; [done|]. rewrite Hn2. by apply prefix_app_r.
      * right. exists b. split; [|done].
        etrans; [|done]. rewrite Hn1. by apply prefix_app_r.
    + intros p H1 H2 H3. by rewrite Hf2, Hf1.
Qed.

Lemma extends_of_frame (s s' : state) :
  all_books s' = all_books s -> fs s' = fs s -> extends s s'.
Proof.
  intros Hb Hf. split; [|split].
  - exists []. by rewrite app_nil_r.
  - left. by rewrite Hf.
  - intros p _ _ _. by rewrite Hf.
Qed.

Lemma sat_of_frame {A} (E : exn -> Prop) (m : M A) :
  frame m ->
  (forall s e s', m s = (Raise e, s') -> E e) ->
  sat extends E any m.
Proof.
  intros Hframe Hexn s r s' Hms. destruct (Hframe _ _ _ Hms) as [Hb Hf].
  split; [by apply extends_of_frame|]. split; [|done].
  intros e ->. by eapply Hexn.
Qed.

End ExtendsRules.

(** ** The crawl keeps what it has *)

Section CrawlInvariant.
Context `{!Libraries}.
Variable o : oracle.

Lemma requests_get_raises (url : string) (s s' : state) (e : exn) :
  requests_get o url s = (Raise e, s') -> interrupted_by o e.
Proof.
  unfold requests_get. destruct (sigint o (ticks s)) eqn:Hi; [|done].
  intros [= <- _]. split; eauto.
Qed.

Lemma time_sleep_raises (t : Q) (s s' : state) (e : exn) :
  (0 <= t)%Q -> (t <= sleepable)%Q ->
  time_sleep o t s = (Raise e, s') -> interrupted_by o e.
Proof.
  intros Ht Hfit. unfold time_sleep.
  rewrite sleep_time_fits by (done || unfold sleepable in *; lra).
  rewrite (proj2 (Qle_bool_iff 0 t) Ht). simpl.
  destruct (sigint o (ticks s)) eqn:Hi; [|done].
  intros [= <- _]. split; eauto.
Qed.

Lemma sat_requests_get (url : string) :
  sat extends (interrupted_by o) any (requests_get o url).
Proof.
  apply sat_of_frame; [apply frame_requests_get|].
  intros s e s'. apply requests_get_raises.
Qed.

Lemma sat_random_random (E : exn -> Prop) :
  sat extends E any (random_random o).
Proof. apply sat_of_frame; [apply frame_random_random|]. by intros s e s'. Qed.

Lemma sat_time_sleep (t : Q) :
  (0 <= t)%Q -> (t <= sleepable)%Q ->
  sat extends (interrupted_by o) any (time_sleep o t).
Proof.
  intros Ht Hfit. apply sat_of_frame; [apply frame_time_sleep|].
  intros s e s'. by apply time_sleep_raises.
Qed.

(** A pause drawn by [random.uniform(a, b)] with [0 <= a <= b] and slept. *)
Lemma sat_pause (a b : Q) :
  (0 <= a)%Q -> (a <= b)%Q -> (b <= sleepable)%Q ->
  sat extends (interrupted_by o) any
      (let! pause := random_uniform o a b in time_sleep o pause).
Proof.
  intros Ha Hb Hfit. unfold random_uniform.
  intros s r s'. unfold bind at 1 2. unfold random_random at 1.
  unfold ret at 1. intros Hrun.
  destruct (unit_interval_bounds (random_bits o (draws s))) as [? ?].
  assert (0 <= a + (b - a) * unit_interval (random_bits o (draws s)))%Q
    as Ht by nra.
  assert (a + (b - a) * unit_interval (random_bits o (draws s))
          <= sleepable)%Q as Ht' by nra.
  destruct (sat_time_sleep _ Ht Ht' _ _ _ Hrun) as (Hext & He & Hq).
  split; [|done].
  etrans; [|exact Hext]. by apply extends_of_frame.
Qed.

Lemma sat_retry_loop (url : string) (n : nat) (delay : Q) :
  (0 <= delay)%Q ->
  (delay * 2 ^ Z.of_nat n <= sleepable)%Q ->
  sat extends (interrupted_by o) any (retry_loop o url n delay).
Proof.
  revert delay. induction n as [|n IH]; intros delay Hd Hfit;
    [by apply sat_ret|].
  cbn [retry_loop]. rewrite <- double_power in Hfit.
  pose proof (power_ge_1 n) as Hpow.
  assert (delay * 2 <= sleepable)%Q as Hfit1 by (unfold sleepable in *; nra).
  eapply sat_bind; [apply sat_requests_get|].
  assert (Hbackoff : sat extends (interrupted_by o) any
    (let! j := random_random o in
     time_sleep o (delay * (1 + j))%Q >> retry_loop o url n (delay * 2)%Q)).
  { intros s r s'. unfold bind at 1. unfold random_random at 1.
    intros Hrun.
    destruct (unit_interval_bounds (random_bits o (draws s))) as [? ?].
    assert (sat extends (interrupted_by o) any
              (time_sleep o
                 (delay * (1 + unit_interval (random_bits o (draws s))))%Q
               >> retry_loop o url n (delay * 2)%Q)) as Hrest.
    { eapply sat_bind; [apply sat_time_sleep; unfold sleepable in *; nra|].
      intros _ _. apply IH; [lra|done]. }
    destruct (Hrest _ _ _ Hrun) as (Hext & He & Hq).
    split; [|done]. etrans; [|exact Hext]. by apply extends_of_frame. }
  intros [|st body u] _; [done|].
  destruct (st =? 200)%Z; [by apply sat_ret|done].
Qed.

Lemma table_rows_info_values (rows : list node) (info info' : record) :
  table_rows_info rows info = Ret info' ->
  (forall k v, info !! k = Some v -> is_Some v) ->
  forall k v, info' !! k = Some v -> is_Some v.
Proof.
  revert info. induction rows as [|row rows IH]; intros info; simpl.
  - by intros [= <-].
  - destruct (find (has_name "th") row) as [th|]; [|done].
    destruct (find (has_name "td") row) as [td|]; [|done].
    intros Hrun Hinfo. apply (IH _ Hrun).
    intros k v. rewrite lookup_insert. case_decide; [|apply Hinfo].
    intros [= <-]. eauto.
Qed.

Lemma parse_product_body_values (soup : node) (final_url : string)
    (d : record) :
  parse_product_body soup final_url = Ret d -> detail_values d.
Proof.
  unfold parse_product_body.
  destruct (detail_info soup) as [info|e] eqn:Hinfo; simpl; [|done].
  intros [= <-]. unfold detail_record. intros k v Hk Hcat.
  assert (forall k v, info !! k = Some v -> is_Some v) as Hvals.
  { unfold detail_info in Hinfo.
    destruct (find_info_table soup) as [table|].
    - eapply table_rows_info_values; [done|]. by intros ??.
    - injection Hinfo as <-. by intros ??. }
  rewrite lookup_insert in Hk. case_decide; [injection Hk as <-; eauto|].
  apply lookup_union_Some_raw in Hk as [Hk|[_ Hk]]; [by eapply Hvals|].
  rewrite lookup_insert in Hk. case_decide; [injection Hk as <-; eauto|].
  rewrite lookup_insert in Hk. case_decide; [congruence|done].
Qed.

Lemma sat_parse_product_page (url : string) :
  sat extends (interrupted_by o) detail_values (parse_product_page o url).
Proof.
  unfold parse_product_page.
  eapply sat_bind.
  { apply sat_retry_loop; unfold default_backoff_factor; [lra|].
    vm_compute. discriminate. }
  intros [[soup final_url]|] _; [|by apply sat_ret].
  eapply sat_try_except with (E' := fun e => is_Exception e = true).
  - apply sat_lift.
    + intros e He. by apply parse_product_body_raises in He as ->.
    + intros d. apply parse_product_body_values.
  - intros e _ _. by apply sat_ret.
  - intros e He Hn. congruence.
Qed.

Lemma parse_list_item_well_listed (art : node) (base : string)
    (item : record) :
  parse_list_item art base = Ret item -> well_listed item.
Proof.
  intros Hitem.
  destruct (parse_list_item_inv _ _ _ Hitem)
    as (h3 & a & _ & _ & _ & Ht & (link & _ & Hu) & Hp & Ha & Hr
        & (img & _ & Hi)).
  intros k Hk. unfold listing_fields in Hk. set_unfold in Hk.
  destruct_or!; subst k; eauto.
Qed.

Lemma update_well_listed (detail item : record) :
  detail_values detail -> well_listed item -> well_listed (detail ∪ item).
Proof.
  intros Hd Hi k Hk. destruct (Hi k Hk) as [v Hv].
  destruct (detail !! k) as [w|] eqn:Hw.
  - destruct (Hd k w Hw) as [w' ->].
    { intros ->. unfold listing_fields in Hk. set_unfold in Hk.
      destruct_or!; discriminate. }
    exists w'. by apply lookup_union_Some_l.
  - exists v. by rewrite lookup_union_r.
Qed.

Lemma sat_append_book (E : exn -> Prop) (r : record) :
  well_listed r -> sat extends E any (append_book r).
Proof.
  intros Hr s res s' [= <- <-]. split; [|done].
  split; [|split].
  - exists [r]. split; [done|]. by constructor.
  - by left.
  - done.
Qed.

Lemma sat_safe_write_json_partial (E : exn -> Prop) :
  sat extends E any (fun s => safe_write_json_partial (all_books s) s).
Proof.
  intros s r s' [= <- <-]. split; [|done].
  split; [|split].
  - exists []. simpl. by rewrite app_nil_r.
  - right. exists (all_books s). simpl. split; [done|]. split; [done|].
    apply lookup_insert_eq.
  - intros p H1 H2 _. simpl. rewrite lookup_insert_ne by done.
    by rewrite lookup_delete_ne.
Qed.

Lemma sat_periodic_checkpoint (E : exn -> Prop) :
  sat extends E any periodic_checkpoint.
Proof.
  intros s r s'. unfold periodic_checkpoint.
  destruct (_ =? 0)%Z; [apply sat_safe_write_json_partial|].
  apply (sat_ret (R := extends)). done.
Qed.

Lemma sat_process_article (base : string) (art : node) :
  sat extends (interrupted_by o) any (process_article o base art).
Proof.
  unfold process_article.
  eapply sat_bind; [|intros _ _; apply sat_periodic_checkpoint].
  eapply sat_try_except with (E' := caught_or_interrupted_by o) (Q := any).
  - eapply sat_bind with (Q := well_listed).
    { apply sat_lift.
      - intros e He. left.
        by apply parse_list_item_raises_only in He as [->| ->].
      - intros item. apply parse_list_item_well_listed. }
    intros item Hitem.
    eapply sat_bind with (Q := any).
    { apply sat_lift; [|done]. intros e. unfold item_url.
      destruct (item !! "product_page_url") as [[u|]|]; [done| |];
        intros [= <-]; by left. }
    intros url _.
    eapply sat_bind.
    { eapply sat_weaken; [apply sat_parse_product_page| |done].
      intros e He. by right. }
    intros detail Hdetail. cbv beta.
    eapply sat_bind with (Q := any).
    { apply sat_append_book. by apply update_well_listed. }
    intros _ _.
    eapply sat_weaken; [apply (sat_pause 0.4 1.2)| |done];
      [lra|lra|unfold sleepable; lra|].
    intros e He. by right.
  - intros e _ _. by apply sat_ret.
  - intros e [He|He] Hn; [congruence|done].
Qed.

Lemma sat_for_articles (base : string) (articles : list node) :
  sat extends (interrupted_by o) any (for_articles o base articles).
Proof.
  induction articles as [|art articles IH]; [by apply sat_ret|].
  cbn [for_articles].
  eapply sat_bind; [apply sat_process_article|]. intros _ _. apply IH.
Qed.

Lemma sat_crawl_loop (fuel : nat) (page max_pages : Z) :
  sat extends (interrupted_or_unjoined o) any
      (crawl_loop o fuel page max_pages).
Proof.
  revert page. induction fuel as [|fuel IH]; intros page;
    [by apply sat_ret|].
  cbn [crawl_loop]. destruct (page <=? max_pages)%Z; [|by apply sat_ret].
  eapply sat_bind with (Q := any).
  { apply sat_lift; [|done]. intros e He. right. eauto. }
  intros url _.
  eapply sat_bind.
  { eapply sat_weaken; [apply sat_retry_loop| |done].
    - unfold default_backoff_factor. lra.
    - vm_compute. discriminate.
    - intros e He. by left. }
  intros [[soup page_final_url]|] _; [|by apply sat_ret].
  destruct (select_product_pods soup) as [|art articles]; [by apply sat_ret|].
  eapply sat_bind.
  { eapply sat_weaken; [apply sat_for_articles| |done]. intros e He. by left. }
  intros _ _.
  eapply sat_bind.
  { eapply sat_weaken; [apply (sat_pause 0.8 2.5)| |done];
      [lra|lra|unfold sleepable; lra|]. intros e He. by left. }
  intros _ _. apply IH.
Qed.

Lemma safe_write_csv_returns (books : list record) (s : state) :
  exists f,
    safe_write_csv books s = (Ret tt, set_fs f s)
    /\ forall p, p <> RAW_CSV -> f !! p = fs s !! p.
Proof.
  destruct books as [|row books].
  - exists (fs s). split; [|done]. by destruct s.
  - rewrite safe_write_csv_nonempty by done. eexists. split; [done|].
    intros p Hp. by rewrite lookup_insert_ne.
Qed.

Lemma sat_safe_write_csv (E : exn -> Prop) :
  sat extends E any (fun s => safe_write_csv (all_books s) s).
Proof.
  intros s r s'.
  destruct (safe_write_csv_returns (all_books s) s) as (f & -> & Hf).
  intros [= <- <-]. split; [|done].
  split; [|split].
  - exists []. simpl. by rewrite app_nil_r.
  - left. simpl. by apply Hf.
  - intros p _ _ Hp. simpl. by apply Hf.
Qed.

Lemma sat_finalize (E : exn -> Prop) : sat extends E any finalize.
Proof.
  unfold finalize.
  eapply sat_bind; [apply sat_safe_write_json_partial|].
  intros _ _. apply sat_safe_write_csv.
Qed.

Lemma sat_crawl_and_finalize (max_pages : Z) :
  sat extends (interrupted_or_unjoined o) any
      (crawl_loop o (Z.to_nat max_pages) 1 max_pages >> finalize).
Proof.
  eapply sat_bind; [apply sat_crawl_loop|]. intros _ _. apply sat_finalize.
Qed.

End CrawlInvariant.

(** ** [scrape_all] as a whole *)

Section ScrapeAllProperties.
Context `{!Libraries}.
Variable o : oracle.

Lemma finalize_spec (s : state) :
  exists s',
    finalize s = (Ret tt, s')
    /\ all_books s' = all_books s
    /\ fs s' !! RAW_JSON = Some (json_dump (all_books s))
    /\ fs s' !! RAW_TMP = None
    /\ requests s' = requests s
    /\ sleeps s' = sleeps s.
Proof.
  assert (finalize s
          = safe_write_csv (all_books s)
              (set_fs (fs_at Replaced (all_books s) (fs s)) s)) as ->
    by reflexivity.
  destruct (safe_write_csv_returns (all_books s)
              (set_fs (fs_at Replaced (all_books s) (fs s)) s))
    as (f & -> & Hf).
  eexists. split; [reflexivity|]. simpl.
  split; [done|]. rewrite !Hf by discriminate. simpl.
  split; [apply lookup_insert_eq|]. split; [|done].
  rewrite lookup_insert_ne by discriminate. apply lookup_delete_eq.
Qed.

Lemma bind_ret_inv {A B} (m : M A) (f : A -> M B) (s s' : state) (b : B) :
  bind m f s = (Ret b, s') ->
  exists a s1, m s = (Ret a, s1) /\ f a s1 = (Ret b, s').
Proof.
  unfold bind. destruct (m s) as [[a|e] s1]; [eauto|done].
Qed.

(** X9. Started on a checkpoint that is absent or its own, and with a
    [urljoin] that accepts the names of the listing pages, [scrape_all]
    raises nothing but [KeyboardInterrupt], and only when the environment
    sent an interrupt: no failure of a request, of a page or of an entry
    leaves it as an exception. (The hypothesis on the checkpoint is not
    used by the proof: it confines the statement to the runs that
    [load_checkpoint] follows.) *)
Theorem scrape_all_raises_only_interrupt (max_pages : Z) (s s' : state)
    (e : exn) :
  own_checkpoint s ->
  (forall page, raises (page_url page) = false) ->
  scrape_all o max_pages s = (Raise e, s') ->
  e = KeyboardInterrupt /\ exists k, sigint o k = true.
Proof.
  intros _ Hpages. rewrite scrape_all_starts_with_load. intros Hrun.
  destruct (sat_crawl_and_finalize o max_pages _ _ _ Hrun) as (_ & He & _).
  destruct (He e eq_refl) as [Hint|[page Hpage]]; [done|].
  specialize (Hpages page). by rewrite Hpage in Hpages.
Qed.


(** X11. When [scrape_all] returns, the checkpoint file holds the
    serialization of the whole accumulator and the temporary file is
    gone. *)
Theorem scrape_all_return_checkpoint (max_pages : Z) (s s' : state) :
  scrape_all o max_pages s = (Ret tt, s') ->
  fs s' !! RAW_JSON = Some (json_dump (all_books s'))
  /\ fs s' !! RAW_TMP = None.
Proof.
  rewrite scrape_all_starts_with_load. intros Hrun.
  apply bind_ret_inv in Hrun as (_ & s1 & _ & Hfin).
  destruct (finalize_spec s1) as (s2 & Hfin' & Hb & Hj & Ht & _ & _).
  rewrite Hfin' in Hfin. injection Hfin as <-. by rewrite Hb.
Qed.

(** X12. Started on a checkpoint that is absent or its own, with a
    [urljoin] that accepts the names of the listing pages and without an
    interrupt, [scrape_all] returns, whatever the network answers and
    whatever the pages hold. *)
Theorem scrape_all_returns_uninterrupted (max_pages : Z) (s : state) :
  own_checkpoint s ->
  (forall page, raises (page_url page) = false) ->
  uninterrupted o ->
  exists s', scrape_all o max_pages s = (Ret tt, s').
Proof.
  intros _ Hpages Hq.
  destruct (scrape_all o max_pages s) as [[[]|e] s'] eqn:Hrun; [eauto|].
  rewrite scrape_all_starts_with_load in Hrun.
  destruct (sat_crawl_and_finalize o max_pages _ _ _ Hrun) as (_ & He & _).
  destruct (He e eq_refl) as [[_ [k Hk]]|[page Hpage]].
  - by rewrite Hq in Hk.
  - specialize (Hpages page). by rewrite Hpage in Hpages.
Qed.

(** X13. With a page limit of zero or less [scrape_all], started on a
    checkpoint that is absent or its own, requests nothing: it returns with
    the accumulator read from the checkpoint and writes it back. *)
Theorem scrape_all_no_pages (max_pages : Z) (s : state) :
  own_checkpoint s ->
  max_pages <= 0 ->
  exists s',
    scrape_all o max_pages s = (Ret tt, s')
    /\ requests s' = requests s
    /\ all_books s' = loaded s
    /\ fs s' !! RAW_JSON = Some (json_dump (loaded s)).
Proof.
  intros _ Hmax. rewrite scrape_all_starts_with_load.
  replace (Z.to_nat max_pages) with 0%nat by lia. cbn [crawl_loop].
  unfold bind at 1. unfold ret at 1.
  destruct (finalize_spec (load_checkpoint s).2)
    as (s' & -> & Hb & Hj & _ & Hr & _).
  exists s'. split; [done|]. by rewrite Hr.
Qed.

(** X14. A first listing page without any product entry ends the crawl
    (started on a checkpoint that is absent or its own): one request, no
    sleep, and the accumulator read from the checkpoint is written back
    unchanged. *)
Theorem scrape_all_empty_listing (max_pages : Z) (s : state) (url : string)
    (soup : node) (final_url : string) :
  own_checkpoint s ->
  1 <= max_pages ->
  page_url 1 = Ret url ->
  sigint o (ticks s) = false ->
  net o (length (requests s)) url = Response 200 soup final_url ->
  select_product_pods soup = [] ->
  exists s',
    scrape_all o max_pages s = (Ret tt, s')
    /\ requests s' = requests s ++ [url]
    /\ sleeps s' = sleeps s
    /\ all_books s' = loaded s
    /\ fs s' !! RAW_JSON = Some (json_dump (loaded s)).
Proof.
  intros _ Hmax Hurl Hi Hnet Hpods. rewrite scrape_all_starts_with_load.
  destruct (Z.to_nat max_pages) as [|fuel] eqn:Hfuel; [lia|].
  cbn [crawl_loop]. rewrite (proj2 (Z.leb_le 1 max_pages) Hmax).
  rewrite Hurl. unfold bind at 1. unfold bind at 1. unfold lift at 1.
  unfold bind at 1. unfold get_soup_and_url.
  change (Z.to_nat default_max_retries) with 4%nat.
  rewrite (retry_loop_step_ok o _ _ _ _ soup final_url); [|done|done].
  rewrite Hpods. unfold ret at 1.
  match goal with |- context [finalize ?s1] =>
    destruct (finalize_spec s1) as (s' & -> & Hb & Hj & _ & Hr & Hs) end.
  exists s'. simpl in *. done.
Qed.

(** X15. When the first listing page cannot be fetched, [scrape_all]
    (started on a checkpoint that is absent or its own) gives up after the
    four attempts of the fetcher's default budget and no page after it is
    asked for: it returns with the accumulator read from the checkpoint and
    writes it back. *)
Theorem scrape_all_dead_start (max_pages : Z) (s : state) (url : string) :
  own_checkpoint s ->
  1 <= max_pages ->
  page_url 1 = Ret url ->
  uninterrupted o ->
  (forall k, is_ok (net o k url) = false) ->
  exists s',
    scrape_all o max_pages s = (Ret tt, s')
    /\ requests s' = requests s ++ replicate 4 url
    /\ all_books s' = loaded s
    /\ fs s' !! RAW_JSON = Some (json_dump (loaded s)).
Proof.
  intros _ Hmax Hurl Hq Hnet. rewrite scrape_all_starts_with_load.
  destruct (Z.to_nat max_pages) as [|fuel] eqn:Hfuel; [lia|].
  cbn [crawl_loop]. rewrite (proj2 (Z.leb_le 1 max_pages) Hmax).
  rewrite Hurl. unfold bind at 1. unfold bind at 1. unfold lift at 1.
  unfold bind at 1. unfold get_soup_and_url.
  change (Z.to_nat default_max_retries) with 4%nat.
  rewrite (retry_loop_never_ok o url 4 Hnet Hq);
    [|unfold default_backoff_factor; lra|vm_compute; discriminate].
  unfold ret at 1.
  match goal with |- context [finalize ?s1] =>
    destruct (finalize_spec s1) as (s' & -> & Hb & Hj & _ & Hr & Hs) end.
  exists s'. simpl in *. done.
Qed.

Lemma parse_list_item_no_anchor (art : node) (base : string) :
  has_anchor art = false -> parse_list_item art base = Raise AttributeError.
Proof.
  unfold has_anchor, parse_list_item.
  destruct (find (has_name "h3") art) as [h3|]; [|done].
  destruct (find (has_name "a") h3) as [a|]; [|done].
  rewrite bool_decide_eq_true_2; eauto. done.
Qed.

(** For an entry the listing parser cannot read, the body of the article
    loop is the periodic checkpoint and nothing else. *)
Lemma process_article_unreadable (base : string) (art : node) (s : state) :
  readable base art = false ->
  process_article o base art s = periodic_checkpoint s.
Proof.
  unfold readable. intros Hraise.
  destruct (parse_list_item art base) as [item|e] eqn:Hitem; [done|].
  apply parse_list_item_raises_only in Hitem as Hexn.
  unfold process_article, bind at 1, try_except, bind at 1, lift.
  rewrite Hitem. by destruct Hexn as [-> | ->].
Qed.

Lemma process_article_without_anchor (base : string) (art : node)
    (s : state) :
  has_anchor art = false ->
  process_article o base art s = periodic_checkpoint s.
Proof.
  intros Hanchor. apply process_article_unreadable. unfold readable.
  by rewrite parse_list_item_no_anchor.
Qed.

(** X16. An entry without a heading or without an anchor in it is
    skipped: the body of the article loop returns, appends nothing, requests
    nothing and sleeps nothing. *)
Theorem process_article_skips_unreadable (base : string) (art : node)
    (s : state) :
  has_anchor art = false ->
  exists s',
    process_article o base art s = (Ret tt, s')
    /\ all_books s' = all_books s
    /\ requests s' = requests s
    /\ sleeps s' = sleeps s.
Proof.
  intros Hanchor. rewrite process_article_without_anchor by done.
  unfold periodic_checkpoint.
  destruct (_ =? 0)%Z; eexists; (split; [reflexivity|]); done.
Qed.

End ScrapeAllProperties.

(** ** The article loop *)

Section ArticleLoopProperties.
Context `{!Libraries}.
Variable o : oracle.

#[local] Instance same_files_preorder : PreOrder same_files.
Proof.
  split; [done|]. intros s1 s2 s3 H1 H2. unfold same_files in *. congruence.
Qed.

Lemma sat_files_of_frame {A} (m : M A) :
  frame m -> sat same_files any any m.
Proof.
  intros Hframe s r s' Hms. destruct (Hframe _ _ _ Hms) as [_ Hf]. done.
Qed.

(** The guarded part of the article loop's body writes no file. *)
Lemma article_try_writes_nothing (base : string) (art : node) :
  sat same_files any any
    (try_except
       (let! item := lift (parse_list_item art base) in
        let! url := lift (item_url item) in
        let! detail := parse_product_page o url in
        append_book (detail ∪ item) >>
        let! pause := random_uniform o 0.4 1.2 in
        time_sleep o pause)
       (fun _ => ret tt)).
Proof.
  eapply sat_try_except with (E' := any) (Q := any); [| |done].
  - eapply sat_bind with (Q := any); [by apply sat_lift|]. intros item _.
    eapply sat_bind with (Q := any); [by apply sat_lift|]. intros url _.
    eapply sat_bind with (Q := any).
    { apply sat_files_of_frame, frame_parse_product_page. }
    intros detail _.
    eapply sat_bind with (Q := any).
    { by intros s r s' [= <- <-]. }
    intros _ _. apply sat_files_of_frame.
    apply frame_bind; [|intros pause; apply frame_time_sleep].
    apply frame_bind; [apply frame_random_random|]. intros u.
    apply frame_ret.
  - intros e _ _. by apply sat_ret.
Qed.

(** X17. After each entry the checkpoint is saved exactly when the length
    of the accumulator is a multiple of 20 (an entry that was skipped
    included); otherwise the body of the article loop leaves every file as
    it was. *)
Theorem article_checkpoint_cadence (base : string) (art : node)
    (s s' : state) :
  process_article o base art s = (Ret tt, s') ->
  (Z.of_nat (length (all_books s')) mod 20 = 0 ->
   fs s' !! RAW_JSON = Some (json_dump (all_books s'))
   /\ fs s' !! RAW_TMP = None)
  /\ (Z.of_nat (length (all_books s')) mod 20 <> 0 -> fs s' = fs s).
Proof.
  unfold process_article. intros Hrun.
  apply bind_ret_inv in Hrun as ([] & s1 & Htry & Hcheck).
  destruct (article_try_writes_nothing base art _ _ _ Htry) as (Hfs & _).
  unfold same_files in Hfs. unfold periodic_checkpoint in Hcheck.
  destruct (Z.eqb_spec (Z.of_nat (length (all_books s1)) mod 20) 0)
    as [Hmod|Hmod].
  - injection Hcheck as <-. simpl. split; [|done]. intros _.
    split; [apply lookup_insert_eq|].
    rewrite lookup_insert_ne by discriminate. apply lookup_delete_eq.
  - injection Hcheck as <-. split; [done|]. by intros _.
Qed.





End ArticleLoopProperties.

(** ** The parsers and the store *)

Section ParserMore.
Context `{!Libraries}.

Lemma rating_word_spec (cs : list string) :
  rating_word cs <> "star-rating"
  /\ (rating_word cs = EmptyString \/ rating_word cs ∈ cs).
Proof.
  unfold rating_word.
  destruct (filter (fun c => c ≠ "star-rating") cs) as [|c rest] eqn:Hf.
  - split; [discriminate|by left].
  - assert (c ∈ filter (fun c => c ≠ "star-rating") cs) as Hc
      by (rewrite Hf; left).
    apply list_elem_of_filter in Hc as [Hne Hin]. split; [done|by right].
Qed.

(** X4. The rating text of a listing record is never the class name
    [star-rating]: it is the empty string or another class of the rating
    paragraph of the entry. *)
Theorem rating_text_is_a_rating_token (art : node) (base : string)
    (item : record) :
  parse_list_item art base = Ret item ->
  exists w,
    item !! "rating_text" = Some (Some w)
    /\ w <> "star-rating"
    /\ (w = EmptyString
        \/ exists p, rating_tag_of art = Some p /\ w ∈ tag_classes p).
Proof.
  intros Hitem.
  destruct (parse_list_item_inv _ _ _ Hitem)
    as (_ & _ & _ & _ & _ & _ & _ & _ & _ & Hr & _).
  eexists. split; [exact Hr|].
  destruct (rating_tag_of art) as [p|]; simpl.
  - destruct (rating_word_spec (tag_classes p)) as [Hne [He|Hin]];
      split; eauto.
  - split; [discriminate|by left].
Qed.

(** X5. A detail record that [parse_product_body] returns for a [plain]
    page binds [fetched_url] to the final URL, has a category and a
    description, and binds no key but [category] to [None]; its keys are
    these three and the headers of the attribute table, a header of the
    table overrides the category and the description read from the page,
    and only [fetched_url] overrides a header. (That the page is [plain] is
    not used by the proof: it confines the statement to the pages on which
    the headers stripped by [strip] are those stripped by [str.strip()].) *)
Theorem detail_record_fields (soup : node) (final_url : string) (d : record) :
  plain_node soup = true ->
  parse_product_body soup final_url = Ret d ->
  d !! "fetched_url" = Some (Some final_url)
  /\ is_Some (d !! "category")
  /\ (exists desc, d !! "description" = Some (Some desc))
  /\ (forall k, k <> "category" -> d !! k <> Some None)
  /\ exists info,
       detail_info soup = Ret info
       /\ dom d = {[ "fetched_url"; "category"; "description" ]} ∪ dom info
       /\ (forall k v, k <> "fetched_url" -> info !! k = Some v ->
                       d !! k = Some v)
       /\ (info !! "category" = None ->
           d !! "category" = Some (detail_category soup))
       /\ (info !! "description" = None ->
           d !! "description" = Some (Some (detail_description soup))).
Proof.
  intros _ Hd. pose proof (parse_product_body_values _ _ _ Hd) as Hvals.
  unfold parse_product_body in Hd.
  destruct (detail_info soup) as [info|e] eqn:Hinfo; simpl in Hd; [|done].
  injection Hd as <-.
  destruct (detail_record_lookup (detail_category soup)
              (detail_description soup) info final_url)
    as (Hf & Hc & Hdesc & Hover & Hdom).
  split; [done|].
  split.
  { apply elem_of_dom. rewrite Hdom. set_unfold. tauto. }
  split.
  { assert ("description" ∈ dom (detail_record (detail_category soup)
              (detail_description soup) info final_url)) as Hin.
    { rewrite Hdom. set_unfold. tauto. }
    apply elem_of_dom in Hin as [v Hv].
    destruct (Hvals _ _ Hv ltac:(discriminate)) as [desc ->]. eauto. }
  split.
  { intros k Hk Hnone. by destruct (Hvals _ _ Hnone Hk). }
  exists info. done.
Qed.

Lemma table_rows_info_app (l1 l2 : list node) (info : record) :
  table_rows_info (l1 ++ l2) info
  = pyres_bind (table_rows_info l1 info) (table_rows_info l2).
Proof.
  revert info. induction l1 as [|row l1 IH]; intros info; simpl; [done|].
  destruct (find (has_name "th") row) as [th|]; [|done].
  destruct (find (has_name "td") row) as [td|]; [|done]. apply IH.
Qed.

Lemma table_rows_info_other_key (rows : list node) (info info' : record)
    (k : string) :
  table_rows_info rows info = Ret info' ->
  Forall (fun row => row_header row <> Some k) rows ->
  info' !! k = info !! k.
Proof.
  revert info. induction rows as [|row rows IH]; intros info; simpl.
  - by intros [= <-].
  - intros Hrun Hrows. apply Forall_cons in Hrows as [Hrow Hrows].
    unfold row_header in Hrow.
    destruct (find (has_name "th") row) as [th|]; [|done].
    destruct (find (has_name "td") row) as [td|]; [|done].
    rewrite (IH _ Hrun Hrows). apply lookup_insert_ne.
    intros Heq. apply Hrow. simpl. by rewrite Heq.
Qed.

(** X6. When two rows of the attribute table have the same header, the
    later one wins: the record binds a header to the data cell of the last
    row that carries it. (The rows are [plain], which the proof does not
    use: on such rows two headers are the same for [strip] exactly when
    they are the same for [str.strip()].) *)
Theorem table_rows_last_header_wins (pre post : list node) (row th td : node)
    (info info' : record) :
  Forall (fun r => plain_node r = true) (pre ++ row :: post) ->
  table_rows_info (pre ++ row :: post) info = Ret info' ->
  find (has_name "th") row = Some th ->
  find (has_name "td") row = Some td ->
  Forall (fun later => row_header later <> Some (strip (text th))) post ->
  info' !! strip (text th) = Some (Some (strip (text td))).
Proof.
  intros _ Hrun Hth Htd Hpost. rewrite table_rows_info_app in Hrun.
  destruct (table_rows_info pre info) as [info1|e]; [|done].
  simpl in Hrun. rewrite Hth, Htd in Hrun.
  rewrite (table_rows_info_other_key _ _ _ _ Hrun Hpost).
  apply lookup_insert_eq.
Qed.

End ParserMore.

Section StoreMore.
Context `{!Libraries}.

(** X7. A checkpoint save returns, leaves the serialized list in the
    checkpoint file and no temporary file behind, and changes no other file,
    nor the accumulator, nor the requests made. *)
Theorem save_leaves_only_the_checkpoint (books : list record) (s : state) :
  exists s',
    safe_write_json_partial books s = (Ret tt, s')
    /\ fs s' !! RAW_JSON = Some (json_dump books)
    /\ fs s' !! RAW_TMP = None
    /\ (forall p, p <> RAW_JSON -> p <> RAW_TMP -> fs s' !! p = fs s !! p)
    /\ all_books s' = all_books s
    /\ requests s' = requests s.
Proof.
  eexists. split; [reflexivity|]. simpl.
  split; [apply lookup_insert_eq|].
  split.
  { rewrite lookup_insert_ne by discriminate. apply lookup_delete_eq. }
  split; [|done].
  intros p H1 H2. rewrite lookup_insert_ne by done.
  by rewrite lookup_delete_ne.
Qed.

(** X8. A save after a save leaves the files that the second save alone
    would have left: nothing of the first survives. *)
Theorem save_twice_last_wins (a b : list record) (s : state) :
  fs (safe_write_json_partial b (safe_write_json_partial a s).2).2
  = fs (safe_write_json_partial b s).2.
Proof.
  simpl. apply map_eq. intros p.
  destruct (decide (p = RAW_JSON)) as [->|Hj].
  { by rewrite !lookup_insert_eq. }
  rewrite !lookup_insert_ne by done.
  destruct (decide (p = RAW_TMP)) as [->|Ht].
  { by rewrite !lookup_delete_eq. }
  rewrite !lookup_delete_ne by done.
  rewrite lookup_insert_ne by done. by rewrite lookup_delete_ne.
Qed.

End StoreMore.

(** ** Prices and availabilities as texts *)

Section TextLemmas.
Import Text Clean.
#[local] Open Scope string_scope.
#[local] Arguments String.append !s1 s2 / : simpl nomatch.

Lemma take_while_app (p : ascii -> bool) (a b : string) :
  forall_chars p a = true -> stops p b = true ->
  take_while p (a ++ b) = a.
Proof.
  intros Ha Hb. induction a as [|c a IH]; simpl in *.
  - destruct b as [|c b]; [done|]. simpl in *.
    apply negb_true_iff in Hb. by rewrite Hb.
  - apply andb_prop in Ha as [-> Ha]. by rewrite IH.
Qed.

Lemma drop_while_app (p : ascii -> bool) (a b : string) :
  forall_chars p a = true -> stops p b = true ->
  drop_while p (a ++ b) = b.
Proof.
  intros Ha Hb. induction a as [|c a IH]; simpl in *.
  - destruct b as [|c b]; [done|]. simpl in *.
    apply negb_true_iff in Hb. by rewrite Hb.
  - apply andb_prop in Ha as [-> Ha]. by rewrite IH.
Qed.

Lemma search_run_app (p : ascii -> bool) (pre tok post : string) :
  forall_chars (fun c => negb (p c)) pre = true ->
  forall_chars p tok = true ->
  truthy tok = true ->
  stops p post = true ->
  search_run p (pre ++ tok ++ post) = Some tok.
Proof.
  intros Hpre Htok Hne Hpost. unfold search_run.
  rewrite drop_while_app; [|done|].
  2:{ destruct tok as [|c tok]; [done|]. simpl in *.
      apply andb_prop in Htok as [-> _]. done. }
  destruct tok as [|c tok]; [done|].
  change (String c tok ++ post) with (String c (tok ++ post)).
  cbv iota. change (String c (tok ++ post)) with (String c tok ++ post).
  by rewrite take_while_app.
Qed.

End TextLemmas.

Section PriceProperties.
Import Text Clean.
#[local] Open Scope string_scope.
#[local] Arguments String.append !s1 s2 / : simpl nomatch.

Lemma forall_chars_impl (p q : ascii -> bool) (s : string) :
  (forall c, p c = true -> q c = true) ->
  forall_chars p s = true -> forall_chars q s = true.
Proof.
  intros Hpq. induction s as [|c s IH]; simpl; [done|].
  intros [Hc Hs]%andb_prop. by rewrite (Hpq _ Hc), IH.
Qed.

Lemma take_while_forall (p : ascii -> bool) (s : string) :
  forall_chars p (take_while p s) = true.
Proof.
  induction s as [|c s IH]; simpl; [done|].
  destruct (p c) eqn:Hc; simpl; [by rewrite Hc|done].
Qed.

Lemma digits_have_no_dot (s : string) :
  forall_chars is_digit s = true -> dot_count s = 0%nat.
Proof.
  unfold dot_count. induction s as [|c s IH]; simpl; [done|].
  intros [Hc Hs]%andb_prop.
  assert (is_dot c = false) as ->; [|by apply IH].
  unfold is_dot. destruct (Ascii.eqb_spec c "."%char) as [->|]; done.
Qed.

Lemma number_no_dot_is_digits (s : string) :
  forall_chars number_char s = true -> dot_count s = 0%nat ->
  forall_chars is_digit s = true.
Proof.
  unfold dot_count, number_char. induction s as [|c s IH]; simpl; [done|].
  intros [Hc Hs]%andb_prop. destruct (is_dot c); simpl; [done|].
  rewrite orb_false_r in Hc. intros Hn. by rewrite Hc, IH.
Qed.

Lemma digits_truthy (s : string) :
  forall_chars is_digit s = true -> exists_char is_digit s = truthy s.
Proof.
  unfold exists_char. destruct s as [|c s]; simpl; [done|].
  intros [Hc _]%andb_prop. by rewrite Hc.
Qed.

Lemma exists_char_cons (p : ascii -> bool) (c : ascii) (s : string) :
  exists_char p (String c s) = p c || exists_char p s.
Proof. unfold exists_char. simpl. by destruct (p c). Qed.

Lemma dot_count_cons (c : ascii) (s : string) :
  dot_count (String c s)
  = ((if is_dot c then 1 else 0) + dot_count s)%nat.
Proof. unfold dot_count. simpl. by destruct (is_dot c). Qed.

Lemma exists_char_app (p : ascii -> bool) (a b : string) :
  exists_char p (a ++ b) = exists_char p a || exists_char p b.
Proof.
  unfold exists_char. induction a as [|c a IH]; simpl; [done|].
  destruct (p c); simpl; [done|]. apply IH.
Qed.

Lemma dot_count_app (a b : string) :
  dot_count (a ++ b) = (dot_count a + dot_count b)%nat.
Proof.
  unfold dot_count. induction a as [|c a IH]; simpl; [done|].
  destruct (is_dot c); simpl; by rewrite IH.
Qed.

Lemma append_empty_r (s : string) : s ++ EmptyString = s.
Proof. induction s as [|c s IH]; simpl; by rewrite ?IH. Qed.

Lemma take_drop_while (p : ascii -> bool) (s : string) :
  take_while p s ++ drop_while p s = s.
Proof.
  induction s as [|c s IH]; simpl; [done|].
  destruct (p c); simpl; by rewrite ?IH.
Qed.

Lemma drop_while_stops (p : ascii -> bool) (s : string) :
  stops p (drop_while p s) = true.
Proof.
  induction s as [|c s IH]; simpl; [done|].
  destruct (p c) eqn:Hc; simpl; [done|by rewrite Hc].
Qed.

(** A token of digits and dots is a number for [float] exactly when it has
    a digit and at most one dot. *)
Lemma float_of_token_raises (tok : string) :
  forall_chars number_char tok = true ->
  raises (float_of_token tok)
  = negb (exists_char is_digit tok && (dot_count tok <=? 1)%nat).
Proof.
  intros Hnum. unfold float_of_token.
  pose proof (take_drop_while is_digit tok) as Hsplit.
  pose proof (take_while_forall is_digit tok) as Hint.
  pose proof (drop_while_stops is_digit tok) as Hstop.
  set (int_part := take_while is_digit tok) in *.
  destruct (drop_while is_digit tok) as [|c frac] eqn:Hrest.
  - rewrite append_empty_r in Hsplit. rewrite <- Hsplit.
    rewrite (digits_have_no_dot _ Hint), (digits_truthy _ Hint). simpl.
    by destruct (truthy int_part).
  - assert (forall_chars number_char (String c frac) = true) as Hfrac.
    { rewrite <- Hsplit in Hnum. clear -Hnum.
      induction int_part as [|d i IH]; simpl in *; [done|].
      apply andb_prop in Hnum as [_ Hnum]. by apply IH. }
    simpl in Hfrac, Hstop. apply andb_prop in Hfrac as [Hc Hfrac].
    unfold number_char in Hc. apply negb_true_iff in Hstop.
    rewrite Hstop in Hc. simpl in Hc.
    assert (Ascii.eqb "." c = true) as ->.
    { unfold is_dot in Hc. by rewrite Ascii.eqb_sym. }
    rewrite <- Hsplit, exists_char_app, dot_count_app.
    rewrite (digits_have_no_dot _ Hint), (digits_truthy _ Hint).
    rewrite exists_char_cons, dot_count_cons, Hstop, Hc. simpl.
    destruct (forall_chars is_digit frac) eqn:Hd.
    + rewrite (digits_have_no_dot _ Hd), (digits_truthy _ Hd). simpl.
      by destruct (truthy int_part || truthy frac).
    + simpl. assert (dot_count frac <> 0)%nat as Hdots.
      { intros H0. by rewrite (number_no_dot_is_digits _ Hfrac H0) in Hd. }
      destruct (dot_count frac) as [|n]; [done|]. simpl.
      by rewrite andb_false_r.
Qed.

Lemma remove_commas_number (m : string) :
  forall_chars price_char m = true ->
  forall_chars number_char (remove_commas m) = true
  /\ exists_char is_digit (remove_commas m) = exists_char is_digit m
  /\ dot_count (remove_commas m) = dot_count m.
Proof.
  unfold remove_commas, exists_char, dot_count, price_char, number_char.
  induction m as [|c m IH]; simpl; [done|].
  intros [Hc Hm]%andb_prop. destruct (IH Hm) as (IH1 & IH2 & IH3).
  destruct (Ascii.eqb_spec c ","%char) as [->|Hcomma]; simpl.
  - split; [done|]. split; [done|]. done.
  - rewrite orb_false_r in Hc. unfold is_dot in *. rewrite Hc, IH1. simpl.
    split; [done|]. split.
    + destruct (is_digit c); simpl; [done|].
      by apply negb_true_iff, negb_true_iff in IH2 || rewrite IH2.
    + destruct (Ascii.eqb c "."); simpl; by rewrite IH3.
Qed.

Lemma search_run_chars (p : ascii -> bool) (s m : string) :
  search_run p s = Some m -> forall_chars p m = true /\ truthy m = true.
Proof.
  unfold search_run.
  pose proof (drop_while_stops (fun c => negb (p c)) s) as Hstop.
  destruct (drop_while _ s) as [|c rest]; [done|].
  intros [= <-]. split; [apply (take_while_forall p (String c rest))|].
  simpl in Hstop. rewrite negb_involutive in Hstop. simpl.
  by rewrite Hstop.
Qed.

(** X19. On a text all of whose characters are below U+0640, [parse_price]
    raises exactly when the text has a run of price characters (digits,
    dots, commas) and the first such run has no digit or has two dots or
    more. (The proof does not use the hypothesis: it confines the statement
    to the texts on which [is_digit] is the [\d] of [re] and the digits of
    [float()].) *)
Theorem parse_price_raises_iff (s : string) :
  narrow s = true ->
  (raises (parse_price s) = true <->
   exists m,
     search_run price_char s = Some m
     /\ (exists_char is_digit m = false \/ (2 <= dot_count m)%nat)).
Proof.
  intros _. unfold parse_price. destruct (truthy s) eqn:Ht.
  2:{ destruct s; [|done]. simpl. split; [done|]. by intros (m & Hm & _). }
  simpl negb. cbv iota.
  destruct (search_run price_char s) as [m|] eqn:Hm.
  2:{ simpl. split; [done|]. by intros (m & ? & _). }
  destruct (search_run_chars _ _ _ Hm) as [Hchars _].
  destruct (remove_commas_number m Hchars) as (Hnum & Hdig & Hdots).
  pose proof (float_of_token_raises _ Hnum) as Hraise.
  rewrite Hdig, Hdots in Hraise.
  assert (raises (pyres_bind (float_of_token (remove_commas m))
                    (fun f => Ret (Some f)))
          = raises (float_of_token (remove_commas m))) as ->.
  { by destruct (float_of_token (remove_commas m)). }
  rewrite Hraise. split.
  - intros Hneg. exists m. split; [done|].
    apply negb_true_iff, andb_false_iff in Hneg as [Hd|Hc]; [by left|].
    right. apply Nat.leb_gt in Hc. lia.
  - intros (m' & [= <-] & [Hd|Hc]); apply negb_true_iff, andb_false_iff.
    + by left.
    + right. apply Nat.leb_gt. lia.
Qed.


End PriceProperties.

Section AvailabilityProperties.
Import Text Clean.
#[local] Open Scope string_scope.
#[local] Arguments String.append !s1 s2 / : simpl nomatch.

(** X21. [parse_availability] reads the first run of digits of the text,
    whatever stands before and after it, when that run has no more digits
    than [int()] accepts. What stands before and after the run has all its
    characters below U+0640 (not used by the proof: there [\d] knows no
    digit but [0] to [9], so that the run of the code is this run). *)
Theorem parse_availability_reads_first_number (pre digits post : string) :
  narrow pre = true ->
  narrow post = true ->
  forall_chars (fun c => negb (is_digit c)) pre = true ->
  forall_chars is_digit digits = true ->
  truthy digits = true ->
  (String.length digits <= max_str_digits)%nat ->
  stops is_digit post = true ->
  parse_availability (pre ++ digits ++ post)
  = Ret (Some (Z.of_N (digits_value digits))).
Proof.
  intros _ _ Hpre Hdig Hne Hlen Hpost. unfold parse_availability.
  rewrite (search_run_app is_digit pre digits post) by done.
  assert (truthy (pre ++ digits ++ post) = true) as ->.
  { destruct pre; [|done]. by destruct digits. }
  simpl negb. cbv iota. unfold int_of_digits.
  by rewrite (proj2 (Nat.ltb_ge _ _) Hlen).
Qed.

End AvailabilityProperties.

(** ** The cleaning of the raw data: [clean_data]

    Facts about the frame operations that do not depend on how the titles
    are normalized. *)

Section FrameOperations.
Import Text Clean CleanData.

(** Membership in a list that is written out, and in the columns a frame
    has after its assignments. *)
#[local] Ltac in_list := solve [repeat constructor].

Lemma pyres_bind_ret_inv {A B} (m : pyres A) (f : A -> pyres B) (b : B) :
  pyres_bind m f = Ret b -> exists a, m = Ret a /\ f a = Ret b.
Proof. destruct m as [a|e]; [eauto|done]. Qed.

Lemma series_apply_ret (f : cell -> pyres num) (col : string)
    (rs : list row) (vs : list num) :
  series_apply f col rs = Ret vs ->
  Forall2 (fun r v => f (cell_at r col) = Ret v) rs vs.
Proof.
  revert vs. induction rs as [|r rs IH]; intros vs; simpl.
  - intros [= <-]. constructor.
  - intros Hrun. apply pyres_bind_ret_inv in Hrun as (v & Hv & Hrun).
    apply pyres_bind_ret_inv in Hrun as (vs' & Hvs & [= <-]).
    constructor; [done|by apply IH].
Qed.

Lemma url_of_set_computed (dst : string) (r : row) (v : num) :
  dst <> "product_page_url" -> url_of (set_computed dst r v) = url_of r.
Proof.
  intros Hdst. unfold url_of, cell_at, set_computed. simpl.
  by rewrite lookup_delete_ne.
Qed.

Lemma assign_apply_ret (src dst : string) (f : cell -> pyres num)
    (df df' : dataframe) :
  assign_apply src dst f df = Ret df' ->
  dst <> "product_page_url" ->
  url_of <$> rows df' = url_of <$> rows df
  /\ columns df' = {[ dst ]} ∪ columns df
  /\ src ∈ columns df
  /\ Forall2 (fun r r' => exists v, f (cell_at r src) = Ret v
                                    /\ r' = set_computed dst r v)
             (rows df) (rows df').
Proof.
  unfold assign_apply, has_column. case_bool_decide as Hsrc; [|done].
  intros Hrun Hdst. apply pyres_bind_ret_inv in Hrun as (vs & Hvs & [= <-]).
  apply series_apply_ret in Hvs. simpl.
  split; [|split; [done|split; [done|]]].
  - induction Hvs as [|r v rs vs Hv Hvs IH]; [done|].
    rewrite !fmap_cons. cbn [zip_with fmap list_fmap].
    f_equal; [by apply url_of_set_computed|exact IH].
  - induction Hvs as [|r v rs vs Hv Hvs IH]; simpl; constructor; eauto.
Qed.

(** What [keep_first] keeps: one row for every key not seen before, and
    that row is the first with its key. *)
Lemma keep_first_spec (col : string) (rs : list row) (seen : list cell) :
  let key r := cell_at r col in
  NoDup (key <$> keep_first col seen rs)
  /\ (forall c, c ∈ key <$> keep_first col seen rs <->
                c ∈ key <$> rs /\ c ∉ seen)
  /\ (forall r, r ∈ keep_first col seen rs ->
        exists pre post,
          rs = pre ++ r :: post
          /\ Forall (fun r' => key r' <> key r) pre).
Proof.
  cbn zeta. revert seen. induction rs as [|r rs IH]; intros seen; simpl.
  - split; [constructor|]. split.
    + intros c. split; [intros Hc|intros [Hc _]]; by apply elem_of_nil in Hc.
    + intros r Hr. by apply elem_of_nil in Hr.
  - case_bool_decide as Hseen.
    + destruct (IH seen) as (Hnd & Hmem & Hfirst). split; [done|]. split.
      * intros c. rewrite Hmem, elem_of_cons. split; [tauto|].
        intros [[->|Hc] Hnot]; [done|tauto].
      * intros r' Hr'. destruct (Hfirst r' Hr') as (pre & post & -> & Hpre).
        exists (r :: pre), post. split; [done|]. constructor; [|done].
        intros Heq. apply list_elem_of_fmap_2 with (f := fun r => cell_at r col)
          in Hr'.
        apply Hmem in Hr' as [_ Hnot]. apply Hnot. by rewrite <- Heq.
    + destruct (IH (cell_at r col :: seen)) as (Hnd & Hmem & Hfirst).
      split; [|split].
      * simpl. constructor; [|done]. rewrite Hmem, not_elem_of_cons. tauto.
      * intros c. simpl. rewrite !elem_of_cons, Hmem, not_elem_of_cons.
        destruct (decide (c = cell_at r col)) as [->|Hne]; [|tauto].
        split; [intros _; split; [by left|done]|intros _; by left].
      * intros r' [->|Hr']%elem_of_cons.
        { exists [], rs. split; [done|]. constructor. }
        destruct (Hfirst r' Hr') as (pre & post & -> & Hpre).
        exists (r :: pre), post. split; [done|]. constructor; [|done].
        intros Heq.
        apply list_elem_of_fmap_2 with (f := fun r => cell_at r col) in Hr'.
        apply Hmem in Hr' as [_ Hnot]. apply Hnot. rewrite <- Heq. by left.
Qed.

End FrameOperations.

Section CleanDataTheorems.
Import Text Clean CleanData.
Variable str_strip str_lower : string -> string.

(** Membership in a list that is written out, and in the columns a frame
    has after its assignments. *)
#[local] Ltac in_list := solve [repeat constructor].
#[local] Ltac not_in_list :=
  solve [rewrite !not_elem_of_cons; repeat split;
         solve [discriminate | apply not_elem_of_nil]].
#[local] Ltac in_columns :=
  repeat first
    [ assumption
    | apply elem_of_union_l, elem_of_singleton; reflexivity
    | apply elem_of_union_r ].

Lemma normalize_title_ret (df df' : dataframe) :
  normalize_title str_strip str_lower df = Ret df' ->
  url_of <$> rows df' = url_of <$> rows df
  /\ columns df' = columns df
  /\ "title" ∈ columns df.
Proof.
  unfold normalize_title, has_column. case_bool_decide as Ht; [|done].
  intros [= <-]. simpl. split; [|done].
  rewrite <- list_fmap_compose. apply list_fmap_ext. intros _ r _. simpl.
  unfold url_of, cell_at. simpl. by rewrite lookup_insert_ne.
Qed.

Lemma cell_at_DataFrame (r : gmap string (option string)) (col : string) :
  cell_at (Row (cell_of_json <$> r) ∅) col = raw_cell r col.
Proof.
  unfold cell_at, raw_cell. simpl. rewrite lookup_fmap.
  by destruct (r !! col).
Qed.

Lemma cell_at_set_computed (dst col : string) (r : row) (v : num) :
  col <> dst -> cell_at (set_computed dst r v) col = cell_at r col.
Proof.
  intros Hne. unfold cell_at, set_computed. simpl.
  by rewrite lookup_delete_ne.
Qed.

Lemma Forall2_compose {A B C} (P : A -> B -> Prop) (Q : B -> C -> Prop)
    (l1 : list A) (l2 : list B) (l3 : list C) :
  Forall2 P l1 l2 -> Forall2 Q l2 l3 ->
  Forall2 (fun a c => exists b, P a b /\ Q b c) l1 l3.
Proof.
  intros H12. revert l3. induction H12; intros l3 H23; inversion H23; subst;
    constructor; eauto.
Qed.

Lemma lookup_filter_key {V} (m : gmap string V) (ks : list string)
    (k : string) :
  k ∈ ks -> filter (fun kv => kv.1 ∈ ks) m !! k = m !! k.
Proof.
  intros Hk. destruct (m !! k) as [v|] eqn:Hm.
  - by apply map_lookup_filter_Some_2.
  - apply map_lookup_filter_None_2. by left.
Qed.

(** The frame before the rows are dropped. *)
Lemma clean_raw_staged (data : list (gmap string (option string)))
    (df : dataframe) :
  clean_raw str_strip str_lower data = Ret df ->
  exists (staged : list row) (existing : list string),
    Forall2 (built_from str_strip str_lower) data staged
    /\ (forall k, k ∈ [ "title"; "product_page_url"; "price"; "availability";
                       "rating" ] -> k ∈ existing)
    /\ (forall k, k ∈ required_columns -> k ∈ columns (DataFrame data))
    /\ rows df
       = select_row existing
           <$> keep_first "product_page_url" []
                 (filter (fun r => isna (url_of r) = false) staged).
Proof.
  unfold clean_raw, clean_data. intros Hrun.
  apply pyres_bind_ret_inv in Hrun as (df1 & H1 & Hrun).
  apply pyres_bind_ret_inv in Hrun as (df2 & H2 & Hrun).
  apply pyres_bind_ret_inv in Hrun as (df3 & H3 & Hrun).
  apply pyres_bind_ret_inv in Hrun as (df4 & H4 & Hrun).
  apply pyres_bind_ret_inv in Hrun as (df5 & H5 & Hrun).
  apply pyres_bind_ret_inv in Hrun as (df6 & H6 & [= <-]).
  apply assign_apply_ret in H1 as (_ & Hc1 & Hs1 & Hr1); [|done].
  apply assign_apply_ret in H2 as (_ & Hc2 & Hs2 & Hr2); [|done].
  apply assign_apply_ret in H3 as (_ & Hc3 & Hs3 & Hr3); [|done].
  unfold normalize_title, has_column in H4.
  case_bool_decide as Ht; [|done]. injection H4 as <-.
  unfold dropna, has_column in H5. simpl in H5.
  case_bool_decide as Hu; [|done]. injection H5 as <-.
  unfold drop_duplicates, has_column in H6. simpl in H6.
  case_bool_decide as Hu'; [|done]. injection H6 as <-.
  eexists _, _. split; [|split; [|split; [|reflexivity]]].
  - apply Forall2_fmap_r.
    pose proof (Forall2_compose _ _ _ _ _ (Forall2_compose _ _ _ _ _ Hr1 Hr2)
                  Hr3) as Hr.
    simpl in Hr. apply Forall2_fmap_l in Hr.
    eapply Forall2_impl; [exact Hr|].
    intros r out (r2 & (r1 & (v1 & Hv1 & ->) & (v2 & Hv2 & ->))
                     & (v3 & Hv3 & ->)).
    rewrite !cell_at_set_computed, cell_at_DataFrame in Hv3 by done.
    rewrite cell_at_set_computed, cell_at_DataFrame in Hv2 by done.
    rewrite cell_at_DataFrame in Hv1.
    unfold built_from. repeat split.
    + unfold url_of, cell_at at 1. simpl. rewrite lookup_insert_ne by done.
      rewrite !lookup_delete_ne by done. rewrite lookup_fmap.
      unfold raw_cell. by destruct (r !! _).
    + exists v1. split; [done|]. simpl.
      rewrite !lookup_insert_ne by done. by rewrite lookup_insert_eq.
    + exists v2. split; [done|]. simpl.
      rewrite !lookup_insert_ne by done. by rewrite lookup_insert_eq.
    + exists v3. split; [done|]. simpl. by rewrite lookup_insert_eq.
    + simpl. rewrite lookup_insert_eq.
      rewrite !cell_at_set_computed by done. by rewrite cell_at_DataFrame.
  - intros k Hk. simpl. apply list_elem_of_filter.
    rewrite !elem_of_cons in Hk.
    destruct Hk as [->|[->|[->|[->|[->|Hk]]]]];
      [..|by apply elem_of_nil in Hk];
      (split; [first [assumption|rewrite Hc3, Hc2, Hc1; in_columns]
              |unfold cols; in_list]).
  - intros k Hk. unfold required_columns in Hk.
    rewrite Hc1 in Hs2. rewrite Hc2, Hc1 in Hs3.
    rewrite Hc3, Hc2, Hc1 in Ht, Hu.
    repeat (apply elem_of_union in Hs2 as [Hs2|Hs2];
            [by apply elem_of_singleton in Hs2|]).
    repeat (apply elem_of_union in Hs3 as [Hs3|Hs3];
            [by apply elem_of_singleton in Hs3|]).
    repeat (apply elem_of_union in Ht as [Ht|Ht];
            [by apply elem_of_singleton in Ht|]).
    repeat (apply elem_of_union in Hu as [Hu|Hu];
            [by apply elem_of_singleton in Hu|]).
    rewrite !elem_of_cons in Hk.
    destruct Hk as [->|[->|[->|[->|[->|Hk]]]]];
      [..|by apply elem_of_nil in Hk]; done.
Qed.

Lemma url_of_select_row (existing : list string) (r : row) :
  "product_page_url" ∈ existing -> url_of (select_row existing r) = url_of r.
Proof.
  intros Hu. unfold url_of, cell_at, select_row. simpl.
  by rewrite lookup_filter_key.
Qed.

Lemma built_from_select_row (existing : list string)
    (d : gmap string (option string)) (r : row) :
  (forall k, k ∈ [ "title"; "product_page_url"; "price"; "availability";
                   "rating" ] -> k ∈ existing) ->
  built_from str_strip str_lower d r ->
  built_from str_strip str_lower d (select_row existing r).
Proof.
  intros Hex (Hu & Hp & Ha & Hr & Ht). unfold built_from.
  rewrite url_of_select_row by (apply Hex; in_list).
  unfold select_row. simpl.
  rewrite !lookup_filter_key by (apply Hex; in_list). done.
Qed.

Lemma raw_cell_Str (d : gmap string (option string)) (k s : string) :
  raw_cell d k = Str s <-> d !! k = Some (Some s).
Proof.
  unfold raw_cell. destruct (d !! k) as [[s'|]|]; simpl; split; congruence.
Qed.

Lemma isna_false (c : cell) : isna c = false <-> exists s, c = Str s.
Proof.
  destruct c; simpl; split; try done; eauto; by intros [s' [=]].
Qed.

(** The rows that remain, one by one: each is the row of the first record
    with its URL. *)
Lemma keep_first_dropna_first (data : list (gmap string (option string)))
    (staged : list row) (seen : list cell) (out : row) :
  Forall2 (built_from str_strip str_lower) data staged ->
  out ∈ keep_first "product_page_url" seen
          (filter (fun r => isna (url_of r) = false) staged) ->
  exists pre d post,
    data = pre ++ d :: post
    /\ built_from str_strip str_lower d out
    /\ isna (url_of out) = false
    /\ Forall (fun d' => raw_cell d' "product_page_url" <> url_of out) pre.
Proof.
  intros Hst. revert seen. induction Hst as [|d r data staged Hb Hst IH];
    intros seen.
  { intros Hout. by apply elem_of_nil in Hout. }
  assert (Hkey : forall seen', out ∈ keep_first "product_page_url" seen'
              (filter (fun r => isna (url_of r) = false) staged) ->
            (url_of out ∉ seen') /\ isna (url_of out) = false).
  { intros seen' Hout.
    pose proof (keep_first_spec "product_page_url"
      (filter (fun r => isna (url_of r) = false) staged) seen')
      as (_ & Hmem & _).
    apply list_elem_of_fmap_2 with (f := fun r => cell_at r "product_page_url")
      in Hout as Hc.
    apply Hmem in Hc as [Hin Hnot]. split; [done|].
    apply list_elem_of_fmap in Hin as (r' & Heq & Hr').
    apply list_elem_of_filter in Hr' as [Hna _]. unfold url_of. by rewrite Heq. }
  assert (Hext : forall seen', url_of r <> url_of out ->
            out ∈ keep_first "product_page_url" seen'
              (filter (fun r => isna (url_of r) = false) staged) ->
            exists pre d0 post,
              d :: data = pre ++ d0 :: post
              /\ built_from str_strip str_lower d0 out
              /\ isna (url_of out) = false
              /\ Forall (fun d' => raw_cell d' "product_page_url"
                                   <> url_of out) pre).
  { intros seen' Hne Hout.
    destruct (IH _ Hout) as (pre & d0 & post & -> & Hb0 & Hna & Hpre).
    exists (d :: pre), d0, post.
    split; [done|split; [done|split; [done|]]].
    constructor; [|done]. destruct Hb as [<- _]. done. }
  rewrite filter_cons. case_decide as Hna.
  - cbn [keep_first]. case_bool_decide as Hseen.
    + intros Hout. apply (Hext seen); [|done].
      intros Heq. apply Hkey in Hout as [Hnot _]. apply Hnot.
      by rewrite <- Heq.
    + intros [->|Hout]%elem_of_cons.
      * exists [], d, data.
        split; [done|split; [done|split; [done|constructor]]].
      * apply (Hext (cell_at r "product_page_url" :: seen)); [|done].
        intros Heq. apply Hkey in Hout as [Hnot _]. apply Hnot.
        rewrite <- Heq. by left.
  - intros Hout. apply (Hext seen); [|done].
    intros Heq. apply Hkey in Hout as [_ Hna']. by rewrite <- Heq in Hna'.
Qed.

(** X22. The frame [clean_data] returns has one row for every product page
    URL that some raw record binds to a string, and no other row: records
    whose URL is [None] or missing are dropped, and no URL occurs twice. *)
Theorem clean_raw_one_row_per_url
    (data : list (gmap string (option string))) (df : dataframe) :
  clean_raw str_strip str_lower data = Ret df ->
  NoDup (url_of <$> rows df)
  /\ forall c, c ∈ url_of <$> rows df <->
       exists s, c = Str s
         /\ exists d, d ∈ data /\ d !! "product_page_url" = Some (Some s).
Proof.
  intros (staged & existing & Hst & Hex & _ & Hrows)%clean_raw_staged.
  assert (Hurls : url_of <$> rows df
                  = url_of <$> keep_first "product_page_url" []
                      (filter (fun r => isna (url_of r) = false) staged)).
  { rewrite Hrows, <- list_fmap_compose. apply list_fmap_ext.
    intros _ r _. simpl. apply url_of_select_row, Hex. in_list. }
  rewrite Hurls.
  pose proof (keep_first_spec "product_page_url"
    (filter (fun r => isna (url_of r) = false) staged) [])
    as (Hnd & Hmem & _).
  split; [exact Hnd|]. intros c. unfold url_of at 1. rewrite Hmem. split.
  - intros [(r & -> & Hr)%list_elem_of_fmap _].
    apply list_elem_of_filter in Hr as [Hna Hr].
    apply isna_false in Hna as [s Hs]. exists s. split; [done|].
    apply list_elem_of_lookup in Hr as [i Hi].
    destruct (Forall2_lookup_r _ _ _ _ _ Hst Hi) as (d & Hd & Hb).
    exists d. split; [by eapply list_elem_of_lookup_2|].
    apply raw_cell_Str. destruct Hb as [<- _]. done.
  - intros (s & -> & d & Hd & Hs). split; [|by intros ?%elem_of_nil].
    apply list_elem_of_lookup in Hd as [i Hi].
    destruct (Forall2_lookup_l _ _ _ _ _ Hst Hi) as (r & Hr & Hb).
    apply list_elem_of_fmap. exists r.
    assert (Hu : url_of r = Str s).
    { destruct Hb as [-> _]. by apply raw_cell_Str. }
    split; [done|]. apply list_elem_of_filter. split.
    + by rewrite Hu.
    + by eapply list_elem_of_lookup_2.
Qed.

(** X23. Of the raw records that share a product page URL the first one is
    kept: every row of the cleaned frame comes from a record that no
    record with the same URL precedes, its price, availability and rating
    are what [parse_price], [parse_availability] and [rating_word_to_int]
    return on that record's texts, and its title is that record's title,
    stripped and in lower case. The records have their price text,
    availability text and title given as strings, of modest size: that
    confines the statement to the frames every version of pandas builds
    alike and to the texts every version of Python reads alike (the proof
    uses only that the strings are there). *)
Theorem clean_raw_keeps_first
    (data : list (gmap string (option string))) (df : dataframe) (out : row) :
  Forall texts_given data ->
  Forall modest data ->
  clean_raw str_strip str_lower data = Ret df ->
  out ∈ rows df ->
  exists pre d post u p a t,
    data = pre ++ d :: post
    /\ d !! "product_page_url" = Some (Some u)
    /\ Forall (fun d' => d' !! "product_page_url" <> Some (Some u)) pre
    /\ d !! "price_text" = Some (Some p)
    /\ d !! "availability_text" = Some (Some a)
    /\ d !! "title" = Some (Some t)
    /\ url_of out = Str u
    /\ (exists v, parse_price p = Ret v
                  /\ computed out !! "price" = Some (num_of_float v))
    /\ (exists n, parse_availability a = Ret n
                  /\ computed out !! "availability" = Some (num_of_int n))
    /\ computed out !! "rating"
       = Some (num_of_int
                 (match d !! "rating_text" with
                  | Some (Some w) => rating_word_to_int w
                  | _ => None
                  end))
    /\ cells out !! "title" = Some (Str (str_lower (str_strip t))).
Proof.
  intros Htexts _.
  intros (staged & existing & Hst & Hex & _ & Hrows)%clean_raw_staged Hout.
  rewrite Hrows in Hout. apply list_elem_of_fmap in Hout as (r & -> & Hr).
  destruct (keep_first_dropna_first _ _ _ _ Hst Hr)
    as (pre & d & post & -> & Hb & Hna & Hpre).
  apply isna_false in Hna as [u Hu].
  apply Forall_app in Htexts as [_ Htexts].
  apply Forall_cons in Htexts as [(p & a & t & Hp & Ha & Ht) _].
  apply (built_from_select_row existing) in Hb; [|done].
  destruct Hb as (Hurl & (vp & Hvp & Hcp) & (va & Hva & Hca)
                  & (vr & Hvr & Hcr) & Htitle).
  assert (url_of (select_row existing r) = url_of r) as Hsame.
  { apply url_of_select_row, Hex. in_list. }
  unfold raw_cell in Hvp, Hva, Hvr, Htitle. rewrite Hp in Hvp.
  rewrite Ha in Hva. rewrite Ht in Htitle. simpl in Hvp, Hva, Htitle.
  exists pre, d, post, u, p, a, t. split; [done|].
  split.
  { apply raw_cell_Str. rewrite <- Hurl, Hsame. done. }
  split.
  { eapply Forall_impl; [exact Hpre|]. intros d' Hne Hd'. apply Hne.
    rewrite Hu. by apply raw_cell_Str. }
  split; [done|]. split; [done|]. split; [done|].
  split; [by rewrite Hsame|].
  split.
  { destruct (parse_price p) as [v|]; [|done]. injection Hvp as <-. eauto. }
  split.
  { destruct (parse_availability a) as [n|]; [|done].
    injection Hva as <-. eauto. }
  split; [|done].
  rewrite Hcr. f_equal.
  destruct (d !! "rating_text") as [[w|]|]; simpl in Hvr;
    by injection Hvr as <-.
Qed.

Lemma elem_of_DataFrame_columns (data : list (gmap string (option string)))
    (k : string) :
  k ∈ columns (DataFrame data) <-> exists d, d ∈ data /\ is_Some (d !! k).
Proof.
  unfold DataFrame. simpl. rewrite elem_of_union_list. split.
  - intros (X & (d & -> & Hd)%list_elem_of_fmap & Hk).
    exists d. split; [done|]. by apply elem_of_dom.
  - intros (d & Hd & Hk). exists (dom d). split.
    + apply list_elem_of_fmap. eauto.
    + by apply elem_of_dom.
Qed.

Lemma series_apply_returns (f : cell -> pyres num) (col : string)
    (rs : list row) :
  Forall (fun r => exists v, f (cell_at r col) = Ret v) rs ->
  exists vs, series_apply f col rs = Ret vs.
Proof.
  induction 1 as [|r rs [v Hv] _ [vs IH]]; simpl; [eauto|].
  rewrite Hv, IH. simpl. eauto.
Qed.

Lemma series_apply_raises (f : cell -> pyres num) (col : string)
    (rs : list row) (e : exn) :
  series_apply f col rs = Raise e ->
  exists r, r ∈ rs /\ f (cell_at r col) = Raise e.
Proof.
  induction rs as [|r rs IH]; simpl; [done|].
  destruct (f (cell_at r col)) as [v|e'] eqn:Hv; simpl.
  - destruct (series_apply f col rs) as [vs|e'] eqn:Hvs; simpl; [done|].
    intros [= <-]. destruct (IH eq_refl) as (r' & Hr' & He).
    exists r'. split; [by right|done].
  - intros [= <-]. exists r. split; [by left|done].
Qed.

Lemma tracks_DataFrame (data : list (gmap string (option string))) :
  Forall2 tracks data (rows (DataFrame data)).
Proof.
  unfold DataFrame. simpl. apply Forall2_fmap_r, Forall_Forall2_diag.
  apply Forall_forall. intros d _ col _. apply cell_at_DataFrame.
Qed.

Lemma assign_apply_tracks (src dst : string) (f : cell -> pyres num)
    (data : list (gmap string (option string))) (df : dataframe) :
  dst ∈ [ "price"; "availability"; "rating" ] ->
  src ∉ [ "price"; "availability"; "rating" ] ->
  Forall2 tracks data (rows df) ->
  src ∈ columns df ->
  Forall (fun d => exists v, f (raw_cell d src) = Ret v) data ->
  exists df', assign_apply src dst f df = Ret df'
              /\ Forall2 tracks data (rows df')
              /\ columns df' = {[ dst ]} ∪ columns df.
Proof.
  intros Hdst Hsrc Htr Hcol Hok.
  destruct (series_apply_returns f src (rows df)) as [vs Hvs].
  { apply Forall_forall. intros r Hr.
    apply list_elem_of_lookup in Hr as [i Hi].
    destruct (Forall2_lookup_r _ _ _ _ _ Htr Hi) as (d & Hd & Ht).
    rewrite (Ht src Hsrc).
    apply (proj1 (Forall_forall _ _) Hok). by eapply list_elem_of_lookup_2. }
  unfold assign_apply, has_column. rewrite bool_decide_eq_true_2 by done.
  rewrite Hvs. simpl. eexists. split; [done|]. split; [|done]. simpl.
  apply series_apply_ret in Hvs. clear Hok Hcol.
  revert vs Hvs. induction Htr as [|d r data rs Ht Htr IH]; intros vs Hvs.
  - inversion Hvs. constructor.
  - inversion Hvs as [|? v ? vs' Hv Hvs']; subst. simpl.
    constructor; [|by apply IH].
    intros col Hcol. rewrite cell_at_set_computed; [by apply Ht|].
    intros ->. done.
Qed.

Lemma take_while_length (p : ascii -> bool) (s : string) :
  (String.length (take_while p s) <= String.length s)%nat.
Proof.
  induction s as [|c s IH]; simpl; [done|]. destruct (p c); simpl; lia.
Qed.

Lemma drop_while_length (p : ascii -> bool) (s : string) :
  (String.length (drop_while p s) <= String.length s)%nat.
Proof.
  induction s as [|c s IH]; simpl; [done|]. destruct (p c); simpl; lia.
Qed.

(** A text that is short enough has no run of digits that [int] refuses. *)
Lemma parse_availability_short (a : string) :
  (String.length a <= max_str_digits)%nat ->
  exists r, parse_availability a = Ret r.
Proof.
  intros Hlen. unfold parse_availability.
  destruct (negb (truthy a)); [eauto|]. unfold search_run.
  pose proof (drop_while_length (fun c => negb (is_digit c)) a) as Hdrop.
  destruct (drop_while _ a) as [|c rest]; [eauto|].
  pose proof (take_while_length is_digit (String c rest)) as Htake.
  unfold int_of_digits.
  rewrite (proj2 (Nat.ltb_ge _ _)) by lia. simpl. eauto.
Qed.

(** The run of [clean_data] on a frame that has the columns it reads and an
    availability text that can be read in every row: it ends where
    [parse_price] raises, and nowhere else. *)
Lemma clean_raw_cases (data : list (gmap string (option string))) :
  (forall k, k ∈ required_columns -> k ∈ columns (DataFrame data)) ->
  Forall (fun d => exists v,
            availability_of_cell (raw_cell d "availability_text") = Ret v)
         data ->
  match series_apply price_of_cell "price_text" (rows (DataFrame data)) with
  | Ret _ => exists df, clean_raw str_strip str_lower data = Ret df
  | Raise e => clean_raw str_strip str_lower data = Raise e
  end.
Proof.
  intros Hcols Hav. unfold clean_raw, clean_data.
  assert (Hin : forall k, k ∈ required_columns -> k ∈ columns (DataFrame data))
    by done.
  unfold required_columns in Hin.
  destruct (series_apply _ _ _) as [vs|e] eqn:Hvs.
  - destruct (assign_apply_tracks "price_text" "price" price_of_cell data
                (DataFrame data)) as (df1 & -> & Ht1 & Hc1).
    { in_list. } { not_in_list. } { apply tracks_DataFrame. }
    { apply Hin. in_list. }
    { apply series_apply_ret in Hvs. unfold DataFrame in Hvs. simpl in Hvs.
      apply Forall2_fmap_l in Hvs. apply Forall_forall. intros d Hd.
      apply list_elem_of_lookup in Hd as [i Hi].
      destruct (Forall2_lookup_l _ _ _ _ _ Hvs Hi) as (v & _ & Hv).
      simpl in Hv. rewrite cell_at_DataFrame in Hv. eauto. }
    simpl.
    destruct (assign_apply_tracks "availability_text" "availability"
                availability_of_cell data df1) as (df2 & -> & Ht2 & Hc2).
    { in_list. } { not_in_list. } { done. }
    { rewrite Hc1. apply elem_of_union_r, Hin. in_list. }
    { exact Hav. }
    simpl.
    destruct (assign_apply_tracks "rating_text" "rating"
                rating_of_cell data df2) as (df3 & -> & Ht3 & Hc3).
    { in_list. } { not_in_list. } { done. }
    { rewrite Hc2, Hc1. do 2 apply elem_of_union_r. apply Hin. in_list. }
    { apply Forall_forall. intros d _.
      destruct (raw_cell d "rating_text"); simpl; eauto. }
    simpl. unfold normalize_title, has_column.
    rewrite bool_decide_eq_true_2.
    2:{ rewrite Hc3, Hc2, Hc1. do 3 apply elem_of_union_r. apply Hin.
        in_list. }
    simpl. unfold dropna, has_column. simpl.
    rewrite bool_decide_eq_true_2.
    2:{ rewrite Hc3, Hc2, Hc1. do 3 apply elem_of_union_r. apply Hin.
        in_list. }
    simpl. unfold drop_duplicates, has_column. simpl.
    rewrite bool_decide_eq_true_2.
    2:{ rewrite Hc3, Hc2, Hc1. do 3 apply elem_of_union_r. apply Hin.
        in_list. }
    simpl. eauto.
  - unfold assign_apply at 1, has_column.
    rewrite bool_decide_eq_true_2 by (apply Hin; in_list).
    by rewrite Hvs.
Qed.

(** What [clean_data] needs, and that it needs no more. *)
Lemma clean_raw_returns_only_if (data : list (gmap string (option string)))
    (df : dataframe) :
  clean_raw str_strip str_lower data = Ret df ->
  (forall k, k ∈ required_columns ->
             exists d, d ∈ data /\ is_Some (d !! k))
  /\ Forall cleanable data.
Proof.
  intros (staged & existing & Hst & _ & Hcols & _)%clean_raw_staged.
  split.
  { intros k Hk. by apply elem_of_DataFrame_columns, Hcols. }
  apply Forall_forall. intros d Hd.
  apply list_elem_of_lookup in Hd as [i Hi].
  destruct (Forall2_lookup_l _ _ _ _ _ Hst Hi)
    as (r & _ & _ & (vp & Hp & _) & (va & Ha & _) & _).
  unfold raw_cell in Hp, Ha. split.
  - destruct (d !! "availability_text") as [[s|]|]; simpl in Ha; [|done..].
    by destruct (parse_availability s).
  - destruct (d !! "price_text") as [[s|]|]; simpl in Hp; [|done..].
    by destruct (parse_price s).
Qed.

Lemma clean_raw_returns_if (data : list (gmap string (option string))) :
  (forall k, k ∈ required_columns ->
             exists d, d ∈ data /\ is_Some (d !! k)) ->
  Forall cleanable data ->
  exists df, clean_raw str_strip str_lower data = Ret df.
Proof.
  intros Hcols Hok.
  pose proof (clean_raw_cases data) as Hcases.
  destruct (series_apply_returns price_of_cell "price_text"
              (rows (DataFrame data))) as [vs Hvs].
  { unfold DataFrame. simpl. apply Forall_fmap.
    eapply Forall_impl; [exact Hok|]. intros d [_ Hp]. simpl.
    rewrite cell_at_DataFrame. unfold raw_cell.
    destruct (d !! "price_text") as [[s|]|]; simpl; [|by eauto|done].
    destruct (parse_price s); simpl; [by eauto|done]. }
  rewrite Hvs in Hcases. apply Hcases.
  - intros k Hk. by apply elem_of_DataFrame_columns, Hcols.
  - eapply Forall_impl; [exact Hok|]. intros d [Ha _]. simpl.
    unfold raw_cell.
    destruct (d !! "availability_text") as [[s|]|]; simpl; [|by eauto|done].
    destruct (parse_availability s); simpl; [by eauto|done].
Qed.

(** Records with their texts given and of modest size are [cleanable] as
    soon as [parse_price] reads their price texts. *)
Lemma cleanable_of_texts (d : gmap string (option string)) :
  texts_given d -> modest d ->
  (forall p, d !! "price_text" = Some (Some p) ->
             raises (parse_price p) = false) ->
  cleanable d.
Proof.
  intros (p & a & t & Hp & Ha & _) [_ Hm] Hprice. unfold cleanable.
  rewrite Ha, Hp. split; [|by apply Hprice].
  destruct (Hm a Ha) as [_ Hlen].
  by destruct (parse_availability_short a Hlen) as [r ->].
Qed.

(** X24. For raw records whose price text, availability text and title
    are strings of modest size, [clean_data] returns exactly when there is
    a record, some record has the key [rating_text], some record has the
    key [product_page_url], and [parse_price] raises on no price text. In
    particular it raises on the empty list of records. (That the records
    are [modest] confines the statement to the texts that the model reads
    as every version of Python does; that their texts are given, to the
    frames that every version of pandas builds alike.) *)
Theorem clean_raw_returns_iff (data : list (gmap string (option string))) :
  Forall texts_given data ->
  Forall modest data ->
  ((exists df, clean_raw str_strip str_lower data = Ret df) <->
   data <> []
   /\ (exists d, d ∈ data /\ is_Some (d !! "rating_text"))
   /\ (exists d, d ∈ data /\ is_Some (d !! "product_page_url"))
   /\ forall d p, d ∈ data -> d !! "price_text" = Some (Some p) ->
                  raises (parse_price p) = false).
Proof.
  intros Htexts Hmodest. split.
  - intros [df [Hcols Hok]%clean_raw_returns_only_if].
    split; [|split; [|split]].
    + destruct (Hcols "title") as (d & Hd & _); [in_list|].
      intros ->. by apply elem_of_nil in Hd.
    + apply Hcols. in_list.
    + apply Hcols. in_list.
    + intros d p Hd Hp.
      apply (proj1 (Forall_forall _ _) Hok) in Hd as [_ Hprice].
      by rewrite Hp in Hprice.
  - intros (Hne & Hrating & Hurl & Hprice).
    apply clean_raw_returns_if.
    + intros k Hk. unfold required_columns in Hk.
      destruct data as [|d0 data']; [done|].
      apply Forall_cons in Htexts as [(p & a & t & Hp & Ha & Ht) _].
      rewrite !elem_of_cons in Hk.
      destruct Hk as [->|[->|[->|[->|[->|Hk]]]]];
        [..|by apply elem_of_nil in Hk]; try done;
        exists d0; (split; [by left|]); by eauto.
    + apply Forall_forall. intros d Hd. apply cleanable_of_texts.
      * by apply (proj1 (Forall_forall _ _) Htexts).
      * by apply (proj1 (Forall_forall _ _) Hmodest).
      * intros p. by apply Hprice.
Qed.

Lemma well_listed_texts_given (d : gmap string (option string)) :
  well_listed d -> texts_given d.
Proof.
  intros Hd.
  destruct (Hd "price_text") as [p Hp];
    [unfold listing_fields; set_unfold; tauto|].
  destruct (Hd "availability_text") as [a Ha];
    [unfold listing_fields; set_unfold; tauto|].
  destruct (Hd "title") as [t Ht];
    [unfold listing_fields; set_unfold; tauto|].
  by exists p, a, t.
Qed.

(** X25. On a non-empty list of records that bind the six listing fields
    to strings, which is what the scraper collects, with price and
    availability texts of modest size, [clean_data] either returns or
    raises [ValueError], and it returns exactly when [parse_price] raises on
    no price text. *)
Theorem clean_raw_of_listed (data : list (gmap string (option string))) :
  data <> [] ->
  Forall well_listed data ->
  Forall modest data ->
  ((exists df, clean_raw str_strip str_lower data = Ret df)
   \/ clean_raw str_strip str_lower data = Raise ValueError)
  /\ ((exists df, clean_raw str_strip str_lower data = Ret df) <->
      forall d s, d ∈ data -> d !! "price_text" = Some (Some s) ->
                  raises (parse_price s) = false).
Proof.
  intros Hne Hwl Hmodest.
  assert (Hfield : forall d k, d ∈ data -> k ∈ listing_fields ->
                     exists v, d !! k = Some (Some v)).
  { intros d k Hd Hk. by apply (proj1 (Forall_forall _ _) Hwl). }
  assert (Hreq : forall k, k ∈ required_columns -> k ∈ listing_fields).
  { intros k Hk. unfold required_columns in Hk. unfold listing_fields.
    set_unfold in Hk. set_unfold. tauto. }
  assert (Hcols : forall k, k ∈ required_columns ->
                    exists d, d ∈ data /\ is_Some (d !! k)).
  { intros k Hk. destruct data as [|d data]; [done|]. exists d.
    split; [by left|]. destruct (Hfield d k) as [v ->]; [by left|auto|done]. }
  assert (Hav : Forall (fun d => exists v,
              availability_of_cell (raw_cell d "availability_text") = Ret v)
            data).
  { apply Forall_forall. intros d Hd. unfold raw_cell.
    destruct (Hfield d "availability_text" Hd) as [a Ha].
    { apply Hreq. unfold required_columns. in_list. }
    rewrite Ha. simpl.
    destruct (proj1 (Forall_forall _ _) Hmodest d Hd) as [_ Hm].
    destruct (Hm a Ha) as [_ Hlen].
    destruct (parse_availability_short a Hlen) as [r ->]. simpl. eauto. }
  split.
  - pose proof (clean_raw_cases data) as Hcases.
    destruct (series_apply _ _ _) as [vs|e] eqn:Hvs.
    + left. apply Hcases; [|done].
      intros k Hk. by apply elem_of_DataFrame_columns, Hcols.
    + right. rewrite Hcases; [|
        intros k Hk; by apply elem_of_DataFrame_columns, Hcols|done].
      f_equal. apply series_apply_raises in Hvs as (r & Hr & He).
      unfold DataFrame in Hr. simpl in Hr.
      apply list_elem_of_fmap in Hr as (d & -> & Hd).
      rewrite cell_at_DataFrame in He. unfold raw_cell in He.
      destruct (Hfield d "price_text" Hd) as [v Hv].
      { apply Hreq. unfold required_columns. in_list. }
      rewrite Hv in He. simpl in He.
      destruct (parse_price v) as [?|e'] eqn:Hp; [done|].
      injection He as <-. by eapply parse_price_raises_only_ValueError.
  - split.
    + intros [df [_ Hok]%clean_raw_returns_only_if] d s Hd Hs.
      apply (proj1 (Forall_forall _ _) Hok) in Hd as [_ Hp].
      by rewrite Hs in Hp.
    + intros Hok. apply clean_raw_returns_if; [done|].
      apply Forall_forall. intros d Hd. apply cleanable_of_texts.
      * apply well_listed_texts_given.
        by apply (proj1 (Forall_forall _ _) Hwl).
      * by apply (proj1 (Forall_forall _ _) Hmodest).
      * intros p. by apply Hok.
Qed.

(** X26. When no raw record has a price text, and so when there is no
    record at all, [clean_data] raises [KeyError] at its first step. *)
Theorem clean_raw_without_price_column
    (data : list (gmap string (option string))) :
  (forall d, d ∈ data -> d !! "price_text" = None) ->
  clean_raw str_strip str_lower data = Raise KeyError.
Proof.
  intros Hnone. unfold clean_raw, clean_data, assign_apply at 1, has_column.
  rewrite bool_decide_eq_false_2; [done|].
  intros (d & Hd & Hk)%elem_of_DataFrame_columns.
  rewrite (Hnone d Hd) in Hk. by destruct Hk.
Qed.

End CleanDataTheorems.

(** ** Runs on concrete inputs *)

Import Samples.

(** The stand-in for [json] reads back what it wrote. *)
Lemma pos_of_bits_of_pos (p : positive) : pos_of_bits (bits_of_pos p) = Some p.
Proof. induction p as [p IH|p IH|]; simpl; by rewrite ?IH. Qed.

Lemma sample_load_dump (books : list record) :
  sample_load (sample_dump books) = Some books.
Proof.
  unfold sample_load, sample_dump. rewrite pos_of_bits_of_pos. simpl.
  apply decode_encode.
Qed.

Lemma dead_net_uninterrupted : uninterrupted dead_net.
Proof. intros k. reflexivity. Qed.

(** C1. The interrupt arrives in the pause after the first record was
    appended: the script ends with [KeyboardInterrupt], the accumulator
    holds one record, and no file was written. *)
Theorem main_interrupt_loses_appended_record :
  (@main sample_libraries interrupted_net initial_state).1
    = Raise KeyboardInterrupt
  /\ length (all_books (@main sample_libraries interrupted_net
                          initial_state).2) = 1%nat
  /\ fs (@main sample_libraries interrupted_net initial_state).2 = ∅.
Proof. vm_compute. repeat split; reflexivity. Qed.

(** C3, as stated, fails: an entry without its heading makes
    [parse_list_item] raise, and a table row without a data cell costs the
    detail record every field, the category that was there included. *)
Lemma extraction_not_tolerant :
  @parse_list_item sample_libraries headless_article requested_url
    = Raise AttributeError
  /\ detail_category broken_detail = Some "Poetry"
  /\ (parse_product_page broken_only_net
        "http://books.toscrape.com/catalogue/a-light_1000/index.html"
        initial_state).1 = Ret ∅.
Proof. vm_compute. repeat split; reflexivity. Qed.

(** C6, as stated, fails on the empty accumulator: Finalize returns before
    the export is opened, so an export left by an earlier run is still
    there, and without one there is none. *)
Lemma finalize_keeps_stale_export :
  fs (@finalize sample_libraries stale_state).2 !! RAW_CSV = Some "title,UPC"
  /\ fs (@finalize sample_libraries initial_state).2 !! RAW_CSV = None.
Proof. vm_compute. split; reflexivity. Qed.

#[local] Existing Instance sample_libraries.

(** [fetch_failure_after_max_retries] on a network that is down. *)
Lemma fetch_failure_after_max_retries_witness :
  exists (s' : state) (delays : list Q),
    get_soup_and_url dead_net requested_url 4 1 initial_state = (Ret None, s')
    /\ requests s'
       = requests initial_state ++ replicate (Z.to_nat 4) requested_url
    /\ sleeps s' = sleeps initial_state ++ delays
    /\ Z.of_nat (length delays) = 4
    /\ (forall i d, delays !! i = Some d ->
          exists jitter : Q,
            (0 <= jitter)%Q /\ (jitter < 1)%Q
            /\ d == 1 * 2 ^ Z.of_nat i * (1 + jitter))
    /\ (forall i d d', delays !! i = Some d -> delays !! S i = Some d' ->
          (d <= d')%Q).
Proof.
  apply (fetch_failure_after_max_retries dead_net requested_url 4 1
           initial_state).
  - lia.
  - discriminate.
  - vm_compute. discriminate.
  - intros k. reflexivity.
  - intros k. reflexivity.
Defined.


(** [detail_failure_keeps_item] on a network that answers nothing: the
    listing record is appended as it is. *)
Lemma detail_failure_keeps_item_witness :
  exists s',
    process_article dead_net requested_url sample_article initial_state
      = (Ret tt, s')
    /\ all_books s'
       = all_books initial_state
         ++ [listed_item detail_url
               "http://books.toscrape.com/catalogue/../media/cache/2c/da/light.jpg"]
    /\ dom (listed_item detail_url
              "http://books.toscrape.com/catalogue/../media/cache/2c/da/light.jpg")
       = listing_fields.
Proof.
  apply (detail_failure_keeps_item dead_net dead_net_uninterrupted
           requested_url sample_article _ detail_url initial_state).
  - vm_compute. reflexivity.
  - vm_compute. reflexivity.
  - vm_compute. exact I.
Defined.

(** [load_after_save_is_identity] with the stand-in for [json]. *)
Lemma load_after_save_is_identity_witness :
  (load_checkpoint restarted_state).1 = Ret tt
  /\ all_books (load_checkpoint restarted_state).2 = two_books
  /\ requests (load_checkpoint restarted_state).2 = requests restarted_state
  /\ forall o max_pages,
       scrape_all o max_pages restarted_state
       = (crawl_loop o (Z.to_nat max_pages) 1 max_pages >> finalize)
           (load_checkpoint restarted_state).2.
Proof.
  apply (@load_after_save_is_identity sample_libraries two_books
           initial_state restarted_state sample_load_dump).
  reflexivity.
Defined.

(** The table of [two_books]: upper case sorts before lower case, and the
    key a record lacks, like the one it binds to [None], is an empty cell. *)
Example two_books_table :
  csv_fieldnames two_books = ["UPC"; "category"; "title"]
  /\ (fun row => csv_cell row <$> csv_fieldnames two_books) <$> two_books
     = [ [""; ""; "A Light in the Attic"];
         ["6957f44c3847a760"; ""; "Soumission"] ].
Proof. vm_compute. split; reflexivity. Qed.

(** [finalize_export] on an accumulator of two records. *)
Lemma finalize_export_witness :
  exists s' keys rows,
    finalize two_books_state = (Ret tt, s')
    /\ all_books s' = all_books two_books_state
    /\ fs s' !! RAW_CSV = Some (csv_text keys rows)
    /\ keys = csv_fieldnames (all_books two_books_state)
    /\ rows = (fun row => csv_cell row <$> keys) <$> all_books two_books_state
    /\ StronglySorted str_le keys
    /\ NoDup keys
    /\ (forall k, k ∈ keys <->
                  exists r, r ∈ all_books two_books_state /\ is_Some (r !! k))
    /\ (forall r k, r !! k = None -> csv_cell r k = EmptyString).
Proof.
  apply (proj1 (finalize_export two_books_state)). discriminate.
Defined.

(** [extraction_tolerance] on an entry that has nothing but its heading
    and anchor: the three texts are empty and the image URL is the base. *)
Lemma extraction_tolerance_witness :
  exists item,
    parse_list_item bare_article requested_url = Ret item
    /\ dom item = listing_fields
    /\ item !! "product_page_url" = Some (Some detail_url)
    /\ item !! "image_url" = Some (Some requested_url)
    /\ (price_tag_of bare_article = None ->
        item !! "price_text" = Some (Some EmptyString))
    /\ (availability_tag_of bare_article = None ->
        item !! "availability_text" = Some (Some EmptyString))
    /\ (rating_tag_of bare_article = None ->
        item !! "rating_text" = Some (Some EmptyString))
    /\ (find (has_name "img") bare_article = None ->
        urljoin requested_url EmptyString = Some requested_url).
Proof.
  eapply (proj1 extraction_tolerance bare_article requested_url).
  - vm_compute. reflexivity.
  - vm_compute. reflexivity.
  - vm_compute. reflexivity.
  - vm_compute. reflexivity.
Defined.

(** ** Further runs on concrete inputs *)

(** X1 on a network that fails twice and then answers. *)
Lemma fetch_succeeds_after_failures_witness :
  exists s',
    get_soup_and_url flaky_net requested_url 4 1 initial_state
      = (Ret (Some (sample_listing, redirected_url)), s')
    /\ requests s' = requests initial_state ++ replicate 3 requested_url
    /\ sleeps s'
       = sleeps initial_state
         ++ backoff_delays flaky_net (draws initial_state) 1 2
    /\ length (backoff_delays flaky_net (draws initial_state) 1 2) = 2%nat
    /\ all_books s' = all_books initial_state
    /\ fs s' = fs initial_state.
Proof.
  apply (fetch_succeeds_after_failures flaky_net requested_url 4 1
           initial_state 2 sample_listing redirected_url).
  - intros k. reflexivity.
  - discriminate.
  - vm_compute. discriminate.
  - lia.
  - intros i Hi. destruct i as [|[|i]]; [reflexivity|reflexivity|lia].
  - reflexivity.
Defined.

(** X2 on a server that answers 503 to everything. *)
Lemma fetch_stays_in_budget_witness :
  exists k : nat,
    (k <= Z.to_nat 4)%nat
    /\ requests (get_soup_and_url unavailable_net requested_url 4 1
                   initial_state).2
       = requests initial_state ++ replicate k requested_url
    /\ (length (sleeps (get_soup_and_url unavailable_net requested_url 4 1
                          initial_state).2)
        <= length (sleeps initial_state) + k)%nat
    /\ all_books (get_soup_and_url unavailable_net requested_url 4 1
                    initial_state).2
       = all_books initial_state
    /\ fs (get_soup_and_url unavailable_net requested_url 4 1
             initial_state).2
       = fs initial_state.
Proof.
  apply (fetch_stays_in_budget unavailable_net requested_url 4 1
           initial_state
           (get_soup_and_url unavailable_net requested_url 4 1
              initial_state).2
           (get_soup_and_url unavailable_net requested_url 4 1
              initial_state).1).
  vm_compute. reflexivity.
Defined.

(** X3 on a network that is down, with a backoff factor of -1. *)
Lemma fetch_negative_backoff_raises_witness :
  exists s',
    get_soup_and_url dead_net requested_url 4 (-1) initial_state
      = (Raise ValueError, s')
    /\ requests s' = requests initial_state ++ [requested_url]
    /\ sleeps s' = sleeps initial_state.
Proof.
  apply (fetch_negative_backoff_raises dead_net requested_url 4 (-1)
           initial_state).
  - reflexivity.
  - vm_compute. discriminate.
  - lia.
  - reflexivity.
  - reflexivity.
Defined.

(** X4 on the sample entry, whose rating paragraph has the classes
    [star-rating] and [Three]. *)
Lemma rating_text_is_a_rating_token_witness :
  exists w,
    listed_item detail_url
      "http://books.toscrape.com/catalogue/../media/cache/2c/da/light.jpg"
      !! "rating_text" = Some (Some w)
    /\ w <> "star-rating"
    /\ (w = EmptyString
        \/ exists p, rating_tag_of sample_article = Some p
                     /\ w ∈ tag_classes p).
Proof.
  apply (rating_text_is_a_rating_token sample_article requested_url).
  vm_compute. reflexivity.
Defined.

(** X6 on a table that gives the UPC twice. *)
Lemma table_rows_last_header_wins_witness :
  repeated_info !! strip (text (Elem "th" [] ∅ [ TextNode " UPC " ]))
  = Some (Some (strip (text (Elem "td" [] ∅ [ TextNode "second" ])))).
Proof.
  apply (table_rows_last_header_wins [ table_row "UPC" "first" ]
           [ table_row "Tax" "0.00" ] upc_again
           (Elem "th" [] ∅ [ TextNode " UPC " ])
           (Elem "td" [] ∅ [ TextNode "second" ]) ∅ repeated_info).
  - repeat constructor.
  - vm_compute. reflexivity.
  - vm_compute. reflexivity.
  - vm_compute. reflexivity.
  - repeat constructor. vm_compute. discriminate.
Defined.

(** X5 on the sample detail page. *)
Lemma detail_record_fields_witness :
  detailed_item !! "fetched_url" = Some (Some detail_url)
  /\ is_Some (detailed_item !! "category")
  /\ (exists desc, detailed_item !! "description" = Some (Some desc))
  /\ (forall k, k <> "category" -> detailed_item !! k <> Some None)
  /\ exists info,
       detail_info sample_detail = Ret info
       /\ dom detailed_item
          = {[ "fetched_url"; "category"; "description" ]} ∪ dom info
       /\ (forall k v, k <> "fetched_url" -> info !! k = Some v ->
                       detailed_item !! k = Some v)
       /\ (info !! "category" = None ->
           detailed_item !! "category" = Some (detail_category sample_detail))
       /\ (info !! "description" = None ->
           detailed_item !! "description"
           = Some (Some (detail_description sample_detail))).
Proof.
  apply (detail_record_fields sample_detail detail_url detailed_item).
  - vm_compute. reflexivity.
  - vm_compute. reflexivity.
Defined.

(** The stand-in for [urljoin] accepts the name of every listing page, and
    the state a first run starts from has no checkpoint. *)
Lemma sample_pages_join (page : Z) : raises (page_url page) = false.
Proof. reflexivity. Qed.

Lemma initial_state_own_checkpoint : own_checkpoint initial_state.
Proof. by left. Qed.

Lemma restarted_state_own_checkpoint : own_checkpoint restarted_state.
Proof.
  right. exists two_books. split; [reflexivity|apply sample_load_dump].
Qed.

(** X9 on the run that is interrupted in the pause after its first
    record. *)
Lemma scrape_all_raises_only_interrupt_witness :
  KeyboardInterrupt = KeyboardInterrupt
  /\ exists k, sigint interrupted_net k = true.
Proof.
  apply (scrape_all_raises_only_interrupt interrupted_net 1 initial_state
           (scrape_all interrupted_net 1 initial_state).2).
  - exact initial_state_own_checkpoint.
  - exact sample_pages_join.
  - vm_compute. reflexivity.
Defined.


(** X11 on the same run. *)
Lemma scrape_all_return_checkpoint_witness :
  fs (scrape_all listing_only_net 1 initial_state).2 !! RAW_JSON
  = Some (json_dump
            (all_books (scrape_all listing_only_net 1 initial_state).2))
  /\ fs (scrape_all listing_only_net 1 initial_state).2 !! RAW_TMP = None.
Proof.
  apply (scrape_all_return_checkpoint listing_only_net 1 initial_state).
  vm_compute. reflexivity.
Defined.

(** X12 on a server that answers 503 to everything. *)
Lemma scrape_all_returns_uninterrupted_witness :
  exists s', scrape_all unavailable_net 3 initial_state = (Ret tt, s').
Proof.
  apply (scrape_all_returns_uninterrupted unavailable_net 3 initial_state).
  - exact initial_state_own_checkpoint.
  - exact sample_pages_join.
  - intros k. reflexivity.
Defined.

(** X13 on a process restarted with a page limit of zero: the checkpoint
    of [two_books] is read and written back. *)
Lemma scrape_all_no_pages_witness :
  exists s',
    scrape_all dead_net 0 restarted_state = (Ret tt, s')
    /\ requests s' = requests restarted_state
    /\ all_books s' = loaded restarted_state
    /\ fs s' !! RAW_JSON = Some (json_dump (loaded restarted_state)).
Proof.
  apply (scrape_all_no_pages dead_net 0 restarted_state).
  - exact restarted_state_own_checkpoint.
  - lia.
Defined.

(** X14 on a site whose first listing page is empty. *)
Lemma scrape_all_empty_listing_witness :
  exists s',
    scrape_all empty_page_net 5 initial_state = (Ret tt, s')
    /\ requests s' = requests initial_state ++ [requested_url]
    /\ sleeps s' = sleeps initial_state
    /\ all_books s' = loaded initial_state
    /\ fs s' !! RAW_JSON = Some (json_dump (loaded initial_state)).
Proof.
  apply (scrape_all_empty_listing empty_page_net 5 initial_state
           requested_url empty_listing
           "http://books.toscrape.com/catalogue/page-1.html").
  - exact initial_state_own_checkpoint.
  - lia.
  - vm_compute. reflexivity.
  - reflexivity.
  - reflexivity.
  - vm_compute. reflexivity.
Defined.

(** X15 on a network that is down. *)
Lemma scrape_all_dead_start_witness :
  exists s',
    scrape_all dead_net 1000 initial_state = (Ret tt, s')
    /\ requests s' = requests initial_state ++ replicate 4 requested_url
    /\ all_books s' = loaded initial_state
    /\ fs s' !! RAW_JSON = Some (json_dump (loaded initial_state)).
Proof.
  apply (scrape_all_dead_start dead_net 1000 initial_state requested_url).
  - exact initial_state_own_checkpoint.
  - lia.
  - vm_compute. reflexivity.
  - intros k. reflexivity.
  - intros k. reflexivity.
Defined.

(** X16 on the entry without its heading. *)
Lemma process_article_skips_unreadable_witness :
  exists s',
    process_article dead_net requested_url headless_article initial_state
      = (Ret tt, s')
    /\ all_books s' = all_books initial_state
    /\ requests s' = requests initial_state
    /\ sleeps s' = sleeps initial_state.
Proof.
  apply (process_article_skips_unreadable dead_net requested_url
           headless_article initial_state).
  vm_compute. reflexivity.
Defined.

(** X17 on the first entry of a run: one record is no multiple of 20, and
    no file is written. *)
Lemma article_checkpoint_cadence_witness :
  (Z.of_nat (length (all_books
     (process_article dead_net requested_url sample_article
        initial_state).2)) mod 20 = 0 ->
   fs (process_article dead_net requested_url sample_article
         initial_state).2 !! RAW_JSON
   = Some (json_dump (all_books
       (process_article dead_net requested_url sample_article
          initial_state).2))
   /\ fs (process_article dead_net requested_url sample_article
            initial_state).2 !! RAW_TMP = None)
  /\ (Z.of_nat (length (all_books
        (process_article dead_net requested_url sample_article
           initial_state).2)) mod 20 <> 0 ->
      fs (process_article dead_net requested_url sample_article
            initial_state).2
      = fs initial_state).
Proof.
  apply (article_checkpoint_cadence dead_net requested_url sample_article
           initial_state).
  vm_compute. reflexivity.
Defined.


(** X19 on a price text whose first run of price characters is a lone
    dot. *)
Lemma parse_price_raises_iff_witness :
  raises (Clean.parse_price "abc.") = true <->
  exists m,
    search_run Clean.price_char "abc." = Some m
    /\ (exists_char is_digit m = false \/ (2 <= Clean.dot_count m)%nat).
Proof.
  apply (parse_price_raises_iff "abc."). reflexivity.
Defined.


(** X21 on the availability text of a product page. *)
Lemma parse_availability_reads_first_number_witness :
  Clean.parse_availability ("In stock (" +:+ "22" +:+ " available)")
  = Ret (Some (Z.of_N (digits_value "22"))).
Proof.
  apply (parse_availability_reads_first_number "In stock (" "22"
           " available)"); try reflexivity.
  unfold Clean.max_str_digits. simpl. lia.
Defined.

(** X22 on [raw_sample]: two URLs, two rows. *)
Lemma clean_raw_one_row_per_url_witness :
  NoDup (CleanData.url_of <$> CleanData.rows cleaned_sample)
  /\ forall c, c ∈ CleanData.url_of <$> CleanData.rows cleaned_sample <->
       exists s, c = CleanData.Str s
         /\ exists d, d ∈ raw_sample
                      /\ d !! "product_page_url" = Some (Some s).
Proof.
  apply (clean_raw_one_row_per_url strip (fun s => s) raw_sample
           cleaned_sample).
  vm_compute. reflexivity.
Defined.

(** A property of every record of a list that is written out. *)
Ltac each_record :=
  repeat (apply Forall_cons_2; [|]); [..|apply Forall_nil_2].

Lemma listed_item_texts_given (link img : string) :
  CleanData.texts_given (listed_item link img).
Proof. by exists "£51.77", "In stock", "A Light in the Attic". Qed.

Lemma listed_item_modest (link img : string) :
  CleanData.modest (listed_item link img).
Proof.
  split.
  - intros p Hp. vm_compute in Hp. by injection Hp as <-.
  - intros a Ha. vm_compute in Ha. injection Ha as <-.
    split; [reflexivity|]. unfold Clean.max_str_digits. simpl. lia.
Qed.

Lemma second_copy_texts_given : CleanData.texts_given second_copy.
Proof. by exists "£9.99", "In stock", " Second Copy ". Qed.

Lemma second_copy_modest : CleanData.modest second_copy.
Proof.
  split.
  - intros p Hp. vm_compute in Hp. by injection Hp as <-.
  - intros a Ha. vm_compute in Ha. injection Ha as <-.
    split; [reflexivity|]. unfold Clean.max_str_digits. simpl. lia.
Qed.

(** X23 on [copies_sample]: the row of the first URL is built from the
    first record, not from its later copy. *)
Lemma clean_raw_keeps_first_witness :
  exists pre d post u p a t,
    copies_sample = pre ++ d :: post
    /\ d !! "product_page_url" = Some (Some u)
    /\ Forall (fun d' => d' !! "product_page_url" <> Some (Some u)) pre
    /\ d !! "price_text" = Some (Some p)
    /\ d !! "availability_text" = Some (Some a)
    /\ d !! "title" = Some (Some t)
    /\ CleanData.url_of first_copy_row = CleanData.Str u
    /\ (exists v, Clean.parse_price p = Ret v
                  /\ CleanData.computed first_copy_row !! "price"
                     = Some (CleanData.num_of_float v))
    /\ (exists n, Clean.parse_availability a = Ret n
                  /\ CleanData.computed first_copy_row !! "availability"
                     = Some (CleanData.num_of_int n))
    /\ CleanData.computed first_copy_row !! "rating"
       = Some (CleanData.num_of_int
                 (match d !! "rating_text" with
                  | Some (Some w) => Clean.rating_word_to_int w
                  | _ => None
                  end))
    /\ CleanData.cells first_copy_row !! "title"
       = Some (CleanData.Str ((fun s => s) (strip t))).
Proof.
  apply (clean_raw_keeps_first strip (fun s => s) copies_sample
           cleaned_copies first_copy_row).
  - each_record;
      [apply listed_item_texts_given|apply second_copy_texts_given
      |apply listed_item_texts_given].
  - each_record;
      [apply listed_item_modest|apply second_copy_modest
      |apply listed_item_modest].
  - vm_compute. reflexivity.
  - vm_compute. left.
Defined.

Lemma listed_item_well_listed (link img : string) :
  well_listed (listed_item link img).
Proof.
  intros k Hk. unfold listing_fields in Hk.
  repeat (apply elem_of_union in Hk as [Hk|Hk];
          [|apply elem_of_singleton in Hk as ->; by eexists]).
  apply elem_of_singleton in Hk as ->. by eexists.
Qed.

(** X24 on what the scraper collects from two entries. *)
Lemma clean_raw_returns_iff_witness :
  (exists df, CleanData.clean_raw strip (fun s => s) listed_sample = Ret df)
  <->
  listed_sample <> []
  /\ (exists d, d ∈ listed_sample /\ is_Some (d !! "rating_text"))
  /\ (exists d, d ∈ listed_sample /\ is_Some (d !! "product_page_url"))
  /\ forall d p, d ∈ listed_sample -> d !! "price_text" = Some (Some p) ->
                 raises (Clean.parse_price p) = false.
Proof.
  apply (clean_raw_returns_iff strip (fun s => s) listed_sample).
  - each_record; apply listed_item_texts_given.
  - each_record; apply listed_item_modest.
Defined.

(** X25 on what the scraper collects from two entries. *)
Lemma clean_raw_of_listed_witness :
  ((exists df, CleanData.clean_raw strip (fun s => s) listed_sample = Ret df)
   \/ CleanData.clean_raw strip (fun s => s) listed_sample
      = Raise ValueError)
  /\ ((exists df,
          CleanData.clean_raw strip (fun s => s) listed_sample = Ret df) <->
      forall d s, d ∈ listed_sample -> d !! "price_text" = Some (Some s) ->
                  raises (Clean.parse_price s) = false).
Proof.
  apply (clean_raw_of_listed strip (fun s => s) listed_sample).
  - discriminate.
  - each_record; apply listed_item_well_listed.
  - each_record; apply listed_item_modest.
Defined.

(** X26 on records that have no price text. *)
Lemma clean_raw_without_price_column_witness :
  CleanData.clean_raw strip (fun s => s) two_books = Raise KeyError.
Proof.
  apply (clean_raw_without_price_column strip (fun s => s) two_books).
  intros d Hd. unfold two_books in Hd.
  apply elem_of_cons in Hd as [->|Hd]; [reflexivity|].
  apply elem_of_cons in Hd as [->|Hd]; [reflexivity|].
  by apply elem_of_nil in Hd.
Defined.
